(** * auto-generate-changelog: a shallow embedding of [main.py]

    The development follows the script from its leaves to its root: the
    Python string primitives it relies on, the regular expressions it uses
    (each one embedded as the matcher it denotes), the renderers
    ([strip_commits], [generate_section], [generate_release_body],
    [generate_release_changelog]) and the methods of [GithubChangelog]
    ([analyze_changelog], [get_release_content], [get_data],
    [assemble_changelog]).  The properties come after the definitions.

    Modelling choices:
    - characters are code points below 256 ([ascii]) and a Python [str]
      is a [string];
    - a [dict] is an association list kept in insertion order, because
      [assemble_changelog] iterates over [self.releases.values()];
    - the hosting API is data: what each call of PyGithub returns, or the
      status and data of the [GithubException] it raises;
    - an exception that leaves a function is a result [Raise], and the
      lines the script prints are collected in a list;
    - the type pattern of a part ([feat] in [feat:Feature]) is a literal
      keyword, without regular-expression metacharacters. *)

From Stdlib Require Import List ZArith Lia Bool Arith Ascii String.
From Stdlib Require Import DecimalString.
Import ListNotations.
Open Scope string_scope.

(** ** Python string primitives *)

Module PyStr.

Definition nl_char : ascii := ascii_of_nat 10.
Definition nl : string := String nl_char "".
Definition cr : string := String (ascii_of_nat 13) "".

Definition is_nl (c : ascii) : bool := Ascii.eqb c nl_char.

(** [s[n:]] and [s[:n]] for a non-negative [n]. *)
Fixpoint drop (n : nat) (s : string) : string :=
  match n, s with
  | O, _ => s
  | S _, "" => ""
  | S k, String _ s' => drop k s'
  end.

Fixpoint take (n : nat) (s : string) : string :=
  match n, s with
  | O, _ => ""
  | S _, "" => ""
  | S k, String c s' => String c (take k s')
  end.

(** [s[-n:]] and [s[:-n]] for a positive [n]. *)
Definition last_n (n : nat) (s : string) : string := drop (String.length s - n) s.
Definition drop_last (n : nat) (s : string) : string := take (String.length s - n) s.

(** [s[a:-b]] for [a >= 0] and [b > 0]. *)
Definition slice (a b : nat) (s : string) : string :=
  take (String.length s - b - a) (drop a s).

Definition startswith (s p : string) : bool := prefix p s.

Definition endswith (s p : string) : bool :=
  (String.length p <=? String.length s)%nat && String.eqb (last_n (String.length p) s) p.

(** [s.lstrip('\n')], [s.rstrip('\n')], [s.strip('\n')]. *)
Fixpoint lstrip_nl (s : string) : string :=
  match s with
  | "" => ""
  | String c s' => if is_nl c then lstrip_nl s' else s
  end.

Fixpoint rstrip_nl (s : string) : string :=
  match s with
  | "" => ""
  | String c s' =>
      match rstrip_nl s' with
      | "" => if is_nl c then "" else String c ""
      | r => String c r
      end
  end.

Definition strip_nl (s : string) : string := rstrip_nl (lstrip_nl s).

(** Prepend a character to the first element of a list of pieces. *)
Definition cons_head (c : ascii) (l : list string) : list string :=
  match l with
  | [] => [String c ""]
  | seg :: rest => String c seg :: rest
  end.

(** [s.split(sep)] for a non-empty [sep]: occurrences are taken leftmost
    first and do not overlap.  [skip] counts the characters of a separator
    that was recognised and is still being consumed. *)
Fixpoint split_go (sep : string) (skip : nat) (s : string) : list string :=
  match s with
  | "" => [""]
  | String c s' =>
      match skip with
      | S k => split_go sep k s'
      | O =>
          if prefix sep s
          then "" :: split_go sep (String.length sep - 1) s'
          else cons_head c (split_go sep 0 s')
      end
  end.

Definition split (sep s : string) : list string := split_go sep 0 s.

(** [re.sub(old, new, s)] for a pattern [old] that is a non-empty literal:
    every non-overlapping occurrence, leftmost first, is replaced. *)
Fixpoint replace_go (old new : string) (skip : nat) (s : string) : string :=
  match s with
  | "" => ""
  | String c s' =>
      match skip with
      | S k => replace_go old new k s'
      | O =>
          if prefix old s
          then new ++ replace_go old new (String.length old - 1) s'
          else String c (replace_go old new 0 s')
      end
  end.

Definition replace (old new s : string) : string := replace_go old new 0 s.

(** Leftmost occurrence of [sep] in [s]: the text before it and after it. *)
Fixpoint find_sub (sep s : string) : option (string * string) :=
  if prefix sep s then Some ("", drop (String.length sep) s)
  else match s with
       | "" => None
       | String c s' =>
           match find_sub sep s' with
           | Some (a, b) => Some (String c a, b)
           | None => None
           end
       end.

(** [sep.join(l)]. *)
Definition join (sep : string) (l : list string) : string := String.concat sep l.

(** [c.lower()] on code points below 256: the ASCII capitals and the
    Latin-1 capitals (all of 192..222 but the multiplication sign 215). *)
Definition lower_char (c : ascii) : ascii :=
  let n := nat_of_ascii c in
  if ((65 <=? n) && (n <=? 90))%nat then ascii_of_nat (n + 32)
  else if ((192 <=? n) && (n <=? 222) && negb (n =? 215))%nat
       then ascii_of_nat (n + 32)
       else c.

Fixpoint lower (s : string) : string :=
  match s with
  | "" => ""
  | String c s' => String (lower_char c) (lower s')
  end.

(** [\s] of the [re] module on [str] patterns, restricted to code points
    below 256. *)
Definition is_space (c : ascii) : bool :=
  let n := nat_of_ascii c in
  (((9 <=? n) && (n <=? 13)) || ((28 <=? n) && (n <=? 32))
   || (n =? 133) || (n =? 160))%nat.

(** [str(n)] for an integer. *)
Definition str_of_Z (n : Z) : string := NilZero.string_of_int (Z.to_int n).

End PyStr.
Import PyStr.


(** ** Dictionaries

    A Python [dict] keeps its keys in insertion order; assigning to a key
    that is present replaces the value in place. *)

Definition dict (V : Type) : Type := list (string * V).

Fixpoint dict_get {V} (d : dict V) (k : string) : option V :=
  match d with
  | [] => None
  | (k', v) :: d' => if String.eqb k' k then Some v else dict_get d' k
  end.

Definition dict_mem {V} (d : dict V) (k : string) : bool :=
  match dict_get d k with Some _ => true | None => false end.

Fixpoint dict_set {V} (d : dict V) (k : string) (v : V) : dict V :=
  match d with
  | [] => [(k, v)]
  | (k', v') :: d' =>
      if String.eqb k' k then (k, v) :: d' else (k', v') :: dict_set d' k v
  end.

Definition dict_values {V} (d : dict V) : list V := map snd d.
Definition dict_keys {V} (d : dict V) : list string := map fst d.

(** [x in l] and [l.remove(x)] on a list of strings ([remove] is only
    called on a member, so the [ValueError] of a missing one never
    arises). *)
Fixpoint list_mem (x : string) (l : list string) : bool :=
  match l with
  | [] => false
  | y :: l' => String.eqb y x || list_mem x l'
  end.

Fixpoint list_remove (x : string) (l : list string) : list string :=
  match l with
  | [] => []
  | y :: l' => if String.eqb y x then l' else y :: list_remove x l'
  end.

(** ** Exceptions

    The exceptions that can leave the modelled functions: the
    [ValueError] of a tuple unpacking, the [KeyError] of a missing
    dictionary key, the [AttributeError] of an attribute that does not
    exist and PyGithub's [GithubException].  Two exceptions of the script
    belong to inputs that are outside of the model: the [re.error] of a
    type that is no regular expression (see [keyword]) and the
    [TypeError] of a release without description (see [ApiRelease]). *)

Inductive PyExn : Type :=
| ValueError
| KeyError (k : string)
| AttributeError
| GithubException (status : Z) (data : string).

Inductive py (A : Type) : Type :=
| Ok (a : A)
| Raise (e : PyExn).
Arguments Ok {A} a.
Arguments Raise {A} e.

Definition py_bind {A B} (m : py A) (k : A -> py B) : py B :=
  match m with
  | Ok a => k a
  | Raise e => Raise e
  end.

Notation "x <- m ;; k" := (py_bind m (fun x => k))
  (at level 61, m at next level, right associativity).

(** ** Regular expressions of the script

    Each pattern is embedded as the matcher the [re] module runs for it,
    backtracking included. *)

Module Regex.

Definition is_char (c : ascii) (s : string) : bool := String.eqb (String c "") s.

(** [.*?\]] from the current position: the text up to the first closing
    bracket, provided no newline comes before it. *)
Fixpoint until_close (s : string) : option string :=
  match s with
  | "" => None
  | String c s' =>
      if is_char c "]" then Some ""
      else if is_nl c then None
      else match until_close s' with
           | Some t => Some (String c t)
           | None => None
           end
  end.

(** [re.search(r'\[.*?\]', s)]: the result is [group()], brackets
    included. *)
Fixpoint search_bracket (s : string) : option string :=
  match s with
  | "" => None
  | String c s' =>
      if is_char c "["
      then match until_close s' with
           | Some t => Some ("[" ++ t ++ "]")
           | None => search_bracket s'
           end
      else search_bracket s'
  end.

(** The rest of [(.+?)[)]] once the first character of the group has been
    consumed: the text up to the first closing parenthesis on the line. *)
Fixpoint until_paren (s : string) : option string :=
  match s with
  | "" => None
  | String c s' =>
      if is_char c ")" then Some ""
      else if is_nl c then None
      else match until_paren s' with
           | Some t => Some (String c t)
           | None => None
           end
  end.

(** [(.+?)[)]] after the opening parenthesis: at least one character that
    is not a newline, then the first closing parenthesis. *)
Definition paren_group (s : string) : option string :=
  match s with
  | "" => None
  | String c s' =>
      if is_nl c then None
      else match until_paren s' with
           | Some t => Some (String c t)
           | None => None
           end
  end.

(** [(?:[(](.+?)[)])?] at the start of [s]: group 1, or [''] when the
    optional part matches nothing (what [re.findall] reports for a group
    that took no part in the match). *)
Definition opt_scope (s : string) : string :=
  match s with
  | String c s' =>
      if is_char c "("
      then match paren_group s' with Some t => t | None => "" end
      else ""
  | "" => ""
  end.

(** The characters that stand for themselves in a regular expression:
    all but [. ^ $ * + ? { } [ ] \ | ( )]. *)
Definition literal_char (c : ascii) : bool :=
  negb (existsb (Ascii.eqb c) (list_ascii_of_string ".^$*+?{}[]\|()")).

(** A type that is a plain keyword, such as [feat]: the regular
    expression it is compiled into matches this text and no other.  The
    two matchers below are those of a keyword; a type with other
    characters is outside of the model. *)
Fixpoint keyword (type_regex : string) : bool :=
  match type_regex with
  | "" => true
  | String c s => literal_char c && keyword s
  end.

(** [re.match('^' + type_regex + '(?:[(](.+?)[)])?', head)] followed by
    [re.findall(...)[0]], for a [type_regex] that is a [keyword]:
    [None] when the head does not match, else group 1. *)
Definition match_type (type_regex head : string) : option string :=
  if prefix type_regex head
  then Some (opt_scope (drop (String.length type_regex) head))
  else None.

(** [\s?:\s?] at the start of [s]: what is left after the match. *)
Definition colon_sep (s : string) : option string :=
  match s with
  | "" => None
  | String c s' =>
      let after_colon (t : string) : string :=
        match t with
        | String d t' => if is_space d then t' else t
        | "" => t
        end in
      if is_char c ":" then Some (after_colon s')
      else if is_space c
           then match s' with
                | String d s'' =>
                    if is_char d ":" then Some (after_colon s'') else None
                | "" => None
                end
           else None
  end.

(** [(.+?)[)]\s?:\s?] after the first character of the group: the lazy
    group stops at the first closing parenthesis that lets the rest of the
    pattern match, and grows over characters that are not newlines. *)
Fixpoint paren_colon_go (s : string) : option string :=
  match s with
  | "" => None
  | String c s' =>
      let grow := if is_nl c then None else paren_colon_go s' in
      if is_char c ")"
      then match colon_sep s' with
           | Some r => Some r
           | None => grow
           end
      else grow
  end.

Definition paren_colon (s : string) : option string :=
  match s with
  | "" => None
  | String c s' => if is_nl c then None else paren_colon_go s'
  end.

(** The match of ['^' + type_regex + '(?:[(](.+?)[)])?' + '\s?:\s?'] at the
    start of [head]: what is left of the head after the match. *)
Definition match_type_colon (type_regex head : string) : option string :=
  if prefix type_regex head
  then
    let rest := drop (String.length type_regex) head in
    let with_group :=
      match rest with
      | String c r => if is_char c "(" then paren_colon r else None
      | "" => None
      end in
    match with_group with
    | Some r => Some r
    | None => colon_sep rest
    end
  else None.

(** [re.sub(regex + r'\s?:\s?', '', head)]: the pattern is anchored, so at
    most the match at the start is removed. *)
Definition sub_type_colon (type_regex head : string) : string :=
  match match_type_colon type_regex head with
  | Some r => r
  | None => head
  end.

Definition HIDE_BEGIN : string := "<!-- HIDE IN CHANGELOG BEGIN -->".
Definition HIDE_END : string := "<!-- HIDE IN CHANGELOG END -->".

(** [re.split(r'<!-- HIDE IN CHANGELOG BEGIN -->(?:.|\n)*?<!-- HIDE IN
    CHANGELOG END -->', s)]: a region runs from a begin marker to the first
    end marker after it; a begin marker with no end marker after it is
    ordinary text. *)
Fixpoint split_hide_go (skip : nat) (s : string) : list string :=
  match s with
  | "" => [""]
  | String c s' =>
      match skip with
      | S k => split_hide_go k s'
      | O =>
          if prefix HIDE_BEGIN s
          then match find_sub HIDE_END (drop (String.length HIDE_BEGIN) s) with
               | Some (region, _) =>
                   "" :: split_hide_go (String.length HIDE_BEGIN + String.length region
                                        + String.length HIDE_END - 1) s'
               | None => cons_head c (split_hide_go 0 s')
               end
          else cons_head c (split_hide_go 0 s')
      end
  end.

Definition split_hide (s : string) : list string := split_hide_go 0 s.

End Regex.
Import Regex.

(** ** Constants *)

(** [END_CHANGELOG_SIGNATURE] is a raw string: the backslash is part of
    it. *)
Definition END_CHANGELOG_SIGNATURE : string :=
  "\* *This CHANGELOG was automatically generated by [auto-generate-changelog](https://github.com/BobAnkh/auto-generate-changelog)*".
Definition BEGIN_CHANGELOG_TITLE : string := "# CHANGELOG".

(** ** Data *)

(** A pull request as [get_release_content] reads it. *)
Record Pull : Type := { number : Z; pull_html_url : string }.

(** A commit of the hosting API.  [commit_pulls] is what
    [commit.get_pulls()] delivers when it is consumed: the pull requests,
    or the status and data of the [GithubException] it raises. *)
Record Commit : Type := {
  commit_sha : string;
  commit_message : string;
  commit_html_url : string;
  commit_pulls : (Z * string) + list Pull
}.

(** The dictionaries [get_release_content] appends to [selected_commits]. *)
Record SelectedCommit : Type := {
  head : string;
  sha : string;
  url : string;
  pr_links : list string
}.

(** The dictionaries [strip_commits] stores under a scope. *)
Record ScopedCommit : Type := {
  subject : string;
  commit : SelectedCommit
}.

(** The values of [self.releases].  [created_at] is the text the f-string
    prints for the timestamp. *)
Record Release : Type := {
  html_url : string;
  body : string;
  created_at : string;
  release_commit_sha : string;
  content : string
}.

Definition set_content (r : Release) (c : string) : Release :=
  {| html_url := html_url r; body := body r; created_at := created_at r;
     release_commit_sha := release_commit_sha r; content := c |}.

(** ** Section renderer *)

(** [scopes[scope].append(x)], creating the list on first use. *)
Fixpoint scopes_append (scopes : dict (list ScopedCommit)) (scope : string)
    (x : ScopedCommit) : dict (list ScopedCommit) :=
  match scopes with
  | [] => [(scope, [x])]
  | (k, l) :: rest =>
      if String.eqb k scope then (k, (l ++ [x])%list) :: rest
      else (k, l) :: scopes_append rest scope x
  end.

Definition type_regex_full (type_regex : string) : string :=
  "^" ++ type_regex ++ "(?:[(](.+?)[)])?".

(** One turn of the loop of [strip_commits].  The type pattern is taken
    as a literal keyword (no regular-expression metacharacter in it). *)
Definition strip_commits_step (type_regex default_scope : string)
    (suppress_unscoped : bool) (scopes : dict (list ScopedCommit))
    (c : SelectedCommit) : dict (list ScopedCommit) :=
  let regex := type_regex_full type_regex in
  match match_type type_regex (head c) with
  | None => scopes
  | Some scope0 =>
      if String.eqb scope0 "" && suppress_unscoped then scopes
      else
        let scope := if String.eqb scope0 "" then default_scope else scope0 in
        if String.eqb (lower scope) "changelog"
           && String.eqb regex "^docs(?:[(](.+?)[)])?"
        then scopes
        else
          let subject := sub_type_colon type_regex (head c) in
          scopes_append scopes scope {| subject := subject; commit := c |}
  end.

Definition strip_commits (commits : list SelectedCommit)
    (type_regex default_scope : string) (suppress_unscoped : bool)
    : dict (list ScopedCommit) :=
  fold_left (strip_commits_step type_regex default_scope suppress_unscoped)
    commits [].

Definition render_commit (sel : ScopedCommit) : string :=
  let c := commit sel in
  "  - " ++ subject sel ++ " ([" ++ take 7 (sha c) ++ "](" ++ url c ++ "))"
  ++ String.concat "" (pr_links c) ++ nl.

Definition render_scope (entry : string * list ScopedCommit) : string :=
  let '(scope, sels) := entry in
  fold_left (fun acc sel => acc ++ render_commit sel) sels
    ("- " ++ scope ++ ":" ++ nl).

Definition generate_section (release_commits : list SelectedCommit)
    (regex default_scope : string) (suppress_unscoped : bool) : string :=
  let scopes := strip_commits release_commits regex default_scope
                  suppress_unscoped in
  fold_left (fun section entry => section ++ render_scope entry ++ nl)
    scopes "".

(** ** Release body renderer *)

(** [regex, name = part.split(':')]: anything but two pieces is a
    [ValueError]. *)
Definition unpack_part (part : string) : py (string * string) :=
  match split ":" part with
  | [regex; name] => Ok (regex, name)
  | _ => Raise ValueError
  end.

Fixpoint generate_release_body_loop (release_commits : list SelectedCommit)
    (part_name : list string) (default_scope : string)
    (suppress_unscoped : bool) (release_body : string) : py string :=
  match part_name with
  | [] => Ok release_body
  | part :: parts =>
      rn <- unpack_part part ;;
      let '(regex, name) := rn in
      let sec := generate_section release_commits regex default_scope
                   suppress_unscoped in
      generate_release_body_loop release_commits parts default_scope
        suppress_unscoped
        (if String.eqb sec "" then release_body
         else release_body ++ "### " ++ name ++ nl ++ nl ++ sec)
  end.

Definition generate_release_body (release_commits : list SelectedCommit)
    (part_name : list string) (default_scope : string)
    (suppress_unscoped : bool) : py string :=
  generate_release_body_loop release_commits part_name default_scope
    suppress_unscoped "".

(** ** Release header renderer *)

(** The three branches of the loop over [origin_desc] share their tail. *)
Definition add_para (description para : string) : string :=
  if String.eqb para "" then description
  else if String.eqb description "" then strip_nl para
  else strip_nl description ++ nl ++ nl ++ strip_nl para.

(** One turn of the loop over [origin_desc]; the element is compared by
    value with the first and the last one, as the script does.
    [re.sub(r'\n*$', r'', elem)] removes the newlines at the end and
    [re.sub(r'^\n*', r'', elem)] those at the start. *)
Definition description_step (first last : string) (description elem : string)
    : string :=
  if String.eqb elem first then add_para description (rstrip_nl elem)
  else if String.eqb elem last then add_para description (lstrip_nl elem)
  else add_para description (lstrip_nl (rstrip_nl elem)).

(** The description of a tagged release, up to [description.strip]. *)
Definition release_description (body replace_empty_release_info : string)
    : string :=
  let origin_desc := split_hide body in
  let description :=
    match origin_desc with
    | [d] => d
    | _ =>
        fold_left
          (description_step (hd "" origin_desc) (last origin_desc ""))
          origin_desc ""
    end in
  let description :=
    if String.eqb description "" then replace_empty_release_info
    else description in
  strip_nl description.

Definition release_info (meta_data : Release)
    (release_tag replace_empty_release_info : string) : string :=
  if String.eqb release_tag "Unreleased"
  then "## " ++ "Unreleased" ++ nl ++ nl ++ replace_empty_release_info
  else "## [" ++ release_tag ++ "](" ++ html_url meta_data ++ ") - "
       ++ created_at meta_data ++ nl ++ nl
       ++ release_description (body meta_data) replace_empty_release_info.

Definition generate_release_changelog (meta_data : Release)
    (release_commits : list SelectedCommit) (release_tag : string)
    (part_name : list string) (default_scope : string)
    (suppress_unscoped : bool) (replace_empty_release_info : string)
    : py string :=
  let info := release_info meta_data release_tag replace_empty_release_info in
  release_body <- generate_release_body release_commits part_name
                    default_scope suppress_unscoped ;;
  if String.eqb release_body "" && String.eqb release_tag "Unreleased"
  then Ok ""
  else Ok (strip_nl info ++ nl ++ nl ++ strip_nl release_body).

(** ** The hosting API and the object state *)

(** A release as [repo.get_releases()] delivers it.  [api_body] is the
    description of the release, a text.  For a release without
    description PyGithub delivers [None], on which the [re.sub] of
    [get_data] raises a [TypeError]: such a release is outside of the
    model. *)
Record ApiRelease : Type := {
  tag_name : string;
  api_html_url : string;
  api_body : string;
  api_created_at : string
}.

(** What the script reads from the repository.  A call that can raise a
    [GithubException] carries either its result or the status and data of
    the exception.  [api_contents] is the decoded text of the changelog
    file. *)
Record Api : Type := {
  api_contents : (Z * string) + string;
  api_releases : list ApiRelease;
  api_tags : list (string * string);
  api_branch_commits : (Z * string) + list Commit;
  api_default_commits : (Z * string) + list Commit
}.

(** The constructor arguments the modelled methods read. *)
Record Config : Type := {
  unreleased_commits : bool;
  regenerate_count : Z;
  part_name : list string;
  default_scope : string;
  suppress_unscoped : bool;
  replace_empty_release_info : string
}.

(** The lines the script prints, one constructor per [print] call.  What
    is printed just before an exception leaves [get_data] is not kept: an
    exception carries no output. *)
Inductive LogLine : Type :=
| WarnBadChangelog
    (* [WARN] The changelog is not in the correct format! Will clear the changelog. *)
| WarnBadPart (first_line : string)
    (* [WARN] This part is not in the correct format! Will ignore this part. *)
| InfoRegenerate (regenerate_releases : list string)
    (* [INFO] Regenerate releases: *)
| ErrorContentMessage (data : string)
    (* [ERROR] Failed to get release content, message: *)
| ErrorContentStatus (status_code : string)
    (* [ERROR] Failed to get release content, status code: + str(status_code) *)
| InfoAllGenerated
    (* [INFO] All regenerate_releases are generated *)
| WarnLeft (regenerate_releases : list string)
    (* [WARN] Failed to generate all the releases, left: *).

(** The attributes of a [GithubChangelog] the modelled methods touch,
    and the standard output. *)
Record State : Type := {
  releases : dict Release;
  changelog : string;
  release_in_changelog : dict string;
  file_exists : bool;
  stdout : list LogLine
}.

(** The state [__init__] leaves. *)
Definition init_state : State :=
  {| releases := []; changelog := ""; release_in_changelog := [];
     file_exists := false; stdout := [] |}.

(** ** Existing-changelog parser *)

(** One turn of the loop of [analyze_changelog]. *)
Definition analyze_segment (acc : dict string * list LogLine)
    (release_body : string) : dict string * list LogLine :=
  if startswith release_body "Unreleased" || String.eqb release_body ""
  then acc
  else
    match search_bracket release_body with
    | None =>
        (fst acc,
         (snd acc ++ [WarnBadPart (hd "" (split nl release_body))])%list)
    | Some group =>
        let release_tag := slice 1 1 group in
        (dict_set (fst acc) release_tag ("## " ++ strip_nl release_body),
         snd acc)
    end.

(** [analyze_changelog]: the new value of [self.release_in_changelog] and
    the lines printed. *)
Definition analyze_changelog (changelog : string)
    (release_in_changelog : dict string) : dict string * list LogLine :=
  let segments (body_content : string) :=
    fold_left analyze_segment (split (nl ++ nl ++ "## ") body_content)
      (release_in_changelog, []) in
  if startswith changelog BEGIN_CHANGELOG_TITLE
     && endswith changelog (END_CHANGELOG_SIGNATURE ++ nl)
  then segments (slice (String.length BEGIN_CHANGELOG_TITLE)
                   (String.length (END_CHANGELOG_SIGNATURE ++ nl)) changelog)
  else if negb (String.eqb changelog "")
       then (release_in_changelog, [WarnBadChangelog])
       else segments "".

(** [get_exist_changelog]. *)
Definition get_exist_changelog (api : Api) (st : State) : py State :=
  match api_contents api with
  | inl (status, data) =>
      if (status =? 404)%Z
      then Ok {| releases := releases st; changelog := "";
                 release_in_changelog := release_in_changelog st;
                 file_exists := file_exists st; stdout := stdout st |}
      else Raise (GithubException status data)
  | inr text =>
      let '(ric, out) := analyze_changelog text (release_in_changelog st) in
      Ok {| releases := releases st; changelog := text;
            release_in_changelog := ric; file_exists := true;
            stdout := (stdout st ++ out)%list |}
  end.

(** [get_github_commits]: the commits and the lines printed, of which
    there are none when it returns.  A 404 on the branch leads to a second
    request, on the default branch.  For an empty list the script means to
    raise a 404 of its own, but [github.GithubException] is the class of
    that name, which has no attribute [UnknownObjectException]: the
    [raise] statement ends in an [AttributeError], which the handler of
    [GithubException] does not catch. *)
Definition get_github_commits (api : Api) : py (list Commit * list LogLine) :=
  match api_branch_commits api with
  | inr [] => Raise AttributeError
  | inr commits => Ok (commits, [])
  | inl (status, data) =>
      if (status =? 404)%Z
      then
        match api_default_commits api with
        | inr [] => Raise AttributeError
        | inr commits => Ok (commits, [])
        | inl (status', data') => Raise (GithubException status' data')
        end
      else Raise (GithubException status data)
  end.

(** ** Rendering one release *)

(** The head of a commit message, with the splice that undoes the
    truncation of a long subject. *)
Definition message_head (commit_message : string) : string :=
  let message := split (nl ++ nl) commit_message in
  let message_head := hd "" message in
  if String.eqb (last_n 3 message_head) "..." && (1 <? List.length message)%nat
  then
    if String.eqb (take 3 (nth 1 message "")) "..."
    then replace "  " " "
           (drop_last 3 message_head ++ " "
            ++ drop 3 (hd "" (split nl (nth 1 message ""))))
    else message_head
  else message_head.

Definition pr_link (pull : Pull) : string :=
  " ([#" ++ str_of_Z (number pull) ++ "](" ++ pull_html_url pull ++ "))".

(** The [try] block of [get_release_content]: the loop stops at the first
    commit whose pull requests cannot be resolved. *)
Fixpoint select_commits (commits : list Commit)
    (selected_commits : list SelectedCommit)
    : (Z * string) + list SelectedCommit :=
  match commits with
  | [] => inr selected_commits
  | c :: rest =>
      match commit_pulls c with
      | inl e => inl e
      | inr pulls =>
          select_commits rest
            (selected_commits
             ++ [{| head := message_head (commit_message c);
                    sha := commit_sha c;
                    url := commit_html_url c;
                    pr_links := map pr_link pulls |}])%list
      end
  end.

(** [get_release_content]: the pair [(release_content, status_code)] and
    the lines printed. *)
Definition get_release_content (cfg : Config) (releases : dict Release)
    (release_tag : string) (commits : list Commit)
    : py (string * Z * list LogLine) :=
  match select_commits commits [] with
  | inl (status, data) => Ok ("", status, [ErrorContentMessage data])
  | inr selected_commits =>
      match dict_get releases release_tag with
      | None => Raise (KeyError release_tag)
      | Some meta_data =>
          release_content <-
            generate_release_changelog meta_data selected_commits release_tag
              (part_name cfg) (default_scope cfg) (suppress_unscoped cfg)
              (replace_empty_release_info cfg) ;;
          Ok (release_content, 0%Z, [])
      end
  end.

(** ** Reconciliation *)

(** The list [regenerate_releases] as [get_data] builds it. *)
Definition regenerate_initial (cfg : Config) (release_in_changelog : dict string)
    (api_rels : list ApiRelease) : list string :=
  let regenerate_releases := map tag_name api_rels in
  let regenerate_releases :=
    if (regenerate_count cfg <? 0)%Z then regenerate_releases
    else firstn (Z.to_nat (regenerate_count cfg)) regenerate_releases in
  let regenerate_releases :=
    fold_left
      (fun regen r =>
         if negb (dict_mem release_in_changelog (tag_name r))
            && negb (list_mem (tag_name r) regen)
         then (regen ++ [tag_name r])%list else regen)
      api_rels regenerate_releases in
  if unreleased_commits cfg
  then (regenerate_releases ++ ["Unreleased"])%list
  else regenerate_releases.

Definition unreleased_entry : Release :=
  {| html_url := ""; body := ""; created_at := "";
     release_commit_sha := ""; content := "" |}.

(** [self.releases] after the synthetic entry has been seeded. *)
Definition seed_unreleased (cfg : Config) (releases : dict Release)
    : dict Release :=
  if unreleased_commits cfg then dict_set releases "Unreleased" unreleased_entry
  else releases.

(** [tags_sha]. *)
Definition tags_sha_of (tags : list (string * string)) : dict string :=
  fold_left (fun d t => dict_set d (fst t) (snd t)) tags [].

(** The dictionary stored for a release: the description has its line
    ends normalised and the newlines at its two ends removed. *)
Definition release_entry (r : ApiRelease) (commit_sha content : string)
    : Release :=
  {| html_url := api_html_url r;
     body := strip_nl (replace (cr ++ nl) nl (api_body r));
     created_at := api_created_at r;
     release_commit_sha := commit_sha;
     content := content |}.

(** The loop that fills [self.releases] with the meta data of every
    release. *)
Definition release_meta (tags_sha release_in_changelog : dict string)
    (regenerate_releases : list string) (releases : dict Release)
    (release : ApiRelease) : dict Release :=
  let commit_sha :=
    match dict_get tags_sha (tag_name release) with
    | Some s => s
    | None => ""
    end in
  let release_content :=
    match dict_get release_in_changelog (tag_name release) with
    | Some block =>
        if negb (list_mem (tag_name release) regenerate_releases) then block
        else ""
    | None => ""
    end in
  dict_set releases (tag_name release)
    (release_entry release commit_sha release_content).

(** [release_commit_sha_list]: a later release replaces an earlier one
    with the same commit. *)
Definition release_commit_sha_list_of (releases : dict Release) : dict string :=
  fold_left (fun d x => dict_set d (release_commit_sha (snd x)) (fst x))
    releases [].

(** The local variables of [get_data] that change while the commits are
    walked, with [self.releases] and the standard output. *)
Record Walk : Type := {
  cur_release : string;
  selected_commits : list Commit;
  regenerate_releases : list string;
  walk_releases : dict Release;
  walk_out : list LogLine
}.

(** [self.releases[tag]['content'] = c]. *)
Definition store_content (releases : dict Release) (tag c : string)
    : py (dict Release) :=
  match dict_get releases tag with
  | None => Raise (KeyError tag)
  | Some r => Ok (dict_set releases tag (set_content r c))
  end.

Definition failed (status_code : Z) : bool :=
  negb (status_code =? 0)%Z && negb (status_code =? 200)%Z.

(** The [for commit in commits] loop of [get_data]; a [break] returns the
    state without looking at the commits that are left. *)
Fixpoint walk_commits (cfg : Config) (release_commit_sha_list : dict string)
    (commits : list Commit) (w : Walk) : py Walk :=
  match commits with
  | [] => Ok w
  | c :: rest =>
      match dict_get release_commit_sha_list (commit_sha c) with
      | Some next =>
          if list_mem (cur_release w) (regenerate_releases w)
          then
            r <- get_release_content cfg (walk_releases w) (cur_release w)
                   (selected_commits w) ;;
            let '(release_content, status_code, out) := r in
            if failed status_code
            then
              Ok {| cur_release := cur_release w;
                    selected_commits := [];
                    regenerate_releases := regenerate_releases w;
                    walk_releases := walk_releases w;
                    walk_out :=
                      (walk_out w ++ out
                       ++ [ErrorContentStatus (str_of_Z status_code)])%list |}
            else
              releases' <- store_content (walk_releases w) (cur_release w)
                             release_content ;;
              let regen' := list_remove (cur_release w) (regenerate_releases w) in
              if (List.length regen' <=? 0)%nat
              then
                Ok {| cur_release := next;
                      selected_commits := [];
                      regenerate_releases := regen';
                      walk_releases := releases';
                      walk_out := (walk_out w ++ out ++ [InfoAllGenerated])%list |}
              else
                walk_commits cfg release_commit_sha_list rest
                  {| cur_release := next;
                     selected_commits := [c];
                     regenerate_releases := regen';
                     walk_releases := releases';
                     walk_out := (walk_out w ++ out)%list |}
          else
            walk_commits cfg release_commit_sha_list rest
              {| cur_release := next;
                 selected_commits := [c];
                 regenerate_releases := regenerate_releases w;
                 walk_releases := walk_releases w;
                 walk_out := walk_out w |}
      | None =>
          walk_commits cfg release_commit_sha_list rest
            {| cur_release := cur_release w;
               selected_commits := (selected_commits w ++ [c])%list;
               regenerate_releases := regenerate_releases w;
               walk_releases := walk_releases w;
               walk_out := walk_out w |}
      end
  end.

(** What [get_data] does after the loop: the bucket that is still open is
    rendered when its release is eligible, and the releases that are left
    are reported. *)
Definition finish_walk (cfg : Config) (w : Walk) : py Walk :=
  w1 <-
    (if (0 <? List.length (selected_commits w))%nat
        && list_mem (cur_release w) (regenerate_releases w)
     then
       r <- get_release_content cfg (walk_releases w) (cur_release w)
              (selected_commits w) ;;
       let '(release_content, status_code, out) := r in
       if failed status_code
       then
         Ok {| cur_release := cur_release w;
               selected_commits := [];
               regenerate_releases := regenerate_releases w;
               walk_releases := walk_releases w;
               walk_out :=
                 (walk_out w ++ out
                  ++ [ErrorContentStatus (str_of_Z status_code)])%list |}
       else
         releases' <- store_content (walk_releases w) (cur_release w)
                        release_content ;;
         Ok {| cur_release := cur_release w;
               selected_commits := selected_commits w;
               regenerate_releases :=
                 list_remove (cur_release w) (regenerate_releases w);
               walk_releases := releases';
               walk_out := (walk_out w ++ out)%list |}
     else Ok w) ;;
  if (0 <? List.length (regenerate_releases w1))%nat
  then
    Ok {| cur_release := cur_release w1;
          selected_commits := selected_commits w1;
          regenerate_releases := regenerate_releases w1;
          walk_releases := walk_releases w1;
          walk_out := (walk_out w1 ++ [WarnLeft (regenerate_releases w1)])%list |}
  else Ok w1.

(** The state in which the walk over the commits starts. *)
Definition start_walk (cfg : Config) (api : Api) (st : State) : Walk :=
  let regen := regenerate_initial cfg (release_in_changelog st)
                 (api_releases api) in
  let tags_sha := tags_sha_of (api_tags api) in
  {| cur_release := "Unreleased";
     selected_commits := [];
     regenerate_releases := regen;
     walk_releases :=
       fold_left (release_meta tags_sha (release_in_changelog st) regen)
         (api_releases api) (seed_unreleased cfg (releases st));
     walk_out := (stdout st ++ [InfoRegenerate regen])%list |}.

(** [get_data], up to its last line: the final values of the local
    variables, of [self.releases] and of the standard output. *)
Definition reconcile (cfg : Config) (api : Api) (st : State) : py Walk :=
  let w := start_walk cfg api st in
  cl <- get_github_commits api ;;
  let '(commits, out) := cl in
  let w := {| cur_release := cur_release w;
              selected_commits := selected_commits w;
              regenerate_releases := regenerate_releases w;
              walk_releases := walk_releases w;
              walk_out := (walk_out w ++ out)%list |} in
  w1 <-
    (if (0 <? List.length (regenerate_releases w))%nat
     then walk_commits cfg (release_commit_sha_list_of (walk_releases w))
            commits w
     else Ok w) ;;
  finish_walk cfg w1.

Definition get_data (cfg : Config) (api : Api) (st : State) : py State :=
  st1 <- get_exist_changelog api st ;;
  w <- reconcile cfg api st1 ;;
  Ok {| releases := walk_releases w;
        changelog := changelog st1;
        release_in_changelog := release_in_changelog st1;
        file_exists := file_exists st1;
        stdout := walk_out w |}.

(** ** Changelog assembler *)

Definition assemble_changelog (releases : dict Release) : string :=
  fold_left
    (fun changelog release =>
       if negb (String.eqb (content release) "")
       then changelog ++ nl ++ nl ++ strip_nl (content release)
       else changelog)
    (dict_values releases) BEGIN_CHANGELOG_TITLE
  ++ nl ++ nl ++ END_CHANGELOG_SIGNATURE ++ nl.

(** [main] in local mode: [get_data] on a fresh object, then
    [assemble_changelog]. *)
Definition main_local (cfg : Config) (api : Api) : py string :=
  st <- get_data cfg api init_state ;;
  Ok (assemble_changelog (releases st)).

(** ** Vocabulary of the statements *)

(** A string is blank when it holds newlines only. *)
Fixpoint blank (s : string) : bool :=
  match s with
  | "" => true
  | String c s' => is_nl c && blank s'
  end.

(** [sep in s]. *)
Fixpoint contains (sep s : string) : bool :=
  prefix sep s
  || match s with
     | "" => false
     | String _ s' => contains sep s'
     end.

(** [c in s] for a character. *)
Fixpoint has_char (c : ascii) (s : string) : bool :=
  match s with
  | "" => false
  | String d s' => Ascii.eqb d c || has_char c s'
  end.

(** No occurrence of [sep] in [a ++ t] starts inside [a]. *)
Fixpoint no_occ_before (sep a t : string) : bool :=
  match a with
  | "" => true
  | String _ a' => negb (prefix sep (a ++ t)) && no_occ_before sep a' t
  end.

(** Prepend a string to the first element of a list of pieces. *)
Definition app_head (a : string) (l : list string) : list string :=
  match l with
  | [] => [a]
  | h :: r => (a ++ h) :: r
  end.

(** No newline in [s]; no closing bracket and no newline in [s]. *)
Fixpoint no_newline (s : string) : bool :=
  match s with
  | "" => true
  | String c s' => negb (is_nl c) && no_newline s'
  end.

Fixpoint no_close (s : string) : bool :=
  match s with
  | "" => true
  | String c s' => negb (is_char c "]") && negb (is_nl c) && no_close s'
  end.

(** The first line of a text: [s.split('\n')[0]]. *)
Definition first_line (s : string) : string := hd "" (split nl s).

(** The prefixes of a head that ['^' + T + '(?:[(](.+?)[)])?'] can match
    when it is followed by more of a pattern: the type alone, or the type
    and a parenthesised group that is not empty and stays on one line. *)
Inductive type_prefix (T : string) : string -> Prop :=
| type_prefix_bare : type_prefix T T
| type_prefix_scoped (s : string) :
    s <> "" -> no_newline s = true ->
    type_prefix T (T ++ "(" ++ s ++ ")").

(** Some such prefix of the head is followed by [\s?:]. *)
Definition colon_follows (T head : string) : Prop :=
  exists p r, head = p ++ r /\ type_prefix T p /\ colon_sep r <> None.

(** The two rules of [strip_commits] that discard a matching commit. *)
Definition dropped (type_regex default_scope : string)
    (suppress_unscoped : bool) (scope0 : string) : bool :=
  (String.eqb scope0 "" && suppress_unscoped)
  || (String.eqb (lower (if String.eqb scope0 "" then default_scope else scope0))
        "changelog"
      && String.eqb (type_regex_full type_regex) "^docs(?:[(](.+?)[)])?").

(** The fragments of a description that survive: each one without the
    newlines at its two ends, the empty ones left out. *)
Definition fragments (l : list string) : list string :=
  filter (fun f => negb (String.eqb f "")) (map strip_nl l).

(** The strings of a list are pairwise different. *)
Fixpoint distinct (l : list string) : bool :=
  match l with
  | [] => true
  | x :: l' => negb (list_mem x l') && distinct l'
  end.

(** Every release that is still to be rendered holds an empty content. *)
Definition blank_eligible (w : Walk) : Prop :=
  forall (t : string) (r : Release),
    In t (regenerate_releases w) ->
    dict_get (walk_releases w) t = Some r ->
    content r = "".

(** The state a failed rendering leaves: the bucket is dropped and two
    lines are printed, the data of the exception and its status. *)
Definition aborted (w : Walk) (status : Z) (data : string) : Walk :=
  {| cur_release := cur_release w;
     selected_commits := [];
     regenerate_releases := regenerate_releases w;
     walk_releases := walk_releases w;
     walk_out :=
       (walk_out w
        ++ [ErrorContentMessage data; ErrorContentStatus (str_of_Z status)])%list
  |}.

(** The last line of [get_data]: the releases that were not rendered are
    reported. *)
Definition reported (w : Walk) : Walk :=
  {| cur_release := cur_release w;
     selected_commits := selected_commits w;
     regenerate_releases := regenerate_releases w;
     walk_releases := walk_releases w;
     walk_out := (walk_out w ++ [WarnLeft (regenerate_releases w)])%list |}.

(** Concatenation of a list of strings. *)
Definition cat (l : list string) : string := fold_right String.append "" l.

(** ** Vocabulary of the round trip *)

(** The separator on which [analyze_changelog] cuts the document. *)
Definition RELEASE_SEP : string := nl ++ nl ++ "## ".

(** A content that the assembler writes and the parser reads back: it is
    empty, or, once stripped, it opens with [## Unreleased] or with
    [## [tag]] for the tag under which it is stored (a tag without
    closing bracket or newline), and what follows the first three
    characters holds no further separator. *)
Definition block_ok (tag c : string) : bool :=
  String.eqb c ""
  || (let b := strip_nl c in
      prefix "## " b
      && negb (contains RELEASE_SEP (drop 3 b))
      && (prefix "Unreleased" (drop 3 b)
          || (prefix ("[" ++ tag ++ "]") (drop 3 b) && no_close tag))).

(** The block of the synthetic release, which the parser never stores. *)
Definition unreleased_block (c : string) : bool :=
  prefix "## Unreleased" (strip_nl c).

(** What the parser is expected to store for a dictionary of releases. *)
Definition stored_blocks (rels : dict Release) : dict string :=
  map (fun e => (fst e, strip_nl (content (snd e))))
    (filter (fun e => negb (String.eqb (content (snd e)) "")
                      && negb (unreleased_block (content (snd e))))
       rels).

(** The releases of a later run in which nothing is rendered: each one
    holds the block the parser stored for it. *)
Definition blocks_as_releases (m : dict string) : dict Release :=
  map (fun e => (fst e, set_content unreleased_entry (snd e))) m.

(** What the assembler writes for one content. *)
Definition block_text (c : string) : string :=
  if String.eqb c "" then "" else nl ++ nl ++ strip_nl c.

(** A content without its newlines at the ends and its leading [## ]. *)
Definition segment (c : string) : string := drop 3 (strip_nl c).

(** The pieces [split] finds in the body of a document that holds the
    given segments: the last one carries the blank line that precedes the
    signature. *)
Fixpoint tail_segments (segs : list string) : list string :=
  match segs with
  | [] => []
  | [s] => [s ++ nl ++ nl]
  | s :: rest => s :: tail_segments rest
  end.

(** ** Example data

    The example of the specification made concrete: two releases, [v1]
    tagged at the third commit and [v0] tagged at the first one, four
    commits from the newest to the oldest, and an existing changelog that
    holds [v0]. *)

Module Sample.

Definition mk_commit (s m : string) (p : (Z * string) + list Pull) : Commit :=
  {| commit_sha := s; commit_message := m;
     commit_html_url := "https://example.org/c/" ++ s; commit_pulls := p |}.

Definition c4 : Commit :=
  mk_commit "c4c4c4c4c4" "feat: four"
    (inr [{| number := 7; pull_html_url := "https://example.org/p/7" |}]).
Definition c3 : Commit := mk_commit "c3c3c3c3c3" "fix(core): three" (inr []).
Definition c2 : Commit := mk_commit "c2c2c2c2c2" "feat(ui): two" (inr []).
Definition c1 : Commit := mk_commit "c1c1c1c1c1" "feat: one" (inr []).

Definition rel1 : ApiRelease :=
  {| tag_name := "v1"; api_html_url := "https://example.org/r/v1";
     api_body := "Notes"; api_created_at := "2021-12-29" |}.
Definition rel0 : ApiRelease :=
  {| tag_name := "v0"; api_html_url := "https://example.org/r/v0";
     api_body := ""; api_created_at := "2020-08-06" |}.

Definition tags : list (string * string) :=
  [("v1", "c3c3c3c3c3"); ("v0", "c1c1c1c1c1")].

Definition prior_v0 : string :=
  "## [v0](https://example.org/r/v0) - 2020-08-06" ++ nl ++ nl
  ++ "first release".

Definition prior : string :=
  BEGIN_CHANGELOG_TITLE ++ nl ++ nl ++ prior_v0 ++ nl ++ nl
  ++ END_CHANGELOG_SIGNATURE ++ nl.

Definition prior_state : State :=
  {| releases := []; changelog := prior;
     release_in_changelog := [("v0", prior_v0)];
     file_exists := true; stdout := [] |}.

Definition cfg (count : Z) : Config :=
  {| unreleased_commits := true; regenerate_count := count;
     part_name := ["feat:Feature"; "fix:Fix"]; default_scope := "general";
     suppress_unscoped := false; replace_empty_release_info := "" |}.

Definition api : Api :=
  {| api_contents := inr prior; api_releases := [rel1; rel0];
     api_tags := tags; api_branch_commits := inr [c4; c3; c2; c1];
     api_default_commits := inr [] |}.

Definition s4 : list SelectedCommit :=
  [{| head := "feat: four"; sha := "c4c4c4c4c4";
      url := "https://example.org/c/c4c4c4c4c4";
      pr_links := [" ([#7](https://example.org/p/7))"] |}].
Definition s32 : list SelectedCommit :=
  [{| head := "fix(core): three"; sha := "c3c3c3c3c3";
      url := "https://example.org/c/c3c3c3c3c3"; pr_links := [] |};
   {| head := "feat(ui): two"; sha := "c2c2c2c2c2";
      url := "https://example.org/c/c2c2c2c2c2"; pr_links := [] |}].
Definition s1 : list SelectedCommit :=
  [{| head := "feat: one"; sha := "c1c1c1c1c1";
      url := "https://example.org/c/c1c1c1c1c1"; pr_links := [] |}].

Definition block_unreleased : string :=
  "## Unreleased" ++ nl ++ nl ++ "### Feature" ++ nl ++ nl
  ++ "- general:" ++ nl
  ++ "  - four ([c4c4c4c](https://example.org/c/c4c4c4c4c4)) ([#7](https://example.org/p/7))".

Definition block_v1 : string :=
  "## [v1](https://example.org/r/v1) - 2021-12-29" ++ nl ++ nl
  ++ "Notes" ++ nl ++ nl
  ++ "### Feature" ++ nl ++ nl
  ++ "- ui:" ++ nl
  ++ "  - two ([c2c2c2c](https://example.org/c/c2c2c2c2c2))" ++ nl ++ nl
  ++ "### Fix" ++ nl ++ nl
  ++ "- core:" ++ nl
  ++ "  - three ([c3c3c3c](https://example.org/c/c3c3c3c3c3))".

Definition block_v0 : string :=
  "## [v0](https://example.org/r/v0) - 2020-08-06" ++ nl ++ nl
  ++ "### Feature" ++ nl ++ nl
  ++ "- general:" ++ nl
  ++ "  - one ([c1c1c1c](https://example.org/c/c1c1c1c1c1))".

(** A run in which the hosting API refuses to resolve pull requests: one
    release, [v0], present in the existing changelog and eligible. *)
Definition c1_refused : Commit :=
  mk_commit "c1c1c1c1c1" "feat: one" (inl (403%Z, "rate limit exceeded")).

Definition cfg_refused : Config :=
  {| unreleased_commits := false; regenerate_count := 1;
     part_name := ["feat:Feature"; "fix:Fix"]; default_scope := "general";
     suppress_unscoped := false; replace_empty_release_info := "" |}.

Definition api_refused : Api :=
  {| api_contents := inr prior; api_releases := [rel0];
     api_tags := tags; api_branch_commits := inr [c1_refused];
     api_default_commits := inr [] |}.

(** The walk of that run when the commits are exhausted. *)
Definition walk_refused : Walk :=
  {| cur_release := "v0";
     selected_commits := [c1_refused];
     regenerate_releases := ["v0"];
     walk_releases := [("v0", release_entry rel0 "c1c1c1c1c1" "")];
     walk_out := [InfoRegenerate ["v0"]] |}.

(** A run over one release whose description holds a second-level
    heading of its own. *)
Definition rel_notes : ApiRelease :=
  {| tag_name := "v1"; api_html_url := "https://example.org/r/v1";
     api_body := "Intro" ++ nl ++ nl ++ "## Notes" ++ nl ++ nl ++ "more";
     api_created_at := "2021-12-29" |}.

Definition cfg_notes : Config :=
  {| unreleased_commits := false; regenerate_count := (-1)%Z;
     part_name := ["feat:Feature"; "fix:Fix"]; default_scope := "general";
     suppress_unscoped := false; replace_empty_release_info := "" |}.

Definition api_notes : Api :=
  {| api_contents := inl (404%Z, "Not Found"); api_releases := [rel_notes];
     api_tags := [("v1", "c1c1c1c1c1")];
     api_branch_commits :=
       inr [mk_commit "c1c1c1c1c1" "chore: tidy" (inr [])];
     api_default_commits := inr [] |}.

Definition doc_notes : string :=
  BEGIN_CHANGELOG_TITLE ++ nl ++ nl
  ++ "## [v1](https://example.org/r/v1) - 2021-12-29" ++ nl ++ nl
  ++ "Intro" ++ nl ++ nl ++ "## Notes" ++ nl ++ nl ++ "more" ++ nl ++ nl
  ++ END_CHANGELOG_SIGNATURE ++ nl.

End Sample.

(** ** Vocabulary of the renderers *)

(** The scope under which [strip_commits] files a commit: none when the
    head does not match the type, or when one of the two rules discards
    the commit. *)
Definition scope_of (type_regex default_scope : string)
    (suppress_unscoped : bool) (c : SelectedCommit) : option string :=
  match match_type type_regex (head c) with
  | None => None
  | Some scope0 =>
      if dropped type_regex default_scope suppress_unscoped scope0 then None
      else Some (if String.eqb scope0 "" then default_scope else scope0)
  end.

(** The commit is filed under the scope [k]. *)
Definition in_scope (type_regex default_scope : string)
    (suppress_unscoped : bool) (k : string) (c : SelectedCommit) : bool :=
  match scope_of type_regex default_scope suppress_unscoped c with
  | Some k' => String.eqb k' k
  | None => false
  end.

(** The scopes of the commits that are kept, one per commit, in the order
    of the commits. *)
Definition scopes_of (type_regex default_scope : string)
    (suppress_unscoped : bool) (cs : list SelectedCommit) : list string :=
  flat_map
    (fun c =>
       match scope_of type_regex default_scope suppress_unscoped c with
       | Some k => [k]
       | None => []
       end) cs.

(** The entry [strip_commits] stores for a commit it keeps. *)
Definition scoped (type_regex : string) (c : SelectedCommit) : ScopedCommit :=
  {| subject := sub_type_colon type_regex (head c); commit := c |}.

(** The strings of a list, each one where it occurs first. *)
Definition first_seen (l : list string) : list string :=
  fold_left (fun acc x => if list_mem x acc then acc else (acc ++ [x])%list)
    l [].

(** The number of occurrences of a character. *)
Fixpoint count_char (c : ascii) (s : string) : nat :=
  match s with
  | "" => 0
  | String d s' => (if Ascii.eqb d c then 1 else 0) + count_char c s'
  end.

(** The commit can be rendered: its pull requests are delivered. *)
Definition resolved (c : Commit) : bool :=
  match commit_pulls c with
  | inr _ => true
  | inl _ => false
  end.

(** The dictionary [get_release_content] builds for a commit whose pull
    requests are delivered. *)
Definition selected_of (c : Commit) : SelectedCommit :=
  {| head := message_head (commit_message c);
     sha := commit_sha c;
     url := commit_html_url c;
     pr_links :=
       match commit_pulls c with
       | inr pulls => map pr_link pulls
       | inl _ => []
       end |}.

(** ** Writing the changelog

    [write_data] talks to the repository and prints as it goes.  A run is
    the list of what it printed and requested, in order, with the
    exception that left it, if any. *)

(** The attributes of a [GithubChangelog] that only [write_data] reads.
    [file_sha] is [self.sha] and [self_commit_message] is
    [self.commit_message], a name the commits have taken; [branch] is
    [None] for PyGithub's [NotSet], and so is [author]. *)
Record Self : Type := {
  path : string;
  file_sha : string;
  branch : option string;
  pull_request : string;
  self_commit_message : string;
  author : option (string * string)
}.

(** What the repository answers to the requests of [write_data]: the
    result of a request, or the status and data of the [GithubException]
    it raises.  [create_file] is requested at most twice in a run, before
    and after the branch has been created, and the two answers are kept
    apart; [contents_path] and [contents_sha] belong to the answer
    [get_exist_changelog] got for the changelog file. *)
Record WriteApi : Type := {
  contents_path : string;
  contents_sha : string;
  update_file : (Z * string) + unit;
  create_file : (Z * string) + unit;
  get_branch : (Z * string) + string;
  create_git_ref : (Z * string) + unit;
  contents_on_new_ref : (Z * string) + string;
  create_file_on_new_ref : (Z * string) + unit;
  create_pull : (Z * string) + unit
}.

(** The requests, with their arguments.  [CreateGitRef b s] stands for
    the reference [refs/heads/b]. *)
Inductive Request : Type :=
| UpdateFile (path commit_message content sha : string)
    (branch : option string) (author : option (string * string))
| CreateFile (path commit_message content : string)
    (branch : option string) (author : option (string * string))
| GetBranch (name : string)
| CreateGitRef (branch : option string) (sha : string)
| GetContents (path : string) (branch : option string)
| CreatePull (title body base : string) (head : option string).

(** The lines [write_data] prints, one constructor per [print] call. *)
Inductive WriteLine : Type :=
| WarnSame
    (* [WARN] Same changelog. Not push. *)
| InfoUpdate
    (* [INFO] Update changelog *)
| Shown (text : string)
    (* print(self.path), print(self.commit_message), print(changelog),
       print(self.sha) *)
| ShownBranch (branch : option string)
    (* print(self.branch) *)
| ShownAuthor (author : option (string * string))
    (* print(self.author) *)
| InfoCreate
    (* [INFO] Create changelog. *)
| InfoBranches (branch : option string) (pull_request : string)
    (* [INFO] BRANCH: ..., PULL_REQUEST: ... *)
| InfoPull (branch : option string) (pull_request : string)
    (* [INFO] Create pull request from ... to ... *).

(** An event of a run: a line, or a request with the exception it met. *)
Inductive Event : Type :=
| Printed (line : WriteLine)
| Requested (r : Request) (refused : option (Z * string)).

(** A computation that prints and requests: its events and its result. *)
Definition io (A : Type) : Type := list Event * py A.

Definition io_ret {A} (a : A) : io A := ([], Ok a).

Definition io_bind {A B} (m : io A) (k : A -> io B) : io B :=
  match m with
  | (t, Ok a) => let '(t', r) := k a in ((t ++ t')%list, r)
  | (t, Raise e) => (t, Raise e)
  end.

Notation "x <~ m ;; k" := (io_bind m (fun x => k))
  (at level 61, m at next level, right associativity).
Notation "m ;;; k" := (io_bind m (fun _ => k))
  (at level 61, right associativity).

Definition say (line : WriteLine) : io unit := ([Printed line], Ok tt).

Definition io_raise {A} (e : PyExn) : io A := ([], Raise e).

Definition request {A} (r : Request) (answer : (Z * string) + A) : io A :=
  match answer with
  | inl (status, data) =>
      ([Requested r (Some (status, data))],
       Raise (GithubException status data))
  | inr a => ([Requested r None], Ok a)
  end.

(** [try: m  except github.GithubException as e: handler  else: els]. *)
Definition io_try {A B} (m : io A) (handler : Z -> string -> io B)
    (els : A -> io B) : io B :=
  match m with
  | (t, Ok a) => let '(t', r) := els a in ((t ++ t')%list, r)
  | (t, Raise (GithubException status data)) =>
      let '(t', r) := handler status data in ((t ++ t')%list, r)
  | (t, Raise e) => (t, Raise e)
  end.

(** [self.pull_request != self.branch]: a name never equals [NotSet]. *)
Definition differs (pull_request : string) (branch : option string) : bool :=
  match branch with
  | Some b => negb (String.eqb pull_request b)
  | None => true
  end.

(** [write_data]: the run, and the value [self.sha] holds at the end. *)
Definition write_data (self : Self) (api : WriteApi) (st : State)
    : io string :=
  let new_changelog := assemble_changelog (releases st) in
  if String.eqb new_changelog (changelog st)
  then say WarnSame ;;; io_ret (file_sha self)
  else
    sha' <~
      (if file_exists st
       then
         say InfoUpdate ;;;
         say (Shown (path self)) ;;;
         say (Shown (self_commit_message self)) ;;;
         say (Shown new_changelog) ;;;
         say (Shown (file_sha self)) ;;;
         say (ShownBranch (branch self)) ;;;
         say (ShownAuthor (author self)) ;;;
         request (UpdateFile (path self) (self_commit_message self) new_changelog
                    (file_sha self) (branch self) (author self))
           (update_file api) ;;;
         io_ret (file_sha self)
       else
         say InfoCreate ;;;
         io_try
           (request (CreateFile (path self) (self_commit_message self)
                       new_changelog (branch self) (author self))
              (create_file api))
           (fun status data =>
              if (status =? 404)%Z
              then
                new_sha <~ request (GetBranch (pull_request self))
                             (get_branch api) ;;
                request (CreateGitRef (branch self) new_sha)
                  (create_git_ref api) ;;;
                io_try
                  (request (GetContents (path self) (branch self))
                     (contents_on_new_ref api))
                  (fun status data =>
                     if (status =? 404)%Z
                     then
                       request (CreateFile (path self) (self_commit_message self)
                                  new_changelog (branch self) (author self))
                         (create_file_on_new_ref api) ;;;
                       io_ret (file_sha self)
                     else io_raise (GithubException status data))
                  (fun sha =>
                     request (UpdateFile (path self) (self_commit_message self)
                                new_changelog sha (branch self) (author self))
                       (update_file api) ;;;
                     io_ret sha)
              else io_raise (GithubException status data))
           (fun _ => io_ret (file_sha self))) ;;
    say (InfoBranches (branch self) (pull_request self)) ;;;
    if negb (String.eqb (pull_request self) "")
       && differs (pull_request self) (branch self)
    then
      say (InfoPull (branch self) (pull_request self)) ;;;
      request (CreatePull (self_commit_message self) (self_commit_message self)
                 (pull_request self) (branch self))
        (create_pull api) ;;;
      io_ret sha'
    else io_ret sha'.

(** The inputs of the action [write_data] depends on, as [main] reads
    them; an empty [BRANCH] becomes [NotSet]. *)
Record Inputs : Type := {
  input_path : string;
  input_branch : string;
  input_pull_request : string;
  input_commit_message : string
}.

(** [self.author] as [__init__] computes it: [NotSet] for an empty
    committer, else the author made of [committer.split(' ')[0]] and
    [committer.split(' ')[1]].  The outer [None] is the [IndexError] of a
    committer that is not empty and holds no space. *)
Definition author_of (committer : string)
    : option (option (string * string)) :=
  if String.eqb committer "" then Some None
  else
    match split " " committer with
    | name :: email :: _ => Some (Some (name, email))
    | _ => None
    end.

(** The attributes when [write_data] is called: [get_exist_changelog]
    has replaced the path and the sha by those of the file it found. *)
Definition self_of (inputs : Inputs) (author : option (string * string))
    (api : Api) (wapi : WriteApi) : Self :=
  let found :=
    match api_contents api with
    | inr _ => true
    | inl _ => false
    end in
  {| path := if found then contents_path wapi else input_path inputs;
     file_sha := if found then contents_sha wapi else "";
     branch := if String.eqb (input_branch inputs) "" then None
               else Some (input_branch inputs);
     pull_request := input_pull_request inputs;
     self_commit_message := input_commit_message inputs;
     author := author |}.

(** [main] in the mode [github], once the inputs are read and the object
    is built: [get_data], then [write_data].  The run holds the events of
    [write_data]; an exception of [get_data] ends it before any of
    them. *)
Definition main_github (cfg : Config) (inputs : Inputs)
    (author : option (string * string)) (api : Api) (wapi : WriteApi)
    : io string :=
  match get_data cfg api init_state with
  | Raise e => io_raise e
  | Ok st => write_data (self_of inputs author api wapi) wapi st
  end.

(** ** Vocabulary of the reconciliation *)

(** Every release that is still to be rendered is a key of
    [self.releases]. *)
Definition covered (w : Walk) : Prop :=
  forall t : string,
    In t (regenerate_releases w) -> dict_get (walk_releases w) t <> None.

(** The commit a release is tagged at, as [get_data] records it: the
    empty string when no tag bears the name of the release. *)
Definition tagged_commit (api : Api) (t : string) : string :=
  match dict_get (tags_sha_of (api_tags api)) t with
  | Some s => s
  | None => ""
  end.

(** A part of the [TYPE] input that [generate_release_body] cannot
    unpack. *)
Definition bad_part (part : string) : Prop := count_char ":" part <> 1.

(** The types of the [TYPE] input are plain keywords: every part that
    [generate_release_body] can unpack has a [keyword] before its
    colon. *)
Definition keyword_types (part_name : list string) : Prop :=
  forall part type_regex name : string,
    In part part_name ->
    unpack_part part = Ok (type_regex, name) ->
    keyword type_regex = true.

(** The release [t] has been rendered: its content in [rels] is the one
    [get_release_content] returns for it on some of the commits [all],
    with a status that is no failure. *)
Definition rendered_from (cfg : Config) (all : list Commit)
    (rels : dict Release) (t : string) : Prop :=
  exists (r : Release) (sel : list Commit) (status : Z) (out : list LogLine),
    dict_get rels t = Some r
    /\ (forall c, In c sel -> In c all)
    /\ get_release_content cfg rels t sel = Ok (content r, status, out)
    /\ failed status = false.

(** The dictionary the loop over the releases stores for a release. *)
Definition meta_entry (tags_sha release_in_changelog : dict string)
    (regenerate_releases : list string) (release : ApiRelease) : Release :=
  release_entry release
    match dict_get tags_sha (tag_name release) with
    | Some s => s
    | None => ""
    end
    match dict_get release_in_changelog (tag_name release) with
    | Some block =>
        if negb (list_mem (tag_name release) regenerate_releases) then block
        else ""
    | None => ""
    end.

(** ** Vocabulary of the runs *)

(** The contents a run has written: those of the requests to update or
    to create the file that met no exception, in order. *)
Definition written (run : list Event) : list string :=
  flat_map
    (fun e =>
       match e with
       | Requested (UpdateFile _ _ content _ _ _) None => [content]
       | Requested (CreateFile _ _ content _ _) None => [content]
       | _ => []
       end) run.

(** The requests of a run, with or without exception, in order. *)
Definition requests (run : list Event) : list Request :=
  flat_map
    (fun e =>
       match e with
       | Requested r _ => [r]
       | Printed _ => []
       end) run.

(** ** The [TYPE] input *)

(** The match of [\s?,\s?] at the start of [s]: its length. *)
Definition comma_sep (s : string) : option nat :=
  let after_comma (t : string) : nat :=
    match t with
    | String d _ => if is_space d then 1 else 0
    | "" => 0
    end in
  match s with
  | "" => None
  | String c s' =>
      if is_char c "," then Some (1 + after_comma s')
      else if is_space c
           then match s' with
                | String d s'' =>
                    if is_char d "," then Some (2 + after_comma s'') else None
                | "" => None
                end
           else None
  end.

(** [re.split(r'\s?,\s?', s)], as [main] applies it to the [TYPE] input:
    the matches are taken leftmost first and do not overlap.  [skip]
    counts the characters of a match that is still being consumed. *)
Fixpoint split_types_go (skip : nat) (s : string) : list string :=
  match s with
  | "" => [""]
  | String c s' =>
      match skip with
      | S k => split_types_go k s'
      | O =>
          match comma_sep s with
          | Some n => "" :: split_types_go (n - 1) s'
          | None => cons_head c (split_types_go 0 s')
          end
      end
  end.

Definition split_types (s : string) : list string := split_types_go 0 s.

(** The first character, or the last one, is a whitespace. *)
Definition starts_with_space (s : string) : bool :=
  match s with
  | String c _ => is_space c
  | "" => false
  end.

Fixpoint ends_with_space (s : string) : bool :=
  match s with
  | "" => false
  | String c "" => is_space c
  | String _ s' => ends_with_space s'
  end.

(** An item of a list separated by commas: no comma in it and no
    whitespace at its two ends. *)
Definition trimmed_item (s : string) : bool :=
  negb (has_char "," s) && negb (starts_with_space s)
  && negb (ends_with_space s).

(** The state of a walk without the lines that were printed. *)
Definition core (w : Walk)
    : string * list Commit * list string * dict Release :=
  (cur_release w, selected_commits w, regenerate_releases w, walk_releases w).

(** ** Vocabulary of the buckets *)

(** The buckets of a walk that starts at the release [cur] with the
    commits [acc] in hand: the commit list is cut before every commit at
    which a release is tagged, and each piece goes with the release that
    is current while it is walked.  The last piece is left out when it is
    empty. *)
Fixpoint buckets (sl : dict string) (commits : list Commit) (cur : string)
    (acc : list Commit) : list (string * list Commit) :=
  match commits with
  | [] =>
      match acc with
      | [] => []
      | _ => [(cur, acc)]
      end
  | c :: rest =>
      match dict_get sl (commit_sha c) with
      | Some next => (cur, acc) :: buckets sl rest next [c]
      | None => buckets sl rest cur (acc ++ [c])%list
      end
  end.

(** The content of a release rendered from the commits of a bucket. *)
Definition rendered (cfg : Config) (meta_data : Release)
    (release_tag : string) (bucket : list Commit) : string :=
  match generate_release_changelog meta_data (map selected_of bucket)
          release_tag (part_name cfg) (default_scope cfg)
          (suppress_unscoped cfg) (replace_empty_release_info cfg) with
  | Ok c => c
  | Raise _ => ""
  end.

(** What a bucket does to the releases still to render and to
    [self.releases]: the release of the bucket, when it is still to
    render, gets the rendering of the bucket and is crossed out. *)
Definition bucket_step (cfg : Config) (state : list string * dict Release)
    (b : string * list Commit) : list string * dict Release :=
  if list_mem (fst b) (fst state)
  then
    match dict_get (snd state) (fst b) with
    | Some r =>
        (list_remove (fst b) (fst state),
         dict_set (snd state) (fst b)
           (set_content r (rendered cfg r (fst b) (snd b))))
    | None => state
    end
  else state.

(** ** Vocabulary of the generated blocks *)

(** A line that begins like the heading of a release. *)
Definition HEADING : string := nl ++ "## ".

(** A text made of whole lines, none of which begins like the heading of
    a release: whatever follows it stands at the start of a line. *)
Definition closed_lines (x : string) : Prop :=
  forall rest : string,
    contains HEADING (x ++ rest) = prefix "## " rest || contains HEADING rest.

(** A text that does not begin like the heading of a release, whatever
    follows it. *)
Definition plain_start (x : string) : Prop :=
  forall rest : string, prefix "## " (x ++ rest) = false.

(** A commit whose head, sha, address and links hold no newline. *)
Definition one_line_commit (c : SelectedCommit) : bool :=
  no_newline (head c) && no_newline (sha c) && no_newline (url c)
  && forallb no_newline (pr_links c).

(** ** Vocabulary of the parser *)

(** A block as the parser stores it under the tag [k]: it opens with
    [## ], has no newline at its two ends, and its first pair of brackets
    on one line holds [k], which has neither closing bracket nor
    newline. *)
Definition stored_block (k v : string) : Prop :=
  prefix "## " v = true
  /\ strip_nl v = v
  /\ no_close k = true
  /\ search_bracket v = Some ("[" ++ k ++ "]").

(** ** More example data *)

Module Cases.

(** The state [get_data] returns, for the runs that return. *)
Definition result_of (m : py State) : State :=
  match m with
  | Ok st => st
  | Raise _ => init_state
  end.

(** The commits of the branch of the example, latest first. *)
Definition commits : list Commit :=
  [Sample.c4; Sample.c3; Sample.c2; Sample.c1].

(** A [TYPE] input with a part that holds no colon. *)
Definition cfg_no_colon : Config :=
  {| unreleased_commits := true; regenerate_count := (-1)%Z;
     part_name := ["feat:Feature"; "fix"]; default_scope := "general";
     suppress_unscoped := false; replace_empty_release_info := "" |}.

(** The repository of the example, with no tag for the release [v1]. *)
Definition api_untagged : Api :=
  {| api_contents := inr Sample.prior;
     api_releases := [Sample.rel1; Sample.rel0];
     api_tags := [("v0", "c1c1c1c1c1")];
     api_branch_commits := inr [Sample.c4; Sample.c3; Sample.c2; Sample.c1];
     api_default_commits := inr [] |}.

(** The repository of the example, with one more release, [v1-rc],
    tagged at the commit of [v1]. *)
Definition rel_rc : ApiRelease :=
  {| tag_name := "v1-rc"; api_html_url := "https://example.org/r/v1-rc";
     api_body := ""; api_created_at := "2021-12-28" |}.

Definition api_shared : Api :=
  {| api_contents := inr Sample.prior;
     api_releases := [Sample.rel1; rel_rc; Sample.rel0];
     api_tags := [("v1", "c3c3c3c3c3"); ("v1-rc", "c3c3c3c3c3");
                  ("v0", "c1c1c1c1c1")];
     api_branch_commits := inr [Sample.c4; Sample.c3; Sample.c2; Sample.c1];
     api_default_commits := inr [] |}.

(** The repository of the example when the branch of the changelog does
    not exist. *)
Definition api_no_branch : Api :=
  {| api_contents := inl (404%Z, "Not Found");
     api_releases := [Sample.rel1; Sample.rel0];
     api_tags := Sample.tags;
     api_branch_commits := inl (404%Z, "Branch not found");
     api_default_commits :=
       inr [Sample.c4; Sample.c3; Sample.c2; Sample.c1] |}.

(** The repository of the example after a run has written the changelog
    of its two releases, and the settings of a run that renders new
    releases only. *)
Definition written_releases : dict Release :=
  [("v1", release_entry Sample.rel1 "c3c3c3c3c3" Sample.block_v1);
   ("v0", release_entry Sample.rel0 "c1c1c1c1c1" Sample.block_v0)].

Definition api_up_to_date : Api :=
  {| api_contents := inr (assemble_changelog written_releases);
     api_releases := [Sample.rel1; Sample.rel0];
     api_tags := Sample.tags;
     api_branch_commits := inr [Sample.c4; Sample.c3; Sample.c2; Sample.c1];
     api_default_commits := inr [] |}.

Definition cfg_new_only : Config :=
  {| unreleased_commits := false; regenerate_count := 0;
     part_name := ["feat:Feature"; "fix:Fix"]; default_scope := "general";
     suppress_unscoped := false; replace_empty_release_info := "" |}.

(** The repository of [Sample.api_notes] after the run that wrote
    [Sample.doc_notes], and the document a second run makes of it. *)
Definition api_notes_written : Api :=
  {| api_contents := inr Sample.doc_notes;
     api_releases := api_releases Sample.api_notes;
     api_tags := api_tags Sample.api_notes;
     api_branch_commits := api_branch_commits Sample.api_notes;
     api_default_commits := api_default_commits Sample.api_notes |}.

Definition doc_notes_cut : string :=
  BEGIN_CHANGELOG_TITLE ++ nl ++ nl
  ++ "## [v1](https://example.org/r/v1) - 2021-12-29" ++ nl ++ nl
  ++ "Intro" ++ nl ++ nl
  ++ END_CHANGELOG_SIGNATURE ++ nl.

Definition inputs : Inputs :=
  {| input_path := "CHANGELOG.md"; input_branch := "changelog";
     input_pull_request := "main";
     input_commit_message := "docs(CHANGELOG): update release notes" |}.

(** The object of a run that writes to the branch [changelog] and asks
    for a pull request to [main]. *)
Definition self : Self :=
  {| path := "CHANGELOG.md"; file_sha := "0a0a0a0a";
     branch := Some "changelog"; pull_request := "main";
     self_commit_message := "docs(CHANGELOG): update release notes";
     author := Some ("bot", "bot@example.org") |}.

(** A repository that accepts every request. *)
Definition wapi_ok : WriteApi :=
  {| contents_path := "CHANGELOG.md"; contents_sha := "0a0a0a0a";
     update_file := inr tt; create_file := inr tt;
     get_branch := inr "b1b1b1b1"; create_git_ref := inr tt;
     contents_on_new_ref := inr "0a0a0a0a";
     create_file_on_new_ref := inr tt; create_pull := inr tt |}.

(** A repository in which the branch of the changelog does not exist:
    the file cannot be created until the branch is. *)
Definition wapi_no_branch : WriteApi :=
  {| contents_path := ""; contents_sha := "";
     update_file := inr tt; create_file := inl (404%Z, "Branch not found");
     get_branch := inr "b1b1b1b1"; create_git_ref := inr tt;
     contents_on_new_ref := inl (404%Z, "Not Found");
     create_file_on_new_ref := inr tt; create_pull := inr tt |}.

(** The state after [get_data] of a run that found a changelog, and of
    one that found none. *)
Definition st_found : State :=
  result_of (get_data (Sample.cfg (-1)) Sample.api init_state).

Definition st_absent : State :=
  result_of (get_data (Sample.cfg (-1)) api_no_branch init_state).

(** The states after [get_data] of the other runs of the examples. *)
Definition st_kept : State :=
  result_of (get_data (Sample.cfg 1) Sample.api init_state).

Definition st_untagged : State :=
  result_of (get_data (Sample.cfg (-1)) api_untagged init_state).

Definition st_shared : State :=
  result_of (get_data (Sample.cfg (-1)) api_shared init_state).

End Cases.

(** * Properties *)

(** ** The primitives on examples

    The values are those the Python interpreter gives for the same
    calls. *)

Example split_ex1 : split "ab" "xabyabab" = ["x"; "y"; ""; ""].
Proof. reflexivity. Qed.
Example split_ex2 : split ":" "feat:Feature" = ["feat"; "Feature"].
Proof. reflexivity. Qed.
Example split_ex3 : split "aa" "aaa" = [""; "a"].
Proof. reflexivity. Qed.
Example replace_ex1 : replace "  " " " "a   b  c     d" = "a  b c   d".
Proof. reflexivity. Qed.
Example replace_ex2 :
  replace (cr ++ nl) nl ("a" ++ cr ++ cr ++ nl ++ "b" ++ cr ++ nl)
  = "a" ++ cr ++ nl ++ "b" ++ nl.
Proof. reflexivity. Qed.
Example strip_ex1 :
  strip_nl (nl ++ nl ++ "a" ++ nl ++ "b" ++ nl) = "a" ++ nl ++ "b".
Proof. reflexivity. Qed.
Example slice_ex1 :
  slice 2 3 "abcdefgh" = "cde" /\ slice 2 3 "abc" = ""
  /\ last_n 3 "ab" = "ab" /\ drop_last 3 "ab" = "" /\ drop_last 3 "abcd" = "a".
Proof. repeat split; reflexivity. Qed.
Example str_ex1 :
  str_of_Z 403 = "403" /\ str_of_Z (-5) = "-5" /\ str_of_Z 0 = "0".
Proof. repeat split; reflexivity. Qed.
Example endswith_ex1 :
  endswith "hello" "llo" = true /\ endswith "lo" "llo" = false.
Proof. split; reflexivity. Qed.
Example lower_ex1 : lower "ChangeLog-1" = "changelog-1".
Proof. reflexivity. Qed.

(** [re.findall(regex, head)[0]] and [re.sub(regex + r'\s?:\s?', '', head)]
    for the type [feat]. *)
Example type_regex_ex1 :
  match_type "feat" "feat(core): add X" = Some "core"
  /\ sub_type_colon "feat" "feat(core): add X" = "add X".
Proof. split; reflexivity. Qed.
Example type_regex_ex2 :
  match_type "feat" "feat()x): y" = Some ")x"
  /\ sub_type_colon "feat" "feat()x): y" = "y".
Proof. split; reflexivity. Qed.
Example type_regex_ex3 :
  match_type "feat" ("feat(a" ++ nl ++ "b): y") = Some ""
  /\ sub_type_colon "feat" ("feat(a" ++ nl ++ "b): y")
     = "feat(a" ++ nl ++ "b): y".
Proof. split; reflexivity. Qed.
Example type_regex_ex4 :
  match_type "feat" "feat (a): b" = Some ""
  /\ sub_type_colon "feat" "feat (a): b" = "feat (a): b".
Proof. split; reflexivity. Qed.
Example type_regex_ex5 :
  sub_type_colon "feat" "feat : b" = "b"
  /\ sub_type_colon "feat" ("feat" ++ String "009" ":" ++ String "009" "b")
     = "b"
  /\ sub_type_colon "feat" "feat(x) : y" = "y".
Proof. repeat split; reflexivity. Qed.
Example type_regex_ex6 :
  match_type "feat" "feat(a)b: c" = Some "a"
  /\ sub_type_colon "feat" "feat(a)b: c" = "feat(a)b: c".
Proof. split; reflexivity. Qed.
Example type_regex_ex7 :
  match_type "feat" "feat(): x" = Some ""
  /\ sub_type_colon "feat" "feat(): x" = "feat(): x"
  /\ match_type "feat" "feat()): x" = Some ")"
  /\ sub_type_colon "feat" "feat()): x" = "x".
Proof. repeat split; reflexivity. Qed.
Example type_regex_ex8 : match_type "feat" "fix: y" = None.
Proof. reflexivity. Qed.

(** [re.search(r'\[.*?\]', s)]. *)
Example search_bracket_ex1 :
  search_bracket ("x [a" ++ nl ++ "b] [c]d]") = Some "[c]"
  /\ search_bracket "no" = None
  /\ search_bracket "[]" = Some "[]"
  /\ search_bracket "[[x]]" = Some "[[x]"
  /\ search_bracket "a]b[c" = None.
Proof. repeat split; reflexivity. Qed.

(** [re.split] on the hidden regions. *)
Example split_hide_ex1 :
  split_hide (HIDE_BEGIN ++ "s" ++ HIDE_END) = [""; ""]
  /\ split_hide (HIDE_BEGIN ++ "s" ++ HIDE_BEGIN ++ "x" ++ HIDE_END ++ "y"
                 ++ HIDE_END)
     = [""; "y" ++ HIDE_END]
  /\ split_hide ("a" ++ HIDE_BEGIN ++ "b") = ["a" ++ HIDE_BEGIN ++ "b"]
  /\ split_hide ("a" ++ HIDE_END ++ HIDE_BEGIN ++ "x" ++ HIDE_END)
     = ["a" ++ HIDE_END; ""]
  /\ split_hide (HIDE_BEGIN ++ HIDE_END ++ "q" ++ HIDE_BEGIN)
     = [""; "q" ++ HIDE_BEGIN].
Proof. repeat split; reflexivity. Qed.

(** The classifier on the examples of the specification. *)
Example strip_commits_ex1 :
  strip_commits
    [{| head := "feat(core): add X"; sha := "0123456789"; url := "u";
        pr_links := [] |}] "feat" "general" false
  = [("core",
      [{| subject := "add X";
          commit := {| head := "feat(core): add X"; sha := "0123456789";
                       url := "u"; pr_links := [] |} |}])].
Proof. reflexivity. Qed.
Example strip_commits_ex2 :
  strip_commits
    [{| head := "fix: y"; sha := "0123456789"; url := "u"; pr_links := [] |}]
    "fix" "general" false
  = [("general",
      [{| subject := "y";
          commit := {| head := "fix: y"; sha := "0123456789"; url := "u";
                       pr_links := [] |} |}])]
  /\ strip_commits
       [{| head := "fix: y"; sha := "0123456789"; url := "u";
           pr_links := [] |}] "fix" "general" true
     = [].
Proof. split; reflexivity. Qed.

(** ** Facts about the string primitives *)

Section StringFacts.

Lemma append_nil_r (s : string) : s ++ "" = s.
Proof. induction s as [|c s IH]; simpl; [reflexivity | now rewrite IH]. Qed.

Lemma append_assoc (a b c : string) : (a ++ b) ++ c = a ++ (b ++ c).
Proof. induction a as [|x a IH]; simpl; [reflexivity | now rewrite IH]. Qed.

Lemma length_append (a b : string) :
  String.length (a ++ b) = String.length a + String.length b.
Proof. induction a as [|x a IH]; simpl; [reflexivity | now rewrite IH]. Qed.

Lemma append_eq_nil (a b : string) : a ++ b = "" -> a = "" /\ b = "".
Proof. destruct a; simpl; [auto | discriminate]. Qed.

Lemma prefix_nil (s : string) : prefix "" s = true.
Proof. destruct s; reflexivity. Qed.

Lemma prefix_cons (a b : ascii) (p s : string) :
  prefix (String a p) (String b s) = Ascii.eqb a b && prefix p s.
Proof.
  simpl. destruct (ascii_dec a b) as [->|n].
  - now rewrite Ascii.eqb_refl.
  - apply Ascii.eqb_neq in n. now rewrite n.
Qed.

Lemma prefix_append (p s : string) : prefix p (p ++ s) = true.
Proof.
  induction p as [|c p IH]; [apply prefix_nil|].
  change (String c p ++ s) with (String c (p ++ s)).
  now rewrite prefix_cons, Ascii.eqb_refl, IH.
Qed.

Lemma prefix_inv (p s : string) :
  prefix p s = true -> s = p ++ drop (String.length p) s.
Proof.
  revert s. induction p as [|c p IH]; intros s H; [reflexivity|].
  destruct s as [|d s]; [discriminate|].
  rewrite prefix_cons in H. apply andb_prop in H as [Hc Hp].
  apply Ascii.eqb_eq in Hc. subst d. simpl. f_equal. now apply IH.
Qed.

Lemma prefix_append_l (p a t : string) :
  prefix p a = true -> prefix p (a ++ t) = true.
Proof.
  intros H. rewrite (prefix_inv _ _ H), append_assoc. apply prefix_append.
Qed.

Lemma drop_append (a b : string) : drop (String.length a) (a ++ b) = b.
Proof. induction a as [|c a IH]; simpl; [now destruct b | exact IH]. Qed.

Lemma take_append (a b : string) : take (String.length a) (a ++ b) = a.
Proof. induction a as [|c a IH]; simpl; [now destruct b | now rewrite IH]. Qed.

Lemma last_n_append (s p : string) : last_n (String.length p) (s ++ p) = p.
Proof.
  unfold last_n. rewrite length_append.
  replace (String.length s + String.length p - String.length p)
    with (String.length s) by lia.
  apply drop_append.
Qed.

Lemma endswith_append (s p : string) : endswith (s ++ p) p = true.
Proof.
  unfold endswith. rewrite last_n_append, String.eqb_refl, length_append.
  rewrite andb_true_r. apply Nat.leb_le. lia.
Qed.

Lemma slice_append (a b c : string) :
  slice (String.length a) (String.length c) (a ++ b ++ c) = b.
Proof.
  unfold slice. rewrite drop_append, !length_append.
  replace (String.length a + (String.length b + String.length c)
           - String.length c - String.length a)
    with (String.length b) by lia.
  apply take_append.
Qed.

(** *** Stripping newlines *)

Lemma rstrip_cons_keep (c : ascii) (s : string) :
  is_nl c = false -> rstrip_nl (String c s) = String c (rstrip_nl s).
Proof. intros H. simpl. rewrite H. now destruct (rstrip_nl s). Qed.

Lemma rstrip_cons_nonempty (c : ascii) (s : string) :
  rstrip_nl s <> "" -> rstrip_nl (String c s) = String c (rstrip_nl s).
Proof. intros H. simpl. destruct (rstrip_nl s); [contradiction | reflexivity]. Qed.

Lemma rstrip_idem (s : string) : rstrip_nl (rstrip_nl s) = rstrip_nl s.
Proof.
  induction s as [|c s IH]; [reflexivity|].
  simpl. destruct (rstrip_nl s) as [|d r] eqn:E.
  - destruct (is_nl c) eqn:Hc; [reflexivity|]. simpl. now rewrite Hc.
  - rewrite rstrip_cons_nonempty; rewrite IH; [reflexivity | discriminate].
Qed.

Lemma rstrip_append_nl (s : string) : rstrip_nl (s ++ nl) = rstrip_nl s.
Proof.
  induction s as [|c s IH]; [reflexivity|].
  change (String c s ++ nl) with (String c (s ++ nl)).
  simpl. now rewrite IH.
Qed.

Lemma lstrip_idem (s : string) : lstrip_nl (lstrip_nl s) = lstrip_nl s.
Proof.
  induction s as [|c s IH]; [reflexivity|].
  simpl. destruct (is_nl c) eqn:Hc; [exact IH|]. simpl. now rewrite Hc.
Qed.

Lemma lstrip_keep (c : ascii) (s : string) :
  is_nl c = false -> lstrip_nl (String c s) = String c s.
Proof. intros H. simpl. now rewrite H. Qed.

Lemma rstrip_blank (s : string) : rstrip_nl s = "" <-> blank s = true.
Proof.
  induction s as [|c s IH]; simpl; [tauto|].
  destruct (rstrip_nl s) eqn:E; destruct (is_nl c); simpl; split; intros H;
    try discriminate; try reflexivity.
  - now apply IH.
  - apply IH in H. discriminate.
Qed.

Lemma lstrip_blank (s : string) : lstrip_nl s = "" <-> blank s = true.
Proof.
  induction s as [|c s IH]; simpl; [tauto|].
  destruct (is_nl c); simpl; [exact IH|]. split; discriminate.
Qed.

Lemma blank_lstrip (s : string) : blank (lstrip_nl s) = blank s.
Proof.
  induction s as [|c s IH]; [reflexivity|].
  simpl. destruct (is_nl c) eqn:Hc; simpl; [exact IH | now rewrite Hc].
Qed.

Lemma blank_rstrip (s : string) : blank (rstrip_nl s) = blank s.
Proof.
  destruct (blank s) eqn:E.
  - apply rstrip_blank in E. now rewrite E.
  - destruct (blank (rstrip_nl s)) eqn:E'; [|reflexivity].
    apply rstrip_blank in E'. rewrite rstrip_idem in E'.
    apply rstrip_blank in E'. congruence.
Qed.

Lemma strip_blank (s : string) : strip_nl s = "" <-> blank s = true.
Proof.
  unfold strip_nl. rewrite rstrip_blank, blank_lstrip. tauto.
Qed.

Lemma lstrip_rstrip_comm (s : string) :
  lstrip_nl (rstrip_nl s) = rstrip_nl (lstrip_nl s).
Proof.
  induction s as [|c s IH]; [reflexivity|].
  destruct (is_nl c) eqn:Hc.
  - change (lstrip_nl (String c s)) with (if is_nl c then lstrip_nl s else String c s).
    rewrite Hc, <- IH. simpl. rewrite Hc.
    destruct (rstrip_nl s) as [|d r] eqn:E; [reflexivity|].
    simpl. now rewrite Hc.
  - rewrite lstrip_keep by assumption.
    rewrite rstrip_cons_keep by assumption. now apply lstrip_keep.
Qed.

Lemma strip_idem (s : string) : strip_nl (strip_nl s) = strip_nl s.
Proof.
  unfold strip_nl.
  now rewrite <- lstrip_rstrip_comm, rstrip_idem, lstrip_rstrip_comm,
    lstrip_idem.
Qed.

Lemma strip_rstrip (s : string) : strip_nl (rstrip_nl s) = strip_nl s.
Proof.
  unfold strip_nl. now rewrite lstrip_rstrip_comm, rstrip_idem.
Qed.

Lemma strip_lstrip (s : string) : strip_nl (lstrip_nl s) = strip_nl s.
Proof. unfold strip_nl. now rewrite lstrip_idem. Qed.

End StringFacts.

(** ** Existing-changelog parser: malformed documents *)

Example analyze_empty : analyze_changelog "" [] = ([], []).
Proof. reflexivity. Qed.

(** C7.  A document that does not both start with the title line
    [# CHANGELOG] and end with the signature line followed by a newline is
    not parsed: the mapping stays empty, and the warning is printed
    exactly when the document is not the empty string. *)
Theorem analyze_changelog_malformed (changelog : string) :
  startswith changelog BEGIN_CHANGELOG_TITLE
  && endswith changelog (END_CHANGELOG_SIGNATURE ++ nl) = false ->
  analyze_changelog changelog [] =
    ([], if String.eqb changelog "" then [] else [WarnBadChangelog]).
Proof.
  intros H. unfold analyze_changelog. rewrite H.
  destruct (String.eqb_spec changelog "") as [->|_]; reflexivity.
Qed.

Lemma analyze_changelog_malformed_witness :
  analyze_changelog "# CHANGELOG but no signature" [] = ([], [WarnBadChangelog])
  /\ analyze_changelog "" [] = ([], []).
Proof.
  split.
  - apply (analyze_changelog_malformed "# CHANGELOG but no signature").
    reflexivity.
  - apply (analyze_changelog_malformed ""). reflexivity.
Defined.

(** ** Reconciliation: the eligible releases *)

Lemma list_mem_In (x : string) (l : list string) :
  list_mem x l = true <-> In x l.
Proof.
  induction l as [|y l IH]; simpl; [split; [discriminate | tauto]|].
  rewrite orb_true_iff, IH, String.eqb_eq. tauto.
Qed.

Lemma list_mem_false (x : string) (l : list string) :
  list_mem x l = false <-> ~ In x l.
Proof.
  rewrite <- list_mem_In. destruct (list_mem x l); split; congruence.
Qed.

Lemma regenerate_new_releases (ric : dict string) (rels : list ApiRelease) :
  forall (regen : list string) (t : string),
    In t (fold_left
            (fun regen r =>
               if negb (dict_mem ric (tag_name r))
                  && negb (list_mem (tag_name r) regen)
               then (regen ++ [tag_name r])%list else regen)
            rels regen)
    <-> In t regen \/ (In t (map tag_name rels) /\ dict_mem ric t = false).
Proof.
  induction rels as [|r rels IH]; intros regen t; simpl; [tauto|].
  rewrite IH.
  destruct (dict_mem ric (tag_name r)) eqn:Hm; simpl.
  - intuition (subst; congruence).
  - destruct (list_mem (tag_name r) regen) eqn:Hl; simpl.
    + apply list_mem_In in Hl. intuition (subst; auto).
    + rewrite in_app_iff. simpl. intuition (subst; auto).
Qed.

(** The list [get_data] builds before it walks the commits holds the
    first [regenerate_count] release tags (all of them when the count is
    negative), every release tag absent from the mapping parsed from the
    existing changelog, and ["Unreleased"] exactly when unreleased commits
    are included. *)
Lemma regenerate_initial_spec (cfg : Config) (ric : dict string)
    (rels : list ApiRelease) (t : string) :
  In t (regenerate_initial cfg ric rels)
  <-> In t (if (regenerate_count cfg <? 0)%Z
            then map tag_name rels
            else firstn (Z.to_nat (regenerate_count cfg)) (map tag_name rels))
      \/ (In t (map tag_name rels) /\ dict_mem ric t = false)
      \/ (unreleased_commits cfg = true /\ t = "Unreleased").
Proof.
  unfold regenerate_initial.
  destruct (unreleased_commits cfg).
  - rewrite in_app_iff, regenerate_new_releases. simpl.
    split.
    + intros [[H|H]|[H|[]]]; auto.
    + intros [H|[H|[_ H]]]; auto.
  - rewrite regenerate_new_releases.
    split.
    + intros [H|H]; auto.
    + intros [H|[H|[H _]]]; auto. discriminate.
Qed.

(** ** Commit classifier: the changelog commits *)

Lemma strip_commits_app (l1 l2 : list SelectedCommit)
    (type_regex default_scope : string) (suppress_unscoped : bool) :
  strip_commits (l1 ++ l2) type_regex default_scope suppress_unscoped =
  fold_left (strip_commits_step type_regex default_scope suppress_unscoped) l2
    (strip_commits l1 type_regex default_scope suppress_unscoped).
Proof. unfold strip_commits. apply fold_left_app. Qed.

(** C6.  A commit that matches the type [docs] and whose scope (the
    parenthesised one, or the default scope when there is none) is
    [changelog] in any letter case adds nothing to the [docs] section,
    whatever the suppress-unscoped flag: the scopes and the rendered
    section are those of the commit list without it. *)
Theorem docs_changelog_dropped (pre post : list SelectedCommit)
    (c : SelectedCommit) (default_scope : string) (suppress_unscoped : bool)
    (scope0 : string) :
  match_type "docs" (head c) = Some scope0 ->
  lower (if String.eqb scope0 "" then default_scope else scope0)
    = "changelog" ->
  strip_commits (pre ++ c :: post) "docs" default_scope suppress_unscoped
    = strip_commits (pre ++ post) "docs" default_scope suppress_unscoped
  /\ generate_section (pre ++ c :: post) "docs" default_scope
       suppress_unscoped
     = generate_section (pre ++ post) "docs" default_scope suppress_unscoped.
Proof.
  intros Hm Hs.
  assert (E : strip_commits (pre ++ c :: post) "docs" default_scope
                suppress_unscoped
              = strip_commits (pre ++ post) "docs" default_scope
                  suppress_unscoped).
  { rewrite !strip_commits_app. simpl. f_equal.
    unfold strip_commits_step at 1. rewrite Hm.
    destruct (String.eqb scope0 "" && suppress_unscoped); [reflexivity|].
    rewrite Hs. reflexivity. }
  split; [exact E|]. unfold generate_section. now rewrite E.
Qed.

Lemma docs_changelog_dropped_witness :
  let c := {| head := "docs(ChangeLog): update"; sha := "0123456789";
              url := "u"; pr_links := [] |} in
  let d := {| head := "docs: typo"; sha := "abcdef0123"; url := "v";
              pr_links := [] |} in
  strip_commits ([d] ++ c :: [d]) "docs" "general" false
    = strip_commits ([d] ++ [d]) "docs" "general" false
  /\ generate_section ([d] ++ c :: [d]) "docs" "general" false
     = generate_section ([d] ++ [d]) "docs" "general" false.
Proof.
  intros c d.
  apply (docs_changelog_dropped [d] [d] c "general" false "ChangeLog");
    reflexivity.
Defined.

(** ** Facts about [split] *)

Section SplitFacts.

Variable sep : string.

Lemma split_go_skip (x r : string) :
  split_go sep (String.length x) (x ++ r) = split_go sep 0 r.
Proof. induction x as [|c x IH]; simpl; [now destruct r | exact IH]. Qed.

Lemma split_at_start (r : string) :
  sep <> "" -> split sep (sep ++ r) = "" :: split sep r.
Proof.
  intros Hs. unfold split.
  pose proof (prefix_append sep r) as Hp.
  pose proof (split_go_skip (drop 1 sep) r) as Hk.
  destruct sep as [|c s]; [contradiction|].
  change (String c s ++ r) with (String c (s ++ r)) in *.
  cbn [split_go]. rewrite Hp. f_equal.
  cbn [drop String.length] in *.
  replace (S (String.length s) - 1) with (String.length s) by lia.
  exact Hk.
Qed.

Lemma split_nonempty (s : string) : split sep s <> [].
Proof.
  unfold split. generalize 0. induction s as [|c s IH]; intros k;
    cbn [split_go]; [discriminate|].
  destruct k; [|apply IH].
  destruct (prefix sep (String c s)); [discriminate|].
  specialize (IH 0). destruct (split_go sep 0 s); [contradiction | discriminate].
Qed.

Lemma no_occ_before_cons (c : ascii) (a t : string) :
  no_occ_before sep (String c a) t
  = negb (prefix sep (String c (a ++ t))) && no_occ_before sep a t.
Proof. reflexivity. Qed.

Lemma split_before (a t : string) :
  no_occ_before sep a t = true ->
  split sep (a ++ t) = app_head a (split sep t).
Proof.
  induction a as [|c a IH]; intros H.
  - simpl. pose proof (split_nonempty t) as Hn.
    destruct (split sep t); [contradiction | reflexivity].
  - rewrite no_occ_before_cons in H. apply andb_prop in H as [Hp Ha].
    apply negb_true_iff in Hp. specialize (IH Ha).
    unfold split in *. change (String c a ++ t) with (String c (a ++ t)) in *.
    cbn [split_go]. rewrite Hp, IH.
    pose proof (split_nonempty t) as Hn. unfold split in Hn.
    destruct (split_go sep 0 t); [contradiction | reflexivity].
Qed.

Lemma split_at_sep (a r : string) :
  sep <> "" ->
  no_occ_before sep a (sep ++ r) = true ->
  split sep (a ++ sep ++ r) = a :: split sep r.
Proof.
  intros Hs H. rewrite (split_before _ _ H), (split_at_start _ Hs). simpl.
  now rewrite append_nil_r.
Qed.

Lemma split_no_sep (a : string) :
  no_occ_before sep a "" = true -> split sep a = [a].
Proof.
  intros H. rewrite <- (append_nil_r a) at 1.
  rewrite (split_before _ _ H). simpl. now rewrite append_nil_r.
Qed.

Lemma prefix_append_long (x t : string) :
  String.length sep <= String.length x -> prefix sep (x ++ t) = prefix sep x.
Proof.
  revert x. induction sep as [|c p IH]; intros x H.
  - now rewrite !prefix_nil.
  - destruct x as [|d x]; [simpl in H; lia|].
    change (String d x ++ t) with (String d (x ++ t)).
    rewrite !prefix_cons. f_equal. apply IH. simpl in H. lia.
Qed.

Lemma no_occ_before_app (a b t : string) :
  no_occ_before sep (a ++ b) t
  = no_occ_before sep a (b ++ t) && no_occ_before sep b t.
Proof.
  induction a as [|c a IH]; [reflexivity|].
  change (String c a ++ b) with (String c (a ++ b)).
  rewrite !no_occ_before_cons, IH, append_assoc. now rewrite andb_assoc.
Qed.

Lemma contains_cons (c : ascii) (s : string) :
  contains sep (String c s) = prefix sep (String c s) || contains sep s.
Proof. reflexivity. Qed.

Lemma no_occ_long (a b t : string) :
  contains sep (a ++ b) = false ->
  String.length sep <= S (String.length b) ->
  no_occ_before sep a (b ++ t) = true.
Proof.
  intros Hc Hl. induction a as [|c a IH]; [reflexivity|].
  change (String c a ++ b) with (String c (a ++ b)) in Hc.
  rewrite contains_cons in Hc. apply orb_false_iff in Hc as [Hp Hc].
  rewrite no_occ_before_cons, (IH Hc), andb_true_r.
  apply negb_true_iff.
  rewrite <- append_assoc.
  change (String c ((a ++ b) ++ t)) with (String c (a ++ b) ++ t).
  rewrite prefix_append_long; [exact Hp|].
  cbn [String.length]. rewrite length_append. lia.
Qed.

End SplitFacts.

Lemma first_line_cons (c : ascii) (s : string) :
  first_line (String c s) = if is_nl c then "" else String c (first_line s).
Proof.
  unfold first_line, split. cbn [split_go].
  change nl with (String nl_char "") at 1. rewrite prefix_cons, prefix_nil.
  rewrite andb_true_r, Ascii.eqb_sym. fold (is_nl c).
  destruct (is_nl c); [reflexivity|].
  pose proof (split_nonempty nl s) as Hn. unfold split in Hn.
  destruct (split_go nl 0 s); [contradiction | reflexivity].
Qed.

(** The first line of the first paragraph is the first line of the text. *)
Lemma first_line_paragraph (s : string) :
  first_line (hd "" (split (nl ++ nl) s)) = first_line s.
Proof.
  induction s as [|c s IH]; [reflexivity|].
  unfold split. cbn [split_go].
  destruct (prefix (nl ++ nl) (String c s)) eqn:Hp.
  - cbn [hd]. rewrite first_line_cons.
    change (nl ++ nl) with (String nl_char nl) in Hp.
    rewrite prefix_cons in Hp. apply andb_prop in Hp as [Hc _].
    rewrite Ascii.eqb_sym in Hc. fold (is_nl c) in Hc. now rewrite Hc.
  - pose proof (split_nonempty (nl ++ nl) s) as Hn. unfold split in Hn, IH.
    destruct (split_go (nl ++ nl) 0 s) as [|p l]; [contradiction|].
    cbn [cons_head hd] in *. rewrite !first_line_cons. now rewrite IH.
Qed.

(** ** Commit classifier: the truncation splice *)

Lemma drop_last_append (s p : string) :
  drop_last (String.length p) (s ++ p) = s.
Proof.
  unfold drop_last. rewrite length_append.
  replace (String.length s + String.length p - String.length p)
    with (String.length s) by lia.
  apply take_append.
Qed.

Lemma split_paragraphs_ellipsis (h rest : string) :
  contains (nl ++ nl) (h ++ "...") = false ->
  split (nl ++ nl) (h ++ "..." ++ nl ++ nl ++ rest)
  = (h ++ "...") :: split (nl ++ nl) rest.
Proof.
  intros Hc.
  replace (h ++ "..." ++ nl ++ nl ++ rest)
    with ((h ++ "...") ++ (nl ++ nl) ++ rest)
    by now rewrite !append_assoc.
  apply split_at_sep; [discriminate|].
  rewrite no_occ_before_app. apply andb_true_intro. split.
  - apply no_occ_long; [exact Hc | simpl; lia].
  - reflexivity.
Qed.

Example message_head_spec_example :
  message_head ("feat(x): very long subject tha..." ++ nl ++ nl
                ++ "...t continues")
  = "feat(x): very long subject tha t continues".
Proof. reflexivity. Qed.

(** C3, as the script has it.  When the first paragraph of a commit
    message ends with ["..."] and the second one begins with ["..."], the
    head is the first paragraph without its ellipsis, one space, and the
    first line of the second paragraph without its ellipsis, in which every
    pair of adjacent spaces (leftmost first, without overlap) is then
    replaced by one space.  The two pieces are always joined by a space:
    ["feat(x): very long subject tha..."] continued by ["...t continues"]
    gives the subject ["very long subject tha t continues"]. *)
Theorem message_head_splice (h cont : string) :
  contains (nl ++ nl) (h ++ "...") = false ->
  message_head (h ++ "..." ++ nl ++ nl ++ "..." ++ cont)
  = replace "  " " " (h ++ " " ++ first_line cont).
Proof.
  intros Hc. unfold message_head.
  rewrite (split_paragraphs_ellipsis h ("..." ++ cont) Hc).
  pose proof (split_nonempty (nl ++ nl) ("..." ++ cont)) as Hn.
  pose proof (first_line_paragraph ("..." ++ cont)) as Hf.
  assert (Hs : split (nl ++ nl) ("..." ++ cont)
               = app_head "..." (split (nl ++ nl) cont))
    by (apply split_before; reflexivity).
  pose proof (split_nonempty (nl ++ nl) cont) as Hn'.
  destruct (split (nl ++ nl) cont) as [|q l'] eqn:Eq; [contradiction|].
  rewrite Hs in *. cbn [app_head hd nth List.length] in *.
  assert (E1 : last_n 3 (h ++ "...") = "...") by apply (last_n_append h "...").
  assert (E2 : drop_last 3 (h ++ "...") = h)
    by apply (drop_last_append h "...").
  rewrite E1, E2, String.eqb_refl.
  change (take 3 ("..." ++ q)) with "...". rewrite String.eqb_refl.
  cbn [andb Nat.ltb Nat.leb].
  fold (first_line ("..." ++ q)). rewrite Hf.
  change ("..." ++ cont) with (String "." (String "." (String "." cont))).
  rewrite !first_line_cons. reflexivity.
Qed.

Lemma message_head_splice_witness :
  message_head ("feat(x): very long subject tha" ++ "..." ++ nl ++ nl
                ++ "..." ++ "t continues" ++ nl ++ "second line")
  = "feat(x): very long subject tha t continues".
Proof.
  rewrite (message_head_splice "feat(x): very long subject tha"
             ("t continues" ++ nl ++ "second line")); reflexivity.
Defined.

(** C3, as the specification words it, fails on its own example: the
    subject is not ["very long subject that continues"].  Nor is every
    run of spaces collapsed to one: three spaces in a row leave two. *)
Lemma message_head_splice_counterexample :
  sub_type_colon "feat"
    (message_head ("feat(x): very long subject tha..." ++ nl ++ nl
                   ++ "...t continues"))
  = "very long subject tha t continues"
  /\ sub_type_colon "feat"
       (message_head ("feat(x): very long subject tha..." ++ nl ++ nl
                      ++ "...t continues"))
     <> "very long subject that continues"
  /\ message_head ("fix: x ..." ++ nl ++ nl ++ "... y") = "fix: x  y".
Proof. repeat split; try reflexivity. discriminate. Qed.

(** ** Commit classifier: matching a type *)

Lemma is_char_eq (c : ascii) (d : ascii) :
  is_char c (String d "") = true -> c = d.
Proof.
  unfold is_char. intros H. apply String.eqb_eq in H. congruence.
Qed.

Lemma paren_colon_go_sound (s r : string) :
  paren_colon_go s = Some r ->
  exists s1 s2,
    s = s1 ++ ")" ++ s2 /\ no_newline s1 = true /\ colon_sep s2 = Some r.
Proof.
  induction s as [|c s IH]; [discriminate|].
  cbn [paren_colon_go]. intros H.
  assert (G : (is_char c ")" = true /\ colon_sep s = Some r)
              \/ (is_nl c = false /\ paren_colon_go s = Some r)).
  { destruct (is_char c ")"); [destruct (colon_sep s)|];
      try (left; split; [reflexivity | congruence]);
      destruct (is_nl c); try discriminate; right; auto. }
  destruct G as [[Hc Hs]|[Hn Hg]].
  - apply is_char_eq in Hc. subst c. exists "", s. auto.
  - destruct (IH Hg) as (s1 & s2 & -> & Hn1 & Hs).
    exists (String c s1), s2. repeat split; [|exact Hs].
    cbn [no_newline]. now rewrite Hn, Hn1.
Qed.

Lemma match_type_colon_sound (T head r : string) :
  match_type_colon T head = Some r -> colon_follows T head.
Proof.
  unfold match_type_colon. intros H.
  destruct (prefix T head) eqn:Hp; [|discriminate].
  apply prefix_inv in Hp. set (rest := drop (String.length T) head) in *.
  destruct rest as [|c rest'] eqn:Er.
  - discriminate.
  - destruct (is_char c "(") eqn:Hc.
    + destruct (paren_colon rest') as [r'|] eqn:Hg.
      * apply is_char_eq in Hc. subst c.
        unfold paren_colon in Hg. destruct rest' as [|d rest'']; [discriminate|].
        destruct (is_nl d) eqn:Hd; [discriminate|].
        apply paren_colon_go_sound in Hg as (s1 & s2 & -> & Hn1 & Hs).
        exists (T ++ "(" ++ String d s1 ++ ")"), s2. repeat split.
        -- rewrite Hp. rewrite !append_assoc. reflexivity.
        -- apply type_prefix_scoped; [discriminate|].
           cbn [no_newline]. now rewrite Hd, Hn1.
        -- congruence.
      * exists T, (String c rest'). repeat split; [exact Hp | constructor | congruence].
    + exists T, (String c rest'). repeat split; [exact Hp | constructor | congruence].
Qed.

(** C10, as the script has it, for a type that is a plain keyword (no
    character with a meaning of its own in a regular expression).  A head
    that merely begins with the type keyword is matched by the type, with
    no delimiter required after the keyword; the scope is the
    parenthesised group that follows the keyword, or none.  Unless one of
    the two discarding rules applies (no scope while unscoped commits are
    suppressed; scope [changelog] under [docs]), the commit is filed
    under its scope, the default one when it has none.  When no prefix
    that the pattern can match (the keyword, or the keyword and any
    parenthesised group on one line) is followed by a colon, the subject
    is the whole head. *)
Theorem type_match_prefix_only (T rest default_scope : string)
    (suppress_unscoped : bool) (scopes : dict (list ScopedCommit))
    (c : SelectedCommit) :
  keyword T = true ->
  head c = T ++ rest ->
  match_type T (head c) = Some (opt_scope rest)
  /\ strip_commits_step T default_scope suppress_unscoped scopes c
     = (if dropped T default_scope suppress_unscoped (opt_scope rest)
        then scopes
        else scopes_append scopes
               (if String.eqb (opt_scope rest) "" then default_scope
                else opt_scope rest)
               {| subject := sub_type_colon T (head c); commit := c |})
  /\ (~ colon_follows T (head c) -> sub_type_colon T (head c) = head c)
  /\ (prefix "(" rest = false -> colon_sep rest = None ->
      sub_type_colon T (head c) = head c).
Proof.
  intros _ Hh.
  assert (Hm : match_type T (head c) = Some (opt_scope rest)).
  { unfold match_type. now rewrite Hh, prefix_append, drop_append. }
  split; [exact Hm|]. split.
  - unfold strip_commits_step, dropped. rewrite Hm.
    destruct (String.eqb (opt_scope rest) "" && suppress_unscoped);
      [reflexivity|].
    cbn [orb].
    now destruct (String.eqb
                    (lower (if String.eqb (opt_scope rest) ""
                            then default_scope else opt_scope rest))
                    "changelog"
                  && String.eqb (type_regex_full T) "^docs(?:[(](.+?)[)])?").
  - split.
    + intros Hn. unfold sub_type_colon.
      destruct (match_type_colon T (head c)) as [r|] eqn:E; [|reflexivity].
      exfalso. apply Hn. now apply match_type_colon_sound in E.
    + intros Hp Hc. unfold sub_type_colon, match_type_colon.
      rewrite Hh, prefix_append, drop_append, Hc.
      destruct rest as [|d rest']; [reflexivity|].
      rewrite prefix_cons, prefix_nil, andb_true_r in Hp.
      unfold is_char. cbn [String.eqb]. rewrite Ascii.eqb_sym, Hp.
      reflexivity.
Qed.

Lemma type_match_prefix_only_witness :
  match_type "feat" "feature: add X" = Some ""
  /\ strip_commits_step "feat" "general" false []
       {| head := "feature: add X"; sha := "0123456789abcdef"; url := "u";
          pr_links := [] |}
     = [("general",
         [{| subject := "feature: add X";
             commit := {| head := "feature: add X"; sha := "0123456789abcdef";
                          url := "u"; pr_links := [] |} |}])]
  /\ sub_type_colon "feat" "feature: add X" = "feature: add X".
Proof.
  destruct (type_match_prefix_only "feat" "ure: add X" "general" false []
              {| head := "feature: add X"; sha := "0123456789abcdef";
                 url := "u"; pr_links := [] |} eq_refl eq_refl)
    as (H1 & H2 & H3 & _).
  split; [exact H1|]. split; [exact H2|].
  apply H3. intros (p & r & E & Hp & Hc).
  destruct Hp as [|s Hs Hn]; cbn in E.
  - injection E as <-. apply Hc. reflexivity.
  - discriminate E.
Defined.

(** C10, as the specification words it, fails when the scope group can be
    read in two ways: [re.match] stops the group at the first closing
    parenthesis, so the matched prefix of ["feat(a)b): c"] is ["feat(a)"]
    and no colon follows it, yet the substitution lets the group run to
    the second parenthesis and the subject is not the whole head.  It
    also fails for a head without scope when unscoped commits are
    suppressed: the commit matches the type and is filed nowhere. *)
Lemma type_match_counterexample :
  match_type "feat" "feat(a)b): c" = Some "a"
  /\ colon_sep (drop (String.length "feat(a)") "feat(a)b): c") = None
  /\ sub_type_colon "feat" "feat(a)b): c" = "c"
  /\ sub_type_colon "feat" "feat(a)b): c" <> "feat(a)b): c"
  /\ strip_commits
       [{| head := "feature: add X"; sha := "0123456789abcdef"; url := "u";
           pr_links := [] |}] "feat" "general" true
     = [].
Proof. repeat split; try reflexivity. discriminate. Qed.

(** ** Release header renderer: hidden regions *)

Lemma split_hide_go_nonempty (s : string) (k : nat) : split_hide_go k s <> [].
Proof.
  revert k. induction s as [|c s IH]; intros k; cbn [split_hide_go];
    [discriminate|].
  destruct k; [|apply IH].
  assert (H : cons_head c (split_hide_go 0 s) <> []).
  { specialize (IH 0). destruct (split_hide_go 0 s); [contradiction | discriminate]. }
  destruct (prefix HIDE_BEGIN (String c s)); [|exact H].
  destruct (find_sub HIDE_END (drop (String.length HIDE_BEGIN) (String c s)))
    as [[region after]|]; [discriminate | exact H].
Qed.

(** A description without a hidden region is a single fragment, the
    description itself. *)
Lemma split_hide_single (s d : string) : split_hide s = [d] -> d = s.
Proof.
  unfold split_hide. revert d. induction s as [|c s IH]; intros d;
    cbn [split_hide_go]; [congruence|].
  assert (H : cons_head c (split_hide_go 0 s) = [d] -> d = String c s).
  { pose proof (split_hide_go_nonempty s 0) as Hn.
    destruct (split_hide_go 0 s) as [|p [|q l]] eqn:E; [contradiction| |];
      cbn [cons_head]; intros H'; [|discriminate].
    injection H' as <-. f_equal. now apply IH. }
  destruct (prefix HIDE_BEGIN (String c s)); [|exact H].
  destruct (find_sub HIDE_END (drop (String.length HIDE_BEGIN) (String c s)))
    as [[region after]|]; [|exact H].
  intros H'. injection H' as _ H'.
  now apply split_hide_go_nonempty in H'.
Qed.

Lemma prefix_split (p x y : string) :
  prefix p (x ++ y) = true ->
  String.length x < String.length p ->
  exists u, p = x ++ u /\ prefix u y = true.
Proof.
  revert p. induction x as [|c x IH]; intros p H Hl.
  - now exists p.
  - destruct p as [|d p]; [simpl in Hl; lia|].
    change (String c x ++ y) with (String c (x ++ y)) in H.
    rewrite prefix_cons in H. apply andb_prop in H as [Hc Hp].
    apply Ascii.eqb_eq in Hc. subst d.
    destruct (IH p Hp) as (u & -> & Hu); [simpl in Hl; lia|].
    now exists u.
Qed.

Lemma has_char_append (c : ascii) (a b : string) :
  has_char c (a ++ String c b) = true.
Proof.
  induction a as [|d a IH]; cbn [String.append has_char].
  - now rewrite Ascii.eqb_refl.
  - now rewrite IH, orb_true_r.
Qed.

(** A pattern whose first character occurs nowhere else in it cannot
    overlap a copy of itself. *)
Lemma unbordered_no_occ (c0 : ascii) (p' a t : string) :
  has_char c0 p' = false ->
  contains (String c0 p') a = false ->
  no_occ_before (String c0 p') a (String c0 p' ++ t) = true.
Proof.
  intros Hu. induction a as [|c a IH]; intros Hc; [reflexivity|].
  rewrite contains_cons in Hc. apply orb_false_iff in Hc as [Hp Hc].
  rewrite no_occ_before_cons, (IH Hc), andb_true_r.
  apply negb_true_iff.
  change (String c (a ++ String c0 p' ++ t))
    with (String c a ++ String c0 p' ++ t).
  destruct (prefix (String c0 p') (String c a ++ String c0 p' ++ t)) eqn:E;
    [|reflexivity].
  exfalso.
  destruct (Nat.le_gt_cases (String.length (String c0 p'))
              (String.length (String c a))) as [Hl|Hl].
  - rewrite prefix_append_long in E by exact Hl. congruence.
  - destruct (prefix_split _ _ _ E Hl) as (u & Eu & Hpu).
    destruct u as [|d u].
    + rewrite append_nil_r in Eu. rewrite Eu in Hl. lia.
    + change (String c0 p' ++ t) with (String c0 (p' ++ t)) in Hpu.
      rewrite prefix_cons in Hpu. apply andb_prop in Hpu as [Hd _].
      apply Ascii.eqb_eq in Hd. subst d.
      cbn [String.append] in Eu. injection Eu as _ Eu.
      rewrite Eu, has_char_append in Hu. discriminate.
Qed.

Lemma find_sub_at (sep a rest : string) :
  no_occ_before sep a (sep ++ rest) = true ->
  find_sub sep (a ++ sep ++ rest) = Some (a, rest).
Proof.
  induction a as [|c a IH]; intros H.
  - cbn [String.append].
    destruct (sep ++ rest) eqn:E; cbn [find_sub]; rewrite <- E;
      now rewrite prefix_append, drop_append.
  - rewrite no_occ_before_cons in H. apply andb_prop in H as [Hp Ha].
    apply negb_true_iff in Hp.
    change (String c a ++ sep ++ rest) with (String c (a ++ sep ++ rest)).
    cbn [find_sub]. now rewrite Hp, (IH Ha).
Qed.

Lemma split_hide_go_skip (x r : string) :
  split_hide_go (String.length x) (x ++ r) = split_hide_go 0 r.
Proof. induction x as [|c x IH]; simpl; [now destruct r | exact IH]. Qed.

Lemma split_hide_before (a t : string) :
  no_occ_before HIDE_BEGIN a t = true ->
  split_hide (a ++ t) = app_head a (split_hide t).
Proof.
  unfold split_hide. induction a as [|c a IH]; intros H.
  - cbn [String.append]. pose proof (split_hide_go_nonempty t 0) as Hn.
    destruct (split_hide_go 0 t); [contradiction | reflexivity].
  - rewrite no_occ_before_cons in H. apply andb_prop in H as [Hp Ha].
    apply negb_true_iff in Hp.
    change (String c a ++ t) with (String c (a ++ t)).
    cbn [split_hide_go]. rewrite Hp, (IH Ha).
    pose proof (split_hide_go_nonempty t 0) as Hn.
    destruct (split_hide_go 0 t); [contradiction | reflexivity].
Qed.

Lemma hide_begin_no_occ (a t : string) :
  contains HIDE_BEGIN a = false ->
  no_occ_before HIDE_BEGIN a (HIDE_BEGIN ++ t) = true.
Proof.
  apply (unbordered_no_occ "<" (drop 1 HIDE_BEGIN) a t). reflexivity.
Qed.

Lemma hide_end_no_occ (a t : string) :
  contains HIDE_END a = false ->
  no_occ_before HIDE_END a (HIDE_END ++ t) = true.
Proof.
  apply (unbordered_no_occ "<" (drop 1 HIDE_END) a t). reflexivity.
Qed.

Lemma split_hide_region (a region rest : string) :
  contains HIDE_BEGIN a = false ->
  contains HIDE_END region = false ->
  split_hide (a ++ HIDE_BEGIN ++ region ++ HIDE_END ++ rest)
  = a :: split_hide rest.
Proof.
  intros Ha Hr.
  rewrite split_hide_before
    by (now apply hide_begin_no_occ).
  assert (E : split_hide (HIDE_BEGIN ++ region ++ HIDE_END ++ rest)
              = "" :: split_hide rest).
  { unfold split_hide.
    pose proof (prefix_append HIDE_BEGIN (region ++ HIDE_END ++ rest)) as Hp.
    pose proof (drop_append HIDE_BEGIN (region ++ HIDE_END ++ rest)) as Hd.
    pose proof (find_sub_at HIDE_END region rest
                  (hide_end_no_occ region rest Hr)) as Hf.
    pose proof (split_hide_go_skip
                  (drop 1 HIDE_BEGIN ++ region ++ HIDE_END) rest) as Hk.
    rewrite !append_assoc in Hk.
    change (HIDE_BEGIN ++ region ++ HIDE_END ++ rest)
      with (String "<" (drop 1 HIDE_BEGIN ++ region ++ HIDE_END ++ rest)) in *.
    cbn [split_hide_go]. rewrite Hp, Hd, Hf. f_equal.
    rewrite <- Hk. f_equal.
    rewrite !length_append. cbn. lia. }
  rewrite E. cbn [app_head]. now rewrite append_nil_r.
Qed.

Lemma split_hide_plain (s : string) :
  contains HIDE_BEGIN s = false -> split_hide s = [s].
Proof.
  intros H. unfold split_hide. induction s as [|c s IH]; [reflexivity|].
  rewrite contains_cons in H. apply orb_false_iff in H as [Hp Hc].
  cbn [split_hide_go]. rewrite Hp, (IH Hc). reflexivity.
Qed.

Lemma strip_trimmed (e : string) :
  lstrip_nl (strip_nl e) = strip_nl e /\ rstrip_nl (strip_nl e) = strip_nl e.
Proof.
  unfold strip_nl. split.
  - now rewrite lstrip_rstrip_comm, lstrip_idem.
  - apply rstrip_idem.
Qed.

Lemma lstrip_append (x y : string) :
  x <> "" -> lstrip_nl x = x -> lstrip_nl (x ++ y) = x ++ y.
Proof.
  destruct x as [|c x]; [contradiction|]. intros _ H.
  change (String c x ++ y) with (String c (x ++ y)).
  simpl in *. destruct (is_nl c); [|reflexivity].
  exfalso. assert (L : forall s, String.length (lstrip_nl s) <= String.length s).
  { induction s as [|d s IHs]; simpl; [lia|]. destruct (is_nl d); simpl; lia. }
  specialize (L x). rewrite H in L. simpl in L. lia.
Qed.

Lemma rstrip_append (x y : string) :
  y <> "" -> rstrip_nl y = y -> rstrip_nl (x ++ y) = x ++ y.
Proof.
  intros Hy H. induction x as [|c x IH]; [exact H|].
  change (String c x ++ y) with (String c (x ++ y)).
  rewrite rstrip_cons_nonempty; rewrite IH; [reflexivity|].
  intros E. apply append_eq_nil in E. tauto.
Qed.

Lemma description_step_eq (first last d e : string) :
  description_step first last d e
  = if blank e then d
    else if String.eqb d "" then strip_nl e
         else strip_nl d ++ nl ++ nl ++ strip_nl e.
Proof.
  assert (A : forall p, (p = "" <-> blank e = true) ->
                        strip_nl p = strip_nl e ->
                        add_para d p
                        = if blank e then d
                          else if String.eqb d "" then strip_nl e
                               else strip_nl d ++ nl ++ nl ++ strip_nl e).
  { intros p Hb Hs. unfold add_para. rewrite Hs.
    destruct (String.eqb_spec p "") as [Hp|Hp].
    - apply Hb in Hp. now rewrite Hp.
    - destruct (blank e); [|reflexivity]. exfalso. apply Hp. now apply Hb. }
  unfold description_step.
  destruct (String.eqb e first); [|destruct (String.eqb e last)].
  - apply A; [apply rstrip_blank | apply strip_rstrip].
  - apply A; [apply lstrip_blank | apply strip_lstrip].
  - apply A.
    + now rewrite lstrip_blank, blank_rstrip.
    + now rewrite strip_lstrip, strip_rstrip.
Qed.

Lemma join_fold (sep : string) (l : list string) :
  Forall (fun p => p <> "") l ->
  forall d,
    fold_left (fun acc p => if String.eqb acc "" then p else acc ++ sep ++ p)
      l d
    = match l with
      | [] => d
      | _ => if String.eqb d "" then join sep l else d ++ sep ++ join sep l
      end.
Proof.
  induction 1 as [|p l Hp Hl IH]; intros d; [reflexivity|].
  cbn [fold_left]. rewrite IH. unfold join.
  destruct l as [|q l].
  - reflexivity.
  - cbn [String.concat].
    destruct (String.eqb_spec d "") as [->|Hd].
    + destruct (String.eqb_spec p "") as [->|_]; [contradiction | reflexivity].
    + destruct (String.eqb_spec (d ++ sep ++ p) "") as [E|_].
      * apply append_eq_nil in E. tauto.
      * now rewrite !append_assoc.
Qed.

Lemma fragments_nonempty (l : list string) :
  Forall (fun p => p <> "") (fragments l).
Proof.
  unfold fragments. apply Forall_forall. intros p Hp.
  apply filter_In in Hp as [_ Hp]. apply negb_true_iff in Hp.
  now apply String.eqb_neq.
Qed.

Lemma description_fold (first last : string) (frags : list string) :
  forall d,
    (d <> "" -> lstrip_nl d = d /\ rstrip_nl d = d) ->
    fold_left (description_step first last) frags d
    = fold_left (fun acc p => if String.eqb acc "" then p
                              else acc ++ (nl ++ nl) ++ p)
        (fragments frags) d.
Proof.
  induction frags as [|e frags IH]; intros d Hd; [reflexivity|].
  cbn [fold_left]. rewrite description_step_eq.
  unfold fragments. cbn [map filter]. fold (fragments frags).
  destruct (blank e) eqn:Be.
  - apply strip_blank in Be. rewrite Be. cbn [String.eqb negb].
    now apply IH.
  - assert (Hne : strip_nl e <> "").
    { intros E. apply strip_blank in E. congruence. }
    destruct (String.eqb_spec (strip_nl e) "") as [E|_]; [contradiction|].
    cbn [negb fold_left].
    destruct (String.eqb_spec d "") as [->|Hd'].
    + apply IH. intros _. apply strip_trimmed.
    + destruct (Hd Hd') as [Hl Hr].
      assert (Hs : strip_nl d = d) by (unfold strip_nl; now rewrite Hl).
      rewrite Hs. rewrite append_assoc. apply IH. intros _. split.
      * now apply lstrip_append.
      * replace (d ++ nl ++ nl ++ strip_nl e)
          with ((d ++ nl ++ nl) ++ strip_nl e) by now rewrite !append_assoc.
        apply rstrip_append; [exact Hne | apply strip_trimmed].
Qed.

Example release_description_example :
  release_description
    ("A" ++ nl ++ "<!-- HIDE IN CHANGELOG BEGIN -->secret<!-- HIDE IN CHANGELOG END -->"
     ++ nl ++ "B") "*No description*"
  = "A" ++ nl ++ nl ++ "B".
Proof. reflexivity. Qed.

(** The description [get_data] stores carries no newline at its ends. *)
Lemma release_entry_body_stripped (r : ApiRelease) (commit_sha c : string) :
  strip_nl (body (release_entry r commit_sha c)) = body (release_entry r commit_sha c).
Proof. apply strip_idem. Qed.

Lemma release_description_joined (body replace_empty_release_info : string) :
  strip_nl body = body ->
  release_description body replace_empty_release_info
  = strip_nl
      (if String.eqb (join (nl ++ nl) (fragments (split_hide body))) ""
       then replace_empty_release_info
       else join (nl ++ nl) (fragments (split_hide body))).
Proof.
  intros Hb. unfold release_description.
  destruct (split_hide body) as [|d [|d' l]] eqn:Es.
  - now apply split_hide_go_nonempty in Es.
  - apply split_hide_single in Es. subst d.
    unfold fragments. cbn [map filter]. rewrite Hb.
    destruct (String.eqb body "") eqn:Eb.
    + apply String.eqb_eq in Eb. rewrite Eb. reflexivity.
    + cbn [negb]. unfold join. cbn [String.concat]. now rewrite Eb.
  - rewrite description_fold by (intros H; now contradiction H).
    rewrite join_fold by apply fragments_nonempty.
    cbn [String.eqb].
    destruct (fragments (d :: d' :: l)); reflexivity.
Qed.

(** C9.  For a release other than [Unreleased], with the description as
    [get_data] stores it, the header ends with the description rendered as
    follows: the description is cut at every region that runs from the
    begin marker to the first end marker after it, the regions are
    dropped, every fragment loses the newlines at its two ends, the
    fragments that are left non-empty are joined by one blank line, and
    the replacement string stands in when nothing is left; the result is
    stripped of newlines at its ends.  The cut itself: a text without
    begin marker is one fragment; a text that holds no begin marker before
    a region, and no end marker inside it, gives the part before the
    region and then the fragments of what follows the end marker. *)
Theorem hidden_regions_stripped (r : ApiRelease)
    (commit_sha c release_tag replace_empty_release_info : string) :
  release_tag <> "Unreleased" ->
  let meta_data := release_entry r commit_sha c in
  let joined := join (nl ++ nl) (fragments (split_hide (body meta_data))) in
  let description :=
    strip_nl (if String.eqb joined "" then replace_empty_release_info
              else joined) in
  release_description (body meta_data) replace_empty_release_info
    = description
  /\ release_info meta_data release_tag replace_empty_release_info
     = "## [" ++ release_tag ++ "](" ++ html_url meta_data ++ ") - "
       ++ created_at meta_data ++ nl ++ nl ++ description
  /\ (forall a region rest : string,
        contains HIDE_BEGIN a = false ->
        contains HIDE_END region = false ->
        split_hide (a ++ HIDE_BEGIN ++ region ++ HIDE_END ++ rest)
        = a :: split_hide rest)
  /\ (forall s : string, contains HIDE_BEGIN s = false -> split_hide s = [s]).
Proof.
  intros Ht meta_data joined description.
  assert (E : release_description (body meta_data) replace_empty_release_info
              = description)
    by apply (release_description_joined _ _
                (release_entry_body_stripped r commit_sha c)).
  split; [exact E|]. split.
  - unfold release_info. apply String.eqb_neq in Ht. now rewrite Ht, E.
  - split; [exact split_hide_region | exact split_hide_plain].
Qed.

Lemma hidden_regions_stripped_witness :
  release_description
    ("A" ++ nl ++ HIDE_BEGIN ++ "secret" ++ HIDE_END ++ nl ++ "B") ""
  = "A" ++ nl ++ nl ++ "B"
  /\ release_info
       (release_entry
          {| tag_name := "v1"; api_html_url := "https://example.org/v1";
             api_body := nl ++ "A" ++ cr ++ nl ++ HIDE_BEGIN ++ "secret"
                         ++ HIDE_END ++ cr ++ nl ++ "B" ++ nl;
             api_created_at := "2021-12-29 09:53:19" |} "c3" "") "v1" ""
     = "## [v1](https://example.org/v1) - 2021-12-29 09:53:19" ++ nl ++ nl
       ++ "A" ++ nl ++ nl ++ "B".
Proof.
  destruct (hidden_regions_stripped
              {| tag_name := "v1"; api_html_url := "https://example.org/v1";
                 api_body := nl ++ "A" ++ cr ++ nl ++ HIDE_BEGIN ++ "secret"
                             ++ HIDE_END ++ cr ++ nl ++ "B" ++ nl;
                 api_created_at := "2021-12-29 09:53:19" |} "c3" "" "v1" "")
    as (H1 & H2 & _).
  - discriminate.
  - split; [exact H1 | exact H2].
Defined.

(** ** Empty releases *)

Lemma assemble_skip_empty (pre post : dict Release) (tag : string)
    (r : Release) :
  content r = "" ->
  assemble_changelog (pre ++ (tag, r) :: post)%list
  = assemble_changelog (pre ++ post)%list.
Proof.
  intros Hc. unfold assemble_changelog, dict_values.
  rewrite !map_app, !fold_left_app. cbn [map fold_left snd].
  now rewrite Hc.
Qed.

Lemma rstrip_append_keep (a b : string) :
  rstrip_nl b <> "" -> rstrip_nl (a ++ b) = a ++ rstrip_nl b.
Proof.
  intros Hb. induction a as [|c a IH]; [reflexivity|].
  change (String c a ++ b) with (String c (a ++ b)).
  rewrite rstrip_cons_nonempty; rewrite IH; [reflexivity|].
  intros E. apply append_eq_nil in E. tauto.
Qed.

(** The header of a tagged release keeps its first line whatever the tag,
    the address and the date are. *)
Lemma strip_header (tag url rest : string) :
  strip_nl ("## [" ++ tag ++ "](" ++ url ++ ") - " ++ rest)
  = "## [" ++ tag ++ "](" ++ url ++ ") - " ++ rstrip_nl rest.
Proof.
  unfold strip_nl.
  change ("## [" ++ tag ++ "](" ++ url ++ ") - " ++ rest)
    with (String "#" (String "#" (String " " (String "["
            (tag ++ "](" ++ url ++ ") - " ++ rest))))).
  rewrite lstrip_keep by reflexivity.
  rewrite !rstrip_cons_keep by reflexivity.
  assert (E1 : rstrip_nl (") - " ++ rest) = ") - " ++ rstrip_nl rest).
  { change (") - " ++ rest)
      with (String ")" (String " " (String "-" (String " " rest)))).
    now rewrite !rstrip_cons_keep by reflexivity. }
  assert (E2 : rstrip_nl ("](" ++ url ++ ") - " ++ rest)
               = "](" ++ url ++ ") - " ++ rstrip_nl rest).
  { change ("](" ++ url ++ ") - " ++ rest)
      with (String "]" (String "(" (url ++ ") - " ++ rest))).
    rewrite !rstrip_cons_keep by reflexivity.
    rewrite rstrip_append_keep; rewrite E1; [reflexivity | discriminate]. }
  rewrite rstrip_append_keep; rewrite E2; [reflexivity | discriminate].
Qed.

(** C4, as the script has it.  When no commit of a release matches a
    configured type, the entry of [Unreleased] is empty and the assembler
    leaves it out of the document altogether; the entry of a tagged
    release is its header followed by a blank line, so it is never empty,
    begins with [## [tag](url) - ], and stays in the document even when
    the description is empty too. *)
Theorem empty_release_omitted (meta_data : Release)
    (release_commits : list SelectedCommit) (part_name : list string)
    (default_scope : string) (suppress_unscoped : bool)
    (replace_empty_release_info : string) :
  generate_release_body release_commits part_name default_scope
    suppress_unscoped = Ok "" ->
  generate_release_changelog meta_data release_commits "Unreleased" part_name
    default_scope suppress_unscoped replace_empty_release_info = Ok ""
  /\ (forall (pre post : dict Release) (tag : string) (r : Release),
        content r = "" ->
        assemble_changelog (pre ++ (tag, r) :: post)%list
        = assemble_changelog (pre ++ post)%list)
  /\ (forall release_tag : string,
        release_tag <> "Unreleased" ->
        generate_release_changelog meta_data release_commits release_tag
          part_name default_scope suppress_unscoped
          replace_empty_release_info
        = Ok ("## [" ++ release_tag ++ "](" ++ html_url meta_data ++ ") - "
              ++ rstrip_nl (created_at meta_data ++ nl ++ nl
                            ++ release_description (body meta_data)
                                 replace_empty_release_info)
              ++ nl ++ nl)).
Proof.
  intros Hb. repeat split.
  - unfold generate_release_changelog. rewrite Hb. reflexivity.
  - intros. now apply assemble_skip_empty.
  - intros release_tag Ht.
    unfold generate_release_changelog. rewrite Hb. cbn [py_bind].
    apply String.eqb_neq in Ht.
    unfold release_info. rewrite Ht. cbn [String.eqb andb].
    rewrite strip_header. now rewrite !append_assoc.
Qed.

Lemma empty_release_omitted_witness :
  generate_release_changelog unreleased_entry
    [{| head := "chore: tidy"; sha := "0123456789abcdef"; url := "u";
        pr_links := [] |}]
    "Unreleased" ["feat:Feature"; "fix:Fix"] "general" false "" = Ok ""
  /\ assemble_changelog
       ([] ++ ("Unreleased", unreleased_entry) :: [])%list
     = assemble_changelog ([] ++ [])%list.
Proof.
  destruct (empty_release_omitted unreleased_entry
              [{| head := "chore: tidy"; sha := "0123456789abcdef";
                  url := "u"; pr_links := [] |}]
              ["feat:Feature"; "fix:Fix"] "general" false "" eq_refl)
    as (H1 & H2 & _).
  split; [exact H1 | apply H2; reflexivity].
Defined.

(** C4, as the specification words it, fails for a tagged release: with
    one release [v1] whose description is empty and whose only commit
    matches no configured type, the document still carries the header of
    [v1]. *)
Lemma empty_release_counterexample :
  main_local
    {| unreleased_commits := false; regenerate_count := (-1)%Z;
       part_name := ["feat:Feature"; "fix:Fix"]; default_scope := "general";
       suppress_unscoped := false; replace_empty_release_info := "" |}
    {| api_contents := inl (404%Z, "Not Found");
       api_releases :=
         [{| tag_name := "v1"; api_html_url := "https://example.org/v1";
             api_body := ""; api_created_at := "2021-12-29 09:53:19" |}];
       api_tags := [("v1", "c1")];
       api_branch_commits :=
         inr [{| commit_sha := "c1"; commit_message := "chore: tidy";
                 commit_html_url := "https://example.org/c1";
                 commit_pulls := inr [] |}];
       api_default_commits := inr [] |}
  = Ok (BEGIN_CHANGELOG_TITLE ++ nl ++ nl
        ++ "## [v1](https://example.org/v1) - 2021-12-29 09:53:19"
        ++ nl ++ nl ++ END_CHANGELOG_SIGNATURE ++ nl)
  /\ generate_release_body
       [{| head := "chore: tidy"; sha := "c1";
           url := "https://example.org/c1"; pr_links := [] |}]
       ["feat:Feature"; "fix:Fix"] "general" false = Ok ""
  /\ BEGIN_CHANGELOG_TITLE ++ nl ++ nl
     ++ "## [v1](https://example.org/v1) - 2021-12-29 09:53:19"
     ++ nl ++ nl ++ END_CHANGELOG_SIGNATURE ++ nl
     <> assemble_changelog [].
Proof. repeat split; try reflexivity. discriminate. Qed.

(** ** Reconciliation: walking the commits *)

(** The pairwise inequalities of a [distinct] list, in both directions. *)
Ltac eqb_facts :=
  repeat match goal with
  | H : distinct _ = true |- _ => cbn [distinct list_mem] in H
  | H : _ && _ = true |- _ => apply andb_prop in H as [? ?]
  | H : negb _ = true |- _ => apply negb_true_iff in H
  | H : _ || _ = false |- _ => apply orb_false_iff in H as [? ?]
  | H : true = true |- _ => clear H
  | H : false = false |- _ => clear H
  end;
  repeat match goal with
  | H : (?a =? ?b)%string = false |- _ =>
      lazymatch goal with
      | _ : (b =? a)%string = false |- _ => fail
      | _ => assert ((b =? a)%string = false) by (rewrite String.eqb_sym; exact H)
      end
  end.

(** One step of symbolic evaluation of the dictionary and list
    operations of [get_data]. *)
Ltac walk_step :=
  first
    [ progress cbn [map fold_left list_mem list_remove dict_get dict_set dict_mem
                    negb andb orb app firstn fst snd py_bind
                    List.length Nat.leb Nat.ltb
                    cur_release selected_commits regenerate_releases
                    walk_releases walk_out failed Z.eqb store_content
                    set_content html_url body created_at release_commit_sha
                    content release_entry]
    | progress unfold store_content
    | rewrite String.eqb_refl
    | rewrite andb_false_r
    | rewrite andb_true_r
    | rewrite orb_true_r
    | rewrite orb_false_r
    | rewrite app_nil_r
    | match goal with
      | H : (_ =? _)%string = false |- _ => rewrite H
      | H : dict_get _ _ = _ |- _ => rewrite H
      | H : dict_mem _ _ = _ |- _ => rewrite H
      | H : select_commits _ _ = _ |- _ => rewrite H
      | H : generate_release_changelog _ _ _ _ _ _ _ = _ |- _ => rewrite H
      | H : unreleased_commits _ = _ |- _ => rewrite H
      | H : (_ <? _)%Z = _ |- _ => rewrite H
      end ].
Ltac walk := repeat walk_step.

Lemma get_exist_changelog_releases (api : Api) (st0 st : State) :
  get_exist_changelog api st0 = Ok st -> releases st = releases st0.
Proof.
  unfold get_exist_changelog.
  destruct (api_contents api) as [[status data]|text].
  - destruct (status =? 404)%Z; [|discriminate]. now intros [= <-].
  - destruct (analyze_changelog text (release_in_changelog st0)).
    now intros [= <-].
Qed.

Section WalkSteps.
Variables (cfg : Config) (sl : dict string).

Lemma walk_plain (c : Commit) (rest : list Commit) (w : Walk) :
  dict_get sl (commit_sha c) = None ->
  walk_commits cfg sl (c :: rest) w
  = walk_commits cfg sl rest
      {| cur_release := cur_release w;
         selected_commits := (selected_commits w ++ [c])%list;
         regenerate_releases := regenerate_releases w;
         walk_releases := walk_releases w;
         walk_out := walk_out w |}.
Proof. intros H. cbn [walk_commits]. now rewrite H. Qed.

Lemma walk_boundary_skip (c : Commit) (rest : list Commit) (w : Walk)
    (next : string) :
  dict_get sl (commit_sha c) = Some next ->
  list_mem (cur_release w) (regenerate_releases w) = false ->
  walk_commits cfg sl (c :: rest) w
  = walk_commits cfg sl rest
      {| cur_release := next;
         selected_commits := [c];
         regenerate_releases := regenerate_releases w;
         walk_releases := walk_releases w;
         walk_out := walk_out w |}.
Proof. intros H Hm. cbn [walk_commits]. now rewrite H, Hm. Qed.

Lemma walk_boundary_render (c : Commit) (rest : list Commit) (w : Walk)
    (next release_content : string) (status_code : Z) (out : list LogLine)
    (releases' : dict Release) :
  dict_get sl (commit_sha c) = Some next ->
  list_mem (cur_release w) (regenerate_releases w) = true ->
  get_release_content cfg (walk_releases w) (cur_release w)
    (selected_commits w) = Ok (release_content, status_code, out) ->
  failed status_code = false ->
  store_content (walk_releases w) (cur_release w) release_content
    = Ok releases' ->
  walk_commits cfg sl (c :: rest) w
  = if (List.length (list_remove (cur_release w) (regenerate_releases w))
        <=? 0)%nat
    then Ok {| cur_release := next;
               selected_commits := [];
               regenerate_releases :=
                 list_remove (cur_release w) (regenerate_releases w);
               walk_releases := releases';
               walk_out := (walk_out w ++ out ++ [InfoAllGenerated])%list |}
    else walk_commits cfg sl rest
           {| cur_release := next;
              selected_commits := [c];
              regenerate_releases :=
                list_remove (cur_release w) (regenerate_releases w);
              walk_releases := releases';
              walk_out := (walk_out w ++ out)%list |}.
Proof.
  intros H Hm Hr Hf Hs. cbn [walk_commits].
  rewrite H, Hm, Hr. cbn [py_bind]. rewrite Hf, Hs. reflexivity.
Qed.

Lemma walk_boundary_fail (c : Commit) (rest : list Commit) (w : Walk)
    (next release_content : string) (status_code : Z) (out : list LogLine) :
  dict_get sl (commit_sha c) = Some next ->
  list_mem (cur_release w) (regenerate_releases w) = true ->
  get_release_content cfg (walk_releases w) (cur_release w)
    (selected_commits w) = Ok (release_content, status_code, out) ->
  failed status_code = true ->
  walk_commits cfg sl (c :: rest) w
  = Ok {| cur_release := cur_release w;
          selected_commits := [];
          regenerate_releases := regenerate_releases w;
          walk_releases := walk_releases w;
          walk_out :=
            (walk_out w ++ out
             ++ [ErrorContentStatus (str_of_Z status_code)])%list |}.
Proof.
  intros H Hm Hr Hf. cbn [walk_commits].
  rewrite H, Hm, Hr. cbn [py_bind]. now rewrite Hf.
Qed.

End WalkSteps.

Lemma get_release_content_ok (cfg : Config) (releases : dict Release)
    (release_tag : string) (commits : list Commit)
    (selected : list SelectedCommit) (meta_data : Release) (c : string) :
  select_commits commits [] = inr selected ->
  dict_get releases release_tag = Some meta_data ->
  generate_release_changelog meta_data selected release_tag (part_name cfg)
    (default_scope cfg) (suppress_unscoped cfg)
    (replace_empty_release_info cfg) = Ok c ->
  get_release_content cfg releases release_tag commits = Ok (c, 0%Z, []).
Proof.
  intros Hs Hg Hc. unfold get_release_content. now rewrite Hs, Hg, Hc.
Qed.

(** The example of the specification: releases [rel1] (newest, tagged at
    commit [c3]) and [rel0] (tagged at [c1]), commits [c4; c3; c2; c1] from
    the newest to the oldest, unreleased commits included. *)
Section SpecExample.

Variables (cfg : Config) (rel1 rel0 : ApiRelease) (c4 c3 c2 c1 : Commit).
Variables (tags : list (string * string)).
Variables (contents : (Z * string) + string)
          (dflt : (Z * string) + list Commit).
Variable st : State.

Let api : Api :=
  {| api_contents := contents; api_releases := [rel1; rel0];
     api_tags := tags; api_branch_commits := inr [c4; c3; c2; c1];
     api_default_commits := dflt |}.

Hypothesis Hprior : get_exist_changelog api init_state = Ok st.
Hypothesis Htags :
  distinct ["Unreleased"; tag_name rel1; tag_name rel0] = true.
Hypothesis Hshas :
  distinct [""; commit_sha c4; commit_sha c3; commit_sha c2; commit_sha c1]
  = true.
Hypothesis Htag1 :
  dict_get (tags_sha_of tags) (tag_name rel1) = Some (commit_sha c3).
Hypothesis Htag0 :
  dict_get (tags_sha_of tags) (tag_name rel0) = Some (commit_sha c1).
Hypothesis Hun : unreleased_commits cfg = true.

(** The buckets, once the pull requests of their commits are resolved,
    and what the renderer makes of them. *)
Variables (s4 s32 s1 : list SelectedCommit) (cu cr1 cr0 : string).
Hypothesis Hs4 : select_commits [c4] [] = inr s4.
Hypothesis Hs32 : select_commits [c3; c2] [] = inr s32.
Hypothesis Hcu :
  generate_release_changelog unreleased_entry s4 "Unreleased" (part_name cfg)
    (default_scope cfg) (suppress_unscoped cfg)
    (replace_empty_release_info cfg) = Ok cu.
Hypothesis Hcr1 :
  generate_release_changelog (release_entry rel1 (commit_sha c3) "") s32
    (tag_name rel1) (part_name cfg) (default_scope cfg)
    (suppress_unscoped cfg) (replace_empty_release_info cfg) = Ok cr1.

(** C1.  With every release eligible, [Unreleased] is rendered from the
    bucket [c4], [rel1] from [c3; c2] and [rel0] from [c1]: the commit a
    tag points to closes the bucket of the release before it and opens
    the bucket of its own release.  With [regenerate_count = 1] and
    [rel0] present in the mapping parsed from the existing changelog, only
    [Unreleased] and [rel1] are rendered, from the same buckets, and the
    content of [rel0] is its block of the existing changelog. *)
Theorem commit_partition :
  ((regenerate_count cfg < 0)%Z ->
   select_commits [c1] [] = inr s1 ->
   generate_release_changelog (release_entry rel0 (commit_sha c1) "") s1
     (tag_name rel0) (part_name cfg) (default_scope cfg)
     (suppress_unscoped cfg) (replace_empty_release_info cfg) = Ok cr0 ->
   get_data cfg api init_state =
   Ok {| releases :=
           [("Unreleased", set_content unreleased_entry cu);
            (tag_name rel1, release_entry rel1 (commit_sha c3) cr1);
            (tag_name rel0, release_entry rel0 (commit_sha c1) cr0)];
         changelog := changelog st;
         release_in_changelog := release_in_changelog st;
         file_exists := file_exists st;
         stdout :=
           (stdout st
            ++ [InfoRegenerate [tag_name rel1; tag_name rel0; "Unreleased"]])%list
      |})
  /\ (forall b0 : string,
        regenerate_count cfg = 1%Z ->
        dict_get (release_in_changelog st) (tag_name rel0) = Some b0 ->
        get_data cfg api init_state =
        Ok {| releases :=
                [("Unreleased", set_content unreleased_entry cu);
                 (tag_name rel1, release_entry rel1 (commit_sha c3) cr1);
                 (tag_name rel0, release_entry rel0 (commit_sha c1) b0)];
              changelog := changelog st;
              release_in_changelog := release_in_changelog st;
              file_exists := file_exists st;
              stdout :=
                (stdout st
                 ++ [InfoRegenerate [tag_name rel1; "Unreleased"];
                     InfoAllGenerated])%list |}).
Proof.
  pose proof (get_exist_changelog_releases _ _ _ Hprior) as Hrel.
  cbn in Hrel. eqb_facts. split.
  - intros Hc Hs1 Hcr0. apply Z.ltb_lt in Hc.
    assert (Eregen :
              regenerate_initial cfg (release_in_changelog st) [rel1; rel0]
              = [tag_name rel1; tag_name rel0; "Unreleased"]).
    { unfold regenerate_initial. rewrite Hc, Hun. now walk. }
    assert (Erels :
              fold_left
                (release_meta (tags_sha_of tags) (release_in_changelog st)
                   [tag_name rel1; tag_name rel0; "Unreleased"])
                [rel1; rel0] (seed_unreleased cfg (releases st))
              = [("Unreleased", unreleased_entry);
                 (tag_name rel1, release_entry rel1 (commit_sha c3) "");
                 (tag_name rel0, release_entry rel0 (commit_sha c1) "")]).
    { unfold seed_unreleased, release_meta. rewrite Hun, Hrel. walk.
      unfold release_entry.
      now destruct (dict_get (release_in_changelog st) (tag_name rel1)),
        (dict_get (release_in_changelog st) (tag_name rel0)). }
    unfold get_data. rewrite Hprior. cbn [py_bind].
    unfold reconcile, get_github_commits, start_walk, api.
    cbn [api_branch_commits api_releases api_tags py_bind].
    rewrite Eregen, Erels.
    cbn [cur_release selected_commits regenerate_releases walk_releases
         walk_out List.length Nat.ltb Nat.leb].
    set (sl := release_commit_sha_list_of _).
    assert (Esl : sl = [("", "Unreleased"); (commit_sha c3, tag_name rel1);
                        (commit_sha c1, tag_name rel0)]).
    { unfold sl, release_commit_sha_list_of. walk.
      change (release_commit_sha unreleased_entry) with "". now walk. }
    assert (L4 : dict_get sl (commit_sha c4) = None)
      by (rewrite Esl; now walk).
    assert (L3 : dict_get sl (commit_sha c3) = Some (tag_name rel1))
      by (rewrite Esl; now walk).
    assert (L2 : dict_get sl (commit_sha c2) = None)
      by (rewrite Esl; now walk).
    assert (L1 : dict_get sl (commit_sha c1) = Some (tag_name rel0))
      by (rewrite Esl; now walk).
    clearbody sl.
    rewrite (walk_plain _ _ _ _ _ L4).
    cbn [cur_release selected_commits regenerate_releases walk_releases
         walk_out app].
    erewrite (walk_boundary_render _ _ _ _ _ _ _ _ _ _ L3).
    2:{ walk. reflexivity. }
    2:{ eapply get_release_content_ok;
          [exact Hs4 | walk; reflexivity | exact Hcu]. }
    2:{ reflexivity. }
    2:{ walk. reflexivity. }
    walk.
    rewrite (walk_plain _ _ _ _ _ L2).
    cbn [cur_release selected_commits regenerate_releases walk_releases
         walk_out app].
    erewrite (walk_boundary_render _ _ _ _ _ _ _ _ _ _ L1).
    2:{ walk. reflexivity. }
    2:{ eapply get_release_content_ok;
          [exact Hs32 | walk; reflexivity | exact Hcr1]. }
    2:{ reflexivity. }
    2:{ walk. reflexivity. }
    walk. cbn [walk_commits py_bind]. unfold finish_walk. walk.
    erewrite get_release_content_ok;
      [ | exact Hs1 | walk; reflexivity | exact Hcr0 ].
    walk. reflexivity.
  - intros b0 Hc Hb0.
    assert (Hm0 : dict_mem (release_in_changelog st) (tag_name rel0) = true)
      by (unfold dict_mem; now rewrite Hb0).
    assert (Eregen :
              regenerate_initial cfg (release_in_changelog st) [rel1; rel0]
              = [tag_name rel1; "Unreleased"]).
    { unfold regenerate_initial. rewrite Hc, Hun.
      change (Z.to_nat 1) with 1%nat. change (1 <? 0)%Z with false.
      now walk. }
    assert (Erels :
              fold_left
                (release_meta (tags_sha_of tags) (release_in_changelog st)
                   [tag_name rel1; "Unreleased"])
                [rel1; rel0] (seed_unreleased cfg (releases st))
              = [("Unreleased", unreleased_entry);
                 (tag_name rel1, release_entry rel1 (commit_sha c3) "");
                 (tag_name rel0, release_entry rel0 (commit_sha c1) b0)]).
    { unfold seed_unreleased, release_meta. rewrite Hun, Hrel. walk.
      unfold release_entry.
      now destruct (dict_get (release_in_changelog st) (tag_name rel1)). }
    unfold get_data. rewrite Hprior. cbn [py_bind].
    unfold reconcile, get_github_commits, start_walk, api.
    cbn [api_branch_commits api_releases api_tags py_bind].
    rewrite Eregen, Erels.
    cbn [cur_release selected_commits regenerate_releases walk_releases
         walk_out List.length Nat.ltb Nat.leb].
    set (sl := release_commit_sha_list_of _).
    assert (Esl : sl = [("", "Unreleased"); (commit_sha c3, tag_name rel1);
                        (commit_sha c1, tag_name rel0)]).
    { unfold sl, release_commit_sha_list_of. walk.
      change (release_commit_sha unreleased_entry) with "". now walk. }
    assert (L4 : dict_get sl (commit_sha c4) = None)
      by (rewrite Esl; now walk).
    assert (L3 : dict_get sl (commit_sha c3) = Some (tag_name rel1))
      by (rewrite Esl; now walk).
    assert (L2 : dict_get sl (commit_sha c2) = None)
      by (rewrite Esl; now walk).
    assert (L1 : dict_get sl (commit_sha c1) = Some (tag_name rel0))
      by (rewrite Esl; now walk).
    clearbody sl.
    rewrite (walk_plain _ _ _ _ _ L4).
    cbn [cur_release selected_commits regenerate_releases walk_releases
         walk_out app].
    erewrite (walk_boundary_render _ _ _ _ _ _ _ _ _ _ L3).
    2:{ walk. reflexivity. }
    2:{ eapply get_release_content_ok;
          [exact Hs4 | walk; reflexivity | exact Hcu]. }
    2:{ reflexivity. }
    2:{ walk. reflexivity. }
    walk.
    rewrite (walk_plain _ _ _ _ _ L2).
    cbn [cur_release selected_commits regenerate_releases walk_releases
         walk_out app].
    erewrite (walk_boundary_render _ _ _ _ _ _ _ _ _ _ L1).
    2:{ walk. reflexivity. }
    2:{ eapply get_release_content_ok;
          [exact Hs32 | walk; reflexivity | exact Hcr1]. }
    2:{ reflexivity. }
    2:{ walk. reflexivity. }
    walk. unfold finish_walk. walk.
    now rewrite <- app_assoc.
Qed.

End SpecExample.

Lemma commit_partition_witness :
  get_data (Sample.cfg (-1)) Sample.api init_state =
  Ok {| releases :=
          [("Unreleased",
            set_content unreleased_entry Sample.block_unreleased);
           ("v1", release_entry Sample.rel1 "c3c3c3c3c3" Sample.block_v1);
           ("v0", release_entry Sample.rel0 "c1c1c1c1c1" Sample.block_v0)];
        changelog := Sample.prior;
        release_in_changelog := [("v0", Sample.prior_v0)];
        file_exists := true;
        stdout := [InfoRegenerate ["v1"; "v0"; "Unreleased"]] |}
  /\ get_data (Sample.cfg 1) Sample.api init_state =
     Ok {| releases :=
             [("Unreleased",
               set_content unreleased_entry Sample.block_unreleased);
              ("v1", release_entry Sample.rel1 "c3c3c3c3c3" Sample.block_v1);
              ("v0",
               release_entry Sample.rel0 "c1c1c1c1c1" Sample.prior_v0)];
           changelog := Sample.prior;
           release_in_changelog := [("v0", Sample.prior_v0)];
           file_exists := true;
           stdout := [InfoRegenerate ["v1"; "Unreleased"]; InfoAllGenerated] |}.
Proof.
  split.
  - apply (proj1 (commit_partition (Sample.cfg (-1)) Sample.rel1
                    Sample.rel0 Sample.c4 Sample.c3 Sample.c2 Sample.c1
                    Sample.tags (inr Sample.prior) (inr [])
                    Sample.prior_state eq_refl eq_refl eq_refl eq_refl
                    eq_refl eq_refl Sample.s4 Sample.s32 Sample.s1
                    Sample.block_unreleased Sample.block_v1 Sample.block_v0
                    eq_refl eq_refl eq_refl eq_refl));
      reflexivity.
  - apply (proj2 (commit_partition (Sample.cfg 1) Sample.rel1
                    Sample.rel0 Sample.c4 Sample.c3 Sample.c2 Sample.c1
                    Sample.tags (inr Sample.prior) (inr [])
                    Sample.prior_state eq_refl eq_refl eq_refl eq_refl
                    eq_refl eq_refl Sample.s4 Sample.s32 Sample.s1
                    Sample.block_unreleased Sample.block_v1 Sample.block_v0
                    eq_refl eq_refl eq_refl eq_refl)
             Sample.prior_v0);
      reflexivity.
Defined.

(** ** Reconciliation: a rendering that fails *)

Lemma get_release_content_fail (cfg : Config) (releases : dict Release)
    (release_tag : string) (commits : list Commit) (status : Z)
    (data : string) :
  select_commits commits [] = inl (status, data) ->
  get_release_content cfg releases release_tag commits
  = Ok ("", status, [ErrorContentMessage data]).
Proof. intros H. unfold get_release_content. now rewrite H. Qed.

Lemma list_mem_nonempty (x : string) (l : list string) :
  list_mem x l = true -> (0 <? List.length l)%nat = true.
Proof. destruct l; [discriminate | reflexivity]. Qed.

(** C8, as the script has it.  When the pull requests of a commit of the
    bucket being rendered cannot be resolved (an exception whose status is
    neither 0 nor 200), the walk stops at once, whatever commits are left:
    the bucket is dropped, the data and the status of the exception are
    printed, [self.releases] is left as it is (the releases rendered so
    far keep their new content) and so is the list of releases still to
    render, which is reported at the end; [get_data] returns normally.
    The releases still to render keep the content they hold, and that
    content is empty: it is not their block of the existing changelog. *)
Theorem render_failure_policy (cfg : Config) (sl : dict string) (w : Walk)
    (status : Z) (data : string) :
  list_mem (cur_release w) (regenerate_releases w) = true ->
  select_commits (selected_commits w) [] = inl (status, data) ->
  failed status = true ->
  blank_eligible w ->
  (forall (c : Commit) (rest : list Commit) (next : string),
     dict_get sl (commit_sha c) = Some next ->
     walk_commits cfg sl (c :: rest) w = Ok (aborted w status data))
  /\ (selected_commits w <> [] ->
      finish_walk cfg w = Ok (reported (aborted w status data)))
  /\ finish_walk cfg (aborted w status data)
     = Ok (reported (aborted w status data))
  /\ walk_releases (reported (aborted w status data)) = walk_releases w
  /\ regenerate_releases (reported (aborted w status data))
     = regenerate_releases w
  /\ blank_eligible (reported (aborted w status data)).
Proof.
  intros Hm Hs Hf Hb.
  pose proof (get_release_content_fail cfg (walk_releases w) (cur_release w)
                _ _ _ Hs) as Hr.
  pose proof (list_mem_nonempty _ _ Hm) as Hn.
  repeat split.
  - intros c rest next Hd.
    rewrite (walk_boundary_fail cfg sl c rest w next "" status
               [ErrorContentMessage data] Hd Hm Hr Hf).
    reflexivity.
  - intros Hsel. unfold finish_walk.
    assert (Hl : (0 <? List.length (selected_commits w))%nat = true)
      by (destruct (selected_commits w); [contradiction | reflexivity]).
    rewrite Hl, Hm, Hr. cbn [andb py_bind]. rewrite Hf.
    cbn [py_bind regenerate_releases]. now rewrite Hn.
  - unfold finish_walk.
    change (selected_commits (aborted w status data)) with (@nil Commit).
    change (0 <? List.length (@nil Commit))%nat with false.
    cbn [andb py_bind].
    change (regenerate_releases (aborted w status data))
      with (regenerate_releases w).
    now rewrite Hn.
  - exact Hb.
Qed.

(** *** The releases still to render hold an empty content *)

Lemma dict_get_set_eq {V} (d : dict V) (k : string) (v : V) :
  dict_get (dict_set d k v) k = Some v.
Proof.
  induction d as [|[k' v'] d IH]; cbn [dict_set dict_get].
  - now rewrite String.eqb_refl.
  - destruct (String.eqb_spec k' k) as [E|E]; cbn [dict_get].
    + now rewrite String.eqb_refl.
    + apply String.eqb_neq in E. now rewrite E.
Qed.

Lemma dict_get_set_neq {V} (d : dict V) (k k' : string) (v : V) :
  k <> k' -> dict_get (dict_set d k v) k' = dict_get d k'.
Proof.
  intros Hk. induction d as [|[k0 v0] d IH]; cbn [dict_set dict_get].
  - apply String.eqb_neq in Hk. now rewrite Hk.
  - destruct (String.eqb_spec k0 k) as [E|E]; cbn [dict_get].
    + subst k0. apply String.eqb_neq in Hk. now rewrite Hk.
    + now rewrite IH.
Qed.

Lemma list_remove_In (x t : string) (l : list string) :
  In t (list_remove x l) -> In t l.
Proof.
  induction l as [|y l IH]; cbn [list_remove]; [tauto|].
  destruct (String.eqb y x); cbn [In]; tauto.
Qed.

Lemma list_remove_NoDup (x : string) (l : list string) :
  NoDup l -> NoDup (list_remove x l) /\ ~ In x (list_remove x l).
Proof.
  induction 1 as [|y l Hy Hl IH]; cbn [list_remove];
    [split; [constructor | tauto]|].
  destruct (String.eqb_spec y x) as [E|E].
  - subst y. auto.
  - destruct IH as [IH1 IH2]. split.
    + constructor; [|exact IH1]. intros Hin. apply Hy.
      now apply list_remove_In in Hin.
    + cbn [In]. tauto.
Qed.

Lemma firstn_incl {A} (n : nat) (l : list A) (x : A) :
  In x (firstn n l) -> In x l.
Proof.
  intros H. rewrite <- (firstn_skipn n l). apply in_or_app. now left.
Qed.

Lemma firstn_NoDup {A} (n : nat) (l : list A) : NoDup l -> NoDup (firstn n l).
Proof.
  revert n. induction l as [|a l IH]; intros n H; destruct n; cbn [firstn];
    try constructor.
  - inversion H as [|? ? Ha Hl]; subst. intros Hin. apply Ha.
    now apply firstn_incl in Hin.
  - inversion H; subst. now apply IH.
Qed.

Lemma NoDup_snoc (l : list string) (x : string) :
  NoDup l -> ~ In x l -> NoDup (l ++ [x]).
Proof.
  induction 1 as [|y l Hy Hl IH]; intros Hx; cbn [app].
  - constructor; [tauto | constructor].
  - constructor.
    + rewrite in_app_iff. cbn [In]. intros [H|[H|[]]]; [tauto|].
      subst. apply Hx. now left.
    + apply IH. intros H. apply Hx. now right.
Qed.

Lemma regenerate_initial_NoDup (cfg : Config) (ric : dict string)
    (rels : list ApiRelease) :
  NoDup (map tag_name rels) ->
  ~ In "Unreleased" (map tag_name rels) ->
  NoDup (regenerate_initial cfg ric rels).
Proof.
  intros Hn Hu. unfold regenerate_initial.
  set (start := if (regenerate_count cfg <? 0)%Z then map tag_name rels
                else firstn (Z.to_nat (regenerate_count cfg))
                       (map tag_name rels)).
  assert (Hs : NoDup start)
    by (unfold start; destruct (regenerate_count cfg <? 0)%Z;
        [exact Hn | now apply firstn_NoDup]).
  assert (Hsub : forall t, In t start -> In t (map tag_name rels)).
  { unfold start. destruct (regenerate_count cfg <? 0)%Z; [tauto|].
    intros t Ht. now apply firstn_incl in Ht. }
  set (f := fun regen r => _).
  assert (Hf : forall l regen, NoDup regen -> NoDup (fold_left f l regen)).
  { induction l as [|r l IH]; intros regen Hr; [exact Hr|].
    cbn [fold_left]. apply IH. unfold f.
    destruct (negb (dict_mem ric (tag_name r))); cbn [andb]; [|exact Hr].
    destruct (list_mem (tag_name r) regen) eqn:E; cbn [negb]; [exact Hr|].
    apply NoDup_snoc; [exact Hr | now apply list_mem_false]. }
  destruct (unreleased_commits cfg); [|now apply Hf].
  apply NoDup_snoc; [now apply Hf|].
  intros Hin. unfold f in Hin. apply regenerate_new_releases in Hin.
  destruct Hin as [Hin|[Hin _]]; auto.
Qed.

Lemma release_meta_blank (tags_sha ric : dict string) (regen : list string)
    (rels : list ApiRelease) :
  forall d : dict Release,
    (forall t r, In t regen -> dict_get d t = Some r -> content r = "") ->
    forall t r,
      In t regen ->
      dict_get (fold_left (release_meta tags_sha ric regen) rels d) t = Some r ->
      content r = "".
Proof.
  induction rels as [|rel rels IH]; intros d Hd; [exact Hd|].
  cbn [fold_left]. apply IH. intros t r Ht. unfold release_meta.
  destruct (String.eqb_spec (tag_name rel) t) as [E|E].
  - subst t. rewrite dict_get_set_eq. intros [= <-]. cbn [content].
    apply list_mem_In in Ht. rewrite Ht.
    now destruct (dict_get ric (tag_name rel)).
  - rewrite dict_get_set_neq by exact E. now apply Hd.
Qed.

Lemma start_walk_blank (cfg : Config) (api : Api) (st : State) :
  releases st = [] ->
  NoDup (map tag_name (api_releases api)) ->
  ~ In "Unreleased" (map tag_name (api_releases api)) ->
  NoDup (regenerate_releases (start_walk cfg api st))
  /\ blank_eligible (start_walk cfg api st).
Proof.
  intros Hr Hn Hu. split.
  - now apply regenerate_initial_NoDup.
  - unfold blank_eligible, start_walk. cbn [regenerate_releases walk_releases].
    apply release_meta_blank. rewrite Hr. unfold seed_unreleased.
    destruct (unreleased_commits cfg); cbn [dict_set dict_get];
      [|discriminate].
    intros t r _. destruct (String.eqb "Unreleased" t); [|discriminate].
    now intros [= <-].
Qed.

Lemma render_keeps_blank (w : Walk) (release_content : string)
    (releases' : dict Release) :
  NoDup (regenerate_releases w) -> blank_eligible w ->
  store_content (walk_releases w) (cur_release w) release_content
    = Ok releases' ->
  forall t r,
    In t (list_remove (cur_release w) (regenerate_releases w)) ->
    dict_get releases' t = Some r -> content r = "".
Proof.
  intros Hn Hb Hs t r Ht. unfold store_content in Hs.
  destruct (dict_get (walk_releases w) (cur_release w)) as [r0|];
    [|discriminate].
  injection Hs as Hs. subst releases'.
  destruct (list_remove_NoDup (cur_release w) _ Hn) as [_ Hx].
  assert (Hne : cur_release w <> t) by (intros E; subst t; contradiction).
  rewrite dict_get_set_neq by exact Hne.
  apply Hb. now apply list_remove_In in Ht.
Qed.

Lemma walk_commits_blank (cfg : Config) (sl : dict string)
    (commits : list Commit) :
  forall w w',
    NoDup (regenerate_releases w) -> blank_eligible w ->
    walk_commits cfg sl commits w = Ok w' ->
    NoDup (regenerate_releases w') /\ blank_eligible w'.
Proof.
  induction commits as [|c rest IH]; intros w w' Hn Hb;
    cbn [walk_commits]; [now intros [= <-]|].
  destruct (dict_get sl (commit_sha c)) as [next|]; [|now apply IH].
  destruct (list_mem (cur_release w) (regenerate_releases w));
    [|now apply IH].
  destruct (get_release_content cfg (walk_releases w) (cur_release w)
              (selected_commits w)) as [[[rc sc] out]|e];
    cbn [py_bind]; [|discriminate].
  destruct (failed sc); [now intros [= <-]|].
  destruct (store_content (walk_releases w) (cur_release w) rc)
    as [releases'|e] eqn:Es; cbn [py_bind]; [|discriminate].
  pose proof (render_keeps_blank w rc releases' Hn Hb Es) as Hk.
  destruct (list_remove_NoDup (cur_release w) _ Hn) as [Hn' _].
  destruct (List.length _ <=? 0)%nat.
  - intros [= <-]. split; assumption.
  - apply IH; assumption.
Qed.

Lemma finish_walk_blank (cfg : Config) (w w' : Walk) :
  NoDup (regenerate_releases w) -> blank_eligible w ->
  finish_walk cfg w = Ok w' ->
  NoDup (regenerate_releases w') /\ blank_eligible w'.
Proof.
  intros Hn Hb. unfold finish_walk.
  assert (G : forall w1 w2,
             NoDup (regenerate_releases w1) -> blank_eligible w1 ->
             (if (0 <? List.length (regenerate_releases w1))%nat
              then Ok (reported w1) else Ok w1) = Ok w2 ->
             NoDup (regenerate_releases w2) /\ blank_eligible w2).
  { intros w1 w2 H1 H2.
    destruct (0 <? List.length (regenerate_releases w1))%nat;
      intros [= <-]; split; assumption. }
  destruct ((0 <? List.length (selected_commits w))%nat
            && list_mem (cur_release w) (regenerate_releases w));
    [|cbn [py_bind]; now apply G].
  destruct (get_release_content cfg (walk_releases w) (cur_release w)
              (selected_commits w)) as [[[rc sc] out]|e];
    cbn [py_bind]; [|discriminate].
  destruct (failed sc); cbn [py_bind]; [now apply G|].
  destruct (store_content (walk_releases w) (cur_release w) rc)
    as [releases'|e] eqn:Es; cbn [py_bind]; [|discriminate].
  pose proof (render_keeps_blank w rc releases' Hn Hb Es) as Hk.
  destruct (list_remove_NoDup (cur_release w) _ Hn) as [Hn' _].
  now apply G.
Qed.

(** In every run on a fresh object, over releases with pairwise different
    tags none of which is [Unreleased], the releases that [get_data]
    reports as left hold an empty content. *)
Lemma reconcile_left_blank (cfg : Config) (api : Api) (st : State) (w : Walk) :
  releases st = [] ->
  NoDup (map tag_name (api_releases api)) ->
  ~ In "Unreleased" (map tag_name (api_releases api)) ->
  reconcile cfg api st = Ok w ->
  blank_eligible w.
Proof.
  intros Hr Hn Hu. unfold reconcile.
  destruct (start_walk_blank cfg api st Hr Hn Hu) as [H1 H2].
  destruct (get_github_commits api) as [[commits out]|e]; cbn [py_bind];
    [|discriminate].
  set (w0 := {| cur_release := _ |}).
  assert (H1' : NoDup (regenerate_releases w0)) by exact H1.
  assert (H2' : blank_eligible w0) by exact H2.
  destruct (0 <? List.length (regenerate_releases w0))%nat.
  - destruct (walk_commits cfg _ commits w0) as [w1|e] eqn:E;
      cbn [py_bind]; [|discriminate].
    destruct (walk_commits_blank _ _ _ _ _ H1' H2' E) as [H3 H4].
    intros Hf. now apply (finish_walk_blank _ _ _ H3 H4 Hf).
  - cbn [py_bind]. intros Hf. now apply (finish_walk_blank _ _ _ H1' H2' Hf).
Qed.

Lemma walk_refused_blank : blank_eligible Sample.walk_refused.
Proof.
  intros t r [<-|[]] H. cbn in H. now injection H as <-.
Qed.

Lemma render_failure_policy_witness :
  finish_walk Sample.cfg_refused Sample.walk_refused
  = Ok {| cur_release := "v0";
          selected_commits := [];
          regenerate_releases := ["v0"];
          walk_releases :=
            [("v0", release_entry Sample.rel0 "c1c1c1c1c1" "")];
          walk_out :=
            [InfoRegenerate ["v0"];
             ErrorContentMessage "rate limit exceeded";
             ErrorContentStatus "403"; WarnLeft ["v0"]] |}.
Proof.
  destruct (render_failure_policy Sample.cfg_refused [] Sample.walk_refused
              403 "rate limit exceeded" eq_refl eq_refl eq_refl
              walk_refused_blank) as (_ & H & _).
  apply H. discriminate.
Defined.

(** C8, as the specification words it, fails for the releases that are
    left: [v0] is in the existing changelog and eligible, its rendering
    is refused with status 403, and its content ends up empty, not the
    block of the existing changelog; the assembled document no longer
    holds [v0]. *)
Lemma render_failure_counterexample :
  get_data Sample.cfg_refused Sample.api_refused init_state
  = Ok {| releases := [("v0", release_entry Sample.rel0 "c1c1c1c1c1" "")];
          changelog := Sample.prior;
          release_in_changelog := [("v0", Sample.prior_v0)];
          file_exists := true;
          stdout :=
            [InfoRegenerate ["v0"];
             ErrorContentMessage "rate limit exceeded";
             ErrorContentStatus "403"; WarnLeft ["v0"]] |}
  /\ Sample.prior_v0 <> ""
  /\ main_local Sample.cfg_refused Sample.api_refused
     = Ok (BEGIN_CHANGELOG_TITLE ++ nl ++ nl ++ END_CHANGELOG_SIGNATURE ++ nl).
Proof. repeat split; try reflexivity. discriminate. Qed.

(** ** Round trip: assembling a document and parsing it back *)

Lemma sep_prefix_tail (x t : string) :
  x <> "" -> prefix RELEASE_SEP x = false ->
  prefix RELEASE_SEP (x ++ nl ++ nl ++ t) = false.
Proof.
  intros Hx Hp.
  destruct x as [|c1 [|c2 [|c3 [|c4 [|c5 x]]]]]; [contradiction| | | | |].
  5:{ rewrite prefix_append_long; [exact Hp | simpl; lia]. }
  all: clear; unfold RELEASE_SEP, nl, nl_char; cbn [String.append].
  all: rewrite !prefix_cons.
  all: change (Ascii.eqb "#" (ascii_of_nat 10)) with false;
       change (Ascii.eqb " " (ascii_of_nat 10)) with false.
  all: now rewrite ?andb_false_r.
Qed.

Lemma sep_no_occ (s t : string) :
  contains RELEASE_SEP s = false ->
  no_occ_before RELEASE_SEP s (nl ++ nl ++ t) = true.
Proof.
  induction s as [|c s IH]; intros H; [reflexivity|].
  rewrite contains_cons in H. apply orb_false_iff in H as [Hp Hc].
  rewrite no_occ_before_cons, (IH Hc), andb_true_r.
  apply negb_true_iff.
  change (String c (s ++ nl ++ nl ++ t)) with (String c s ++ nl ++ nl ++ t).
  apply sep_prefix_tail; [discriminate | exact Hp].
Qed.

Lemma assemble_fold (vs : list Release) (acc : string) :
  fold_left
    (fun changelog release =>
       if negb (String.eqb (content release) "")
       then changelog ++ nl ++ nl ++ strip_nl (content release)
       else changelog) vs acc
  = acc ++ cat (map (fun r => block_text (content r)) vs).
Proof.
  revert acc. induction vs as [|r vs IH]; intros acc; cbn [fold_left map cat fold_right].
  - now rewrite append_nil_r.
  - rewrite IH. unfold block_text at 2.
    destruct (String.eqb (content r) ""); cbn [negb].
    + reflexivity.
    + fold (cat (map (fun r0 => block_text (content r0)) vs)).
      now rewrite !append_assoc.
Qed.

Lemma assemble_text (rels : dict Release) :
  assemble_changelog rels
  = BEGIN_CHANGELOG_TITLE
    ++ (cat (map (fun e => block_text (content (snd e))) rels) ++ nl ++ nl)
    ++ (END_CHANGELOG_SIGNATURE ++ nl).
Proof.
  unfold assemble_changelog, dict_values. rewrite assemble_fold, map_map.
  now rewrite !append_assoc.
Qed.

Lemma analyze_assembled (rels : dict Release) :
  analyze_changelog (assemble_changelog rels) []
  = fold_left analyze_segment
      (split RELEASE_SEP
         (cat (map (fun e => block_text (content (snd e))) rels) ++ nl ++ nl))
      ([], []).
Proof.
  rewrite assemble_text. unfold analyze_changelog.
  unfold startswith. rewrite prefix_append.
  replace (BEGIN_CHANGELOG_TITLE
           ++ (cat (map (fun e => block_text (content (snd e))) rels) ++ nl ++ nl)
           ++ END_CHANGELOG_SIGNATURE ++ nl)
    with ((BEGIN_CHANGELOG_TITLE
           ++ (cat (map (fun e => block_text (content (snd e))) rels) ++ nl ++ nl))
          ++ (END_CHANGELOG_SIGNATURE ++ nl)) at 1
    by now rewrite !append_assoc.
  rewrite endswith_append. cbn [andb].
  rewrite slice_append. reflexivity.
Qed.

Lemma sep_nonempty : RELEASE_SEP <> "".
Proof. discriminate. Qed.

(** The body of a document cut at the separator. *)
Lemma split_body (s : string) (segs : list string) :
  Forall (fun x => contains RELEASE_SEP x = false) (s :: segs) ->
  split RELEASE_SEP
    (s ++ cat (map (fun x => RELEASE_SEP ++ x) segs) ++ nl ++ nl)
  = tail_segments (s :: segs).
Proof.
  revert s. induction segs as [|s' segs IH]; intros s H.
  - cbn [map cat fold_right String.append tail_segments].
    inversion H as [|? ? Hs _]; subst.
    rewrite (split_before RELEASE_SEP s (nl ++ nl));
      [reflexivity | now apply (sep_no_occ s "")].
  - inversion H as [|? ? Hs H']; subst.
    cbn [map cat fold_right].
    fold (cat (map (fun x => RELEASE_SEP ++ x) segs)).
    rewrite !append_assoc.
    rewrite split_at_sep; [|exact sep_nonempty|].
    + rewrite (IH s' H'). reflexivity.
    + apply (sep_no_occ s ("## " ++ s' ++ cat (map (fun x => RELEASE_SEP ++ x) segs) ++ nl ++ nl) Hs).
Qed.

Lemma until_close_tag (tag r : string) :
  no_close tag = true -> until_close (tag ++ "]" ++ r) = Some tag.
Proof.
  induction tag as [|c tag IH]; intros H; [reflexivity|].
  cbn [no_close] in H. apply andb_prop in H as [H H3].
  apply andb_prop in H as [H1 H2].
  apply negb_true_iff in H1, H2.
  change (String c tag ++ "]" ++ r) with (String c (tag ++ "]" ++ r)).
  cbn [until_close]. now rewrite H1, H2, (IH H3).
Qed.

Lemma slice_brackets (tag : string) : slice 1 1 ("[" ++ tag ++ "]") = tag.
Proof.
  apply (slice_append "[" tag "]").
Qed.

(** What the parser makes of a segment it has written itself, with or
    without the blank line that ends the body. *)
Lemma analyze_segment_ok (tag s sfx : string) (acc : dict string * list LogLine) :
  rstrip_nl s = s ->
  prefix "Unreleased" s = true
  \/ (prefix ("[" ++ tag ++ "]") s = true /\ no_close tag = true) ->
  sfx = "" \/ sfx = nl ++ nl ->
  analyze_segment acc (s ++ sfx)
  = if prefix "Unreleased" s then acc
    else (dict_set (fst acc) tag ("## " ++ s), snd acc).
Proof.
  intros Hr Hk Hsfx. unfold analyze_segment, startswith.
  destruct (prefix "Unreleased" s) eqn:Hu.
  - now rewrite (prefix_append_l _ _ sfx Hu).
  - destruct Hk as [Hk|[Hp Hn]]; [discriminate|].
    apply prefix_inv in Hp. set (r := drop _ s) in Hp.
    assert (Es : s ++ sfx = String "[" (tag ++ "]" ++ r ++ sfx)).
    { rewrite Hp. cbn [String.append]. now rewrite !append_assoc. }
    rewrite Es. cbn [prefix orb String.eqb search_bracket].
    change (is_char "[" "[") with true. cbn iota.
    rewrite (until_close_tag tag (r ++ sfx) Hn).
    rewrite slice_brackets. rewrite <- Es.
    assert (St : strip_nl (s ++ sfx) = s).
    { unfold strip_nl. rewrite Es, lstrip_keep by reflexivity. rewrite <- Es.
      destruct Hsfx as [->| ->].
      - now rewrite append_nil_r.
      - replace (s ++ nl ++ nl) with ((s ++ nl) ++ nl) by now rewrite append_assoc.
        now rewrite !rstrip_append_nl. }
    now rewrite St.
Qed.

Lemma block_ok_inv (tag c : string) :
  block_ok tag c = true -> c <> "" ->
  strip_nl c = "## " ++ segment c
  /\ contains RELEASE_SEP (segment c) = false
  /\ rstrip_nl (segment c) = segment c
  /\ (prefix "Unreleased" (segment c) = true
      \/ (prefix ("[" ++ tag ++ "]") (segment c) = true /\ no_close tag = true))
  /\ unreleased_block c = prefix "Unreleased" (segment c).
Proof.
  intros H Hc. unfold block_ok in H. apply String.eqb_neq in Hc.
  rewrite Hc in H. cbn [orb] in H.
  apply andb_prop in H as [H H3]. apply andb_prop in H as [H1 H2].
  apply negb_true_iff in H2. fold (segment c) in H2, H3.
  apply prefix_inv in H1. change (drop (String.length "## ") (strip_nl c))
    with (segment c) in H1.
  assert (Hr : rstrip_nl (segment c) = segment c).
  { destruct (strip_trimmed c) as [_ Hr]. rewrite H1 in Hr.
    change ("## " ++ segment c)
      with (String "#" (String "#" (String " " (segment c)))) in Hr.
    rewrite !rstrip_cons_keep in Hr by reflexivity. now injection Hr. }
  repeat split; try assumption.
  - apply orb_prop in H3 as [H3|H3]; [now left|].
    apply andb_prop in H3. now right.
  - unfold unreleased_block. rewrite H1. reflexivity.
Qed.

Lemma dict_set_fresh {V} (d : dict V) (k : string) (v : V) :
  ~ In k (dict_keys d) -> dict_set d k v = (d ++ [(k, v)])%list.
Proof.
  induction d as [|[k' v'] d IH]; intros H; [reflexivity|].
  cbn [dict_set app]. cbn [dict_keys map fst In] in H.
  destruct (String.eqb_spec k' k) as [E|E]; [tauto|].
  rewrite IH; [reflexivity|]. intros Hin. apply H. now right.
Qed.

Lemma stored_blocks_cons (e : string * Release) (L : dict Release) :
  stored_blocks (e :: L)
  = ((if negb (String.eqb (content (snd e)) "")
         && negb (unreleased_block (content (snd e)))
      then [(fst e, strip_nl (content (snd e)))] else [])
     ++ stored_blocks L)%list.
Proof.
  unfold stored_blocks. cbn [filter].
  now destruct (negb (String.eqb (content (snd e)) "")
                && negb (unreleased_block (content (snd e)))).
Qed.

Lemma fold_segments (L : dict Release) :
  forall (d : dict string) (out : list LogLine),
    (forall e, In e L ->
               content (snd e) <> ""
               /\ block_ok (fst e) (content (snd e)) = true) ->
    NoDup (map fst L) ->
    (forall e, In e L -> ~ In (fst e) (dict_keys d)) ->
    fold_left analyze_segment
      (tail_segments (map (fun e => segment (content (snd e))) L)) (d, out)
    = ((d ++ stored_blocks L)%list, out).
Proof.
  induction L as [|e L IH]; intros d out Hok Hn Hf.
  - cbn. now rewrite app_nil_r.
  - destruct (Hok e (or_introl eq_refl)) as [Hc Hb].
    destruct (block_ok_inv _ _ Hb Hc) as (Hs & _ & Hr & Hk & Hu).
    assert (Step : forall sfx, sfx = "" \/ sfx = nl ++ nl ->
              analyze_segment (d, out) (segment (content (snd e)) ++ sfx)
              = ((d ++ (if negb (String.eqb (content (snd e)) "")
                           && negb (unreleased_block (content (snd e)))
                        then [(fst e, strip_nl (content (snd e)))] else []))%list,
                 out)).
    { intros sfx Hsfx.
      rewrite (analyze_segment_ok (fst e) _ sfx (d, out) Hr Hk Hsfx).
      apply String.eqb_neq in Hc. rewrite Hc, Hu. cbn [negb andb].
      destruct (prefix "Unreleased" (segment (content (snd e)))); cbn [negb].
      - now rewrite app_nil_r.
      - cbn [fst snd]. rewrite dict_set_fresh, Hs; [reflexivity|].
        apply Hf. now left. }
    rewrite stored_blocks_cons, app_assoc.
    inversion Hn as [|? ? Hx Hn']; subst.
    destruct L as [|e' L'].
    + cbn [map tail_segments fold_left].
      rewrite (Step (nl ++ nl) (or_intror eq_refl)).
      unfold stored_blocks. cbn [filter map]. now rewrite app_nil_r.
    + change (tail_segments (map (fun e0 => segment (content (snd e0))) (e :: e' :: L')))
        with (segment (content (snd e))
              :: tail_segments (map (fun e0 => segment (content (snd e0))) (e' :: L'))).
      cbn [fold_left].
      rewrite <- (append_nil_r (segment (content (snd e)))).
      rewrite (Step "" (or_introl eq_refl)).
      apply IH.
      * intros e0 H0. apply Hok. now right.
      * exact Hn'.
      * intros e0 H0 Hin. unfold dict_keys in Hin.
        rewrite map_app, in_app_iff in Hin. destruct Hin as [Hin|Hin].
        -- apply (Hf e0); [now right | exact Hin].
        -- destruct (negb (String.eqb (content (snd e)) "")
                     && negb (unreleased_block (content (snd e))));
             cbn [map In fst] in Hin; [|tauto].
           destruct Hin as [E|[]]. apply Hx. rewrite E.
           now apply in_map.
Qed.

Lemma distinct_NoDup (l : list string) : distinct l = true -> NoDup l.
Proof.
  induction l as [|x l IH]; cbn [distinct]; intros H; [constructor|].
  apply andb_prop in H as [H1 H2]. apply negb_true_iff in H1.
  constructor; [now apply list_mem_false | now apply IH].
Qed.

Lemma NoDup_map_filter {A} (f : A -> string) (p : A -> bool) (l : list A) :
  NoDup (map f l) -> NoDup (map f (filter p l)).
Proof.
  induction l as [|a l IH]; cbn [map filter]; intros H; [constructor|].
  inversion H as [|? ? Ha Hl]; subst.
  destruct (p a); cbn [map]; [|now apply IH].
  constructor; [|now apply IH].
  intros Hin. apply Ha. apply in_map_iff in Hin as (b & Eb & Hb).
  apply filter_In in Hb as [Hb _]. rewrite <- Eb. now apply in_map.
Qed.

Section RoundTrip.

Variable rels : dict Release.
Hypothesis Hok :
  forall e, In e rels -> block_ok (fst e) (content (snd e)) = true.

Let live : dict Release :=
  filter (fun e => negb (String.eqb (content (snd e)) "")) rels.

Lemma body_segments :
  cat (map (fun e => block_text (content (snd e))) rels)
  = cat (map (fun x => RELEASE_SEP ++ x)
           (map (fun e => segment (content (snd e))) live)).
Proof.
  unfold live. clear live. induction rels as [|e l IH]; [reflexivity|].
  cbn [map filter cat fold_right].
  fold (cat (map (fun e0 => block_text (content (snd e0))) l)).
  rewrite IH by (intros e0 H0; apply Hok; now right).
  unfold block_text at 1.
  destruct (String.eqb_spec (content (snd e)) "") as [E|E]; cbn [negb].
  - reflexivity.
  - cbn [map cat fold_right].
    destruct (block_ok_inv _ _ (Hok e (or_introl eq_refl)) E) as (Hs & _).
    rewrite Hs. cbn [String.append]. unfold RELEASE_SEP. cbn [String.append].
    now rewrite !append_assoc.
Qed.

Lemma stored_blocks_live : stored_blocks rels = stored_blocks live.
Proof.
  unfold live, stored_blocks. clear. induction rels as [|e l IH]; [reflexivity|].
  cbn [filter].
  destruct (String.eqb (content (snd e)) "") eqn:E; cbn [negb andb filter].
  - exact IH.
  - rewrite E. cbn [negb andb].
    destruct (negb (unreleased_block (content (snd e)))); cbn [map];
      now rewrite IH.
Qed.

Lemma analyze_assembled_blocks :
  NoDup (dict_keys rels) ->
  fst (analyze_changelog (assemble_changelog rels) []) = stored_blocks rels.
Proof.
  intros Hn. rewrite analyze_assembled, body_segments, stored_blocks_live.
  assert (Hl : forall e, In e live ->
                 content (snd e) <> ""
                 /\ block_ok (fst e) (content (snd e)) = true).
  { intros e He. apply filter_In in He as [He Hc]. split; [|now apply Hok].
    apply negb_true_iff in Hc. now apply String.eqb_neq. }
  assert (Hn' : NoDup (map fst live)) by now apply NoDup_map_filter.
  destruct live as [|e L] eqn:El.
  - reflexivity.
  - cbn [map cat fold_right].
    fold (cat (map (fun x => RELEASE_SEP ++ x)
                 (map (fun e0 => segment (content (snd e0))) L))).
    rewrite !append_assoc.
    rewrite split_at_start by exact sep_nonempty.
    rewrite split_body.
    + change (fold_left analyze_segment
                ("" :: tail_segments
                         (segment (content (snd e))
                          :: map (fun e0 => segment (content (snd e0))) L))
                ([], []))
        with (fold_left analyze_segment
                (tail_segments
                   (map (fun e0 => segment (content (snd e0))) (e :: L)))
                ([], [])).
      assert (Hfold := fold_segments (e :: L) [] [] Hl Hn'
                         (fun e0 _ (H : In (fst e0) (dict_keys [])) => H)).
      etransitivity; [apply f_equal; exact Hfold | reflexivity].
    + change (segment (content (snd e))
              :: map (fun e0 => segment (content (snd e0))) L)
        with (map (fun e0 => segment (content (snd e0))) (e :: L)).
      apply Forall_forall. intros x Hx.
      apply in_map_iff in Hx as (e0 & <- & He0).
      destruct (Hl e0 He0) as [Hc Hb].
      now destruct (block_ok_inv _ _ Hb Hc) as (_ & H & _).
Qed.

Lemma reassemble_blocks :
  assemble_changelog (blocks_as_releases (stored_blocks rels))
  = assemble_changelog
      (filter (fun e => negb (unreleased_block (content (snd e)))) rels).
Proof.
  rewrite !assemble_text. do 2 f_equal. f_equal.
  unfold blocks_as_releases, stored_blocks. clear live.
  induction rels as [|e l IH]; [reflexivity|].
  specialize (IH (fun e0 H0 => Hok e0 (or_intror H0))).
  cbn [filter].
  destruct (String.eqb_spec (content (snd e)) "") as [E|E]; cbn [negb andb].
  - replace (unreleased_block (content (snd e))) with false
      by (rewrite E; reflexivity).
    cbn [negb map cat fold_right]. rewrite E.
    change (block_text "") with "". exact IH.
  - destruct (block_ok_inv _ _ (Hok e (or_introl eq_refl)) E) as (Hs & _).
    destruct (unreleased_block (content (snd e))); cbn [negb]; [exact IH|].
    cbn [map cat fold_right fst snd content set_content].
    f_equal; [|exact IH].
    unfold block_text. rewrite strip_idem.
    apply String.eqb_neq in E. rewrite E, Hs. reflexivity.
Qed.

End RoundTrip.

(** X24.  For a dictionary of releases with pairwise different tags in
    which every content is empty or, once stripped, opens with
    [## Unreleased] or with [## [tag]] for its own tag (a tag without
    closing bracket or newline) and holds no separator ["\n\n## "] after
    that, parsing the assembled document gives back, in the order of the
    document, every block but the empty ones and the one of [Unreleased],
    each under its tag and stripped; reassembling these blocks gives the
    document of the releases without [Unreleased], byte for byte. *)
Theorem round_trip (rels : dict Release) :
  distinct (dict_keys rels) = true ->
  forallb (fun e => block_ok (fst e) (content (snd e))) rels = true ->
  fst (analyze_changelog (assemble_changelog rels) []) = stored_blocks rels
  /\ assemble_changelog
       (blocks_as_releases
          (fst (analyze_changelog (assemble_changelog rels) [])))
     = assemble_changelog
         (filter (fun e => negb (unreleased_block (content (snd e)))) rels).
Proof.
  intros Hd Hf. apply distinct_NoDup in Hd.
  assert (Hok : forall e, In e rels ->
                  block_ok (fst e) (content (snd e)) = true)
    by (intros e He; now apply (proj1 (forallb_forall _ _) Hf e He)).
  rewrite (analyze_assembled_blocks rels Hok Hd).
  split; [reflexivity | now apply reassemble_blocks].
Qed.

Lemma round_trip_witness :
  fst (analyze_changelog
         (assemble_changelog
            [("Unreleased",
              set_content unreleased_entry Sample.block_unreleased);
             ("v1", release_entry Sample.rel1 "c3c3c3c3c3" Sample.block_v1);
             ("v0", release_entry Sample.rel0 "c1c1c1c1c1" Sample.block_v0)])
         [])
  = [("v1", Sample.block_v1); ("v0", Sample.block_v0)]
  /\ assemble_changelog
       (blocks_as_releases
          (fst (analyze_changelog
                  (assemble_changelog
                     [("Unreleased",
                       set_content unreleased_entry Sample.block_unreleased);
                      ("v1",
                       release_entry Sample.rel1 "c3c3c3c3c3" Sample.block_v1);
                      ("v0",
                       release_entry Sample.rel0 "c1c1c1c1c1" Sample.block_v0)])
                  [])))
     = assemble_changelog
         [("v1", release_entry Sample.rel1 "c3c3c3c3c3" Sample.block_v1);
          ("v0", release_entry Sample.rel0 "c1c1c1c1c1" Sample.block_v0)].
Proof.
  apply (round_trip
           [("Unreleased",
             set_content unreleased_entry Sample.block_unreleased);
            ("v1", release_entry Sample.rel1 "c3c3c3c3c3" Sample.block_v1);
            ("v0", release_entry Sample.rel0 "c1c1c1c1c1" Sample.block_v0)]);
    reflexivity.
Defined.

(** C5.  The round trip fails for a release whose description holds a
    heading of the second level, such as the [## What's Changed] of
    release notes.  A first run writes the document with the whole
    description.  The parser cuts the block at that heading, the
    separator it expects between two releases, and drops the part that
    carries no bracket, with a warning: the reassembled document is not
    the one that was written.  A second run with nothing new to render
    then finds a changelog that differs from the file and writes it back
    with the description of the release cut short. *)
Theorem round_trip_failing_input :
  main_local Sample.cfg_notes Sample.api_notes = Ok Sample.doc_notes
  /\ analyze_changelog Sample.doc_notes []
     = ([("v1",
          "## [v1](https://example.org/r/v1) - 2021-12-29" ++ nl ++ nl
          ++ "Intro")],
        [WarnBadPart "Notes"])
  /\ assemble_changelog
       (blocks_as_releases (fst (analyze_changelog Sample.doc_notes [])))
     <> Sample.doc_notes
  /\ main_local Cases.cfg_new_only Cases.api_notes_written
     = Ok Cases.doc_notes_cut
  /\ Cases.doc_notes_cut <> Sample.doc_notes
  /\ written (fst (main_github Cases.cfg_new_only Cases.inputs None
                     Cases.api_notes_written Cases.wapi_ok))
     = [Cases.doc_notes_cut].
Proof.
  split; [reflexivity|]. split; [reflexivity|].
  split; [discriminate|]. split; [reflexivity|].
  split; [discriminate | reflexivity].
Qed.

(** ** Commit classifier: grouping by scope *)

Lemma scopes_append_get (scopes : dict (list ScopedCommit)) (k k' : string)
    (x : ScopedCommit) :
  dict_get (scopes_append scopes k x) k'
  = if String.eqb k k'
    then Some (match dict_get scopes k with
               | Some l => (l ++ [x])%list
               | None => [x]
               end)
    else dict_get scopes k'.
Proof.
  induction scopes as [|[k0 l0] scopes IH]; cbn [scopes_append dict_get].
  - reflexivity.
  - destruct (String.eqb_spec k0 k) as [E|E]; cbn [dict_get].
    + subst k0. now destruct (String.eqb k k').
    + rewrite IH. destruct (String.eqb_spec k k') as [E'|E'].
      * subst k'. apply String.eqb_neq in E. now rewrite E.
      * reflexivity.
Qed.

Lemma scopes_append_keys (scopes : dict (list ScopedCommit)) (k : string)
    (x : ScopedCommit) :
  dict_keys (scopes_append scopes k x)
  = if list_mem k (dict_keys scopes) then dict_keys scopes
    else (dict_keys scopes ++ [k])%list.
Proof.
  induction scopes as [|[k0 l0] scopes IH];
    cbn [scopes_append dict_keys map fst list_mem app]; [reflexivity|].
  destruct (String.eqb k0 k); cbn [orb map fst]; [reflexivity|].
  fold (dict_keys scopes). fold (dict_keys (scopes_append scopes k x)).
  rewrite IH. now destruct (list_mem k (dict_keys scopes)).
Qed.

(** One turn of the loop, in terms of the scope of the commit. *)
Lemma strip_commits_step_scope (T d : string) (s : bool)
    (scopes : dict (list ScopedCommit)) (c : SelectedCommit) :
  strip_commits_step T d s scopes c
  = match scope_of T d s c with
    | Some k => scopes_append scopes k (scoped T c)
    | None => scopes
    end.
Proof.
  unfold strip_commits_step, scope_of, dropped, scoped.
  destruct (match_type T (head c)) as [scope0|]; [|reflexivity].
  destruct (String.eqb scope0 "" && s); cbn [orb]; [reflexivity|].
  now destruct (String.eqb (lower _) "changelog" && _).
Qed.

Lemma strip_commits_fold_keys (T d : string) (s : bool)
    (cs : list SelectedCommit) :
  forall scopes : dict (list ScopedCommit),
    dict_keys (fold_left (strip_commits_step T d s) cs scopes)
    = fold_left (fun acc x => if list_mem x acc then acc else (acc ++ [x])%list)
        (scopes_of T d s cs) (dict_keys scopes).
Proof.
  induction cs as [|c cs IH]; intros scopes; [reflexivity|].
  cbn [fold_left scopes_of flat_map]. rewrite fold_left_app, IH.
  rewrite strip_commits_step_scope.
  destruct (scope_of T d s c) as [k|]; cbn [fold_left]; [|reflexivity].
  now rewrite scopes_append_keys.
Qed.

Lemma strip_commits_fold_get (T d : string) (s : bool)
    (cs : list SelectedCommit) (k : string) :
  forall scopes : dict (list ScopedCommit),
    dict_get (fold_left (strip_commits_step T d s) cs scopes) k
    = match dict_get scopes k, filter (in_scope T d s k) cs with
      | None, [] => None
      | None, g => Some (map (scoped T) g)
      | Some l, g => Some (l ++ map (scoped T) g)%list
      end.
Proof.
  induction cs as [|c cs IH]; intros scopes.
  - cbn [fold_left filter map]. destruct (dict_get scopes k); [|reflexivity].
    now rewrite app_nil_r.
  - cbn [fold_left filter]. rewrite IH, strip_commits_step_scope.
    assert (Hin : in_scope T d s k c
                  = match scope_of T d s c with
                    | Some k' => String.eqb k' k
                    | None => false
                    end) by reflexivity.
    rewrite Hin. clear Hin.
    destruct (scope_of T d s c) as [k'|]; [|reflexivity].
    rewrite scopes_append_get.
    destruct (String.eqb_spec k' k) as [E|E].
    + subst k'. cbn [map].
      destruct (dict_get scopes k) as [l|].
      * now rewrite <- app_assoc.
      * reflexivity.
    + reflexivity.
Qed.

(** X1.  For a type that is a plain keyword, [strip_commits] groups the
    commits it keeps by scope: the scopes come in the order in which their
    first commit comes, and under each scope are the commits filed under
    it, in the order of the commit list, each with its head stripped of
    the type prefix; a scope without commit is not a key. *)
Theorem strip_commits_groups (cs : list SelectedCommit) (T d : string)
    (s : bool) :
  keyword T = true ->
  dict_keys (strip_commits cs T d s) = first_seen (scopes_of T d s cs)
  /\ forall k : string,
       dict_get (strip_commits cs T d s) k
       = match filter (in_scope T d s k) cs with
         | [] => None
         | g => Some (map (scoped T) g)
         end.
Proof.
  intros _. split.
  - unfold strip_commits, first_seen. now rewrite strip_commits_fold_keys.
  - intros k. unfold strip_commits. now rewrite strip_commits_fold_get.
Qed.

Lemma strip_commits_groups_witness :
  dict_keys (strip_commits Sample.s32 "fix" "general" false) = ["core"]
  /\ dict_get (strip_commits Sample.s32 "fix" "general" false) "ui" = None.
Proof.
  destruct (strip_commits_groups Sample.s32 "fix" "general" false eq_refl)
    as [H1 H2].
  split; [exact H1 | exact (H2 "ui")].
Defined.

(** ** Section renderer: the layout of a section *)

Lemma fold_append_cat {A} (f : A -> string) (l : list A) (acc : string) :
  fold_left (fun a x => a ++ f x) l acc = acc ++ cat (map f l).
Proof.
  revert acc. induction l as [|x l IH]; intros acc; cbn [fold_left map cat fold_right].
  - now rewrite append_nil_r.
  - rewrite IH. fold (cat (map f l)). now rewrite append_assoc.
Qed.

Lemma first_seen_fold_NoDup (l : list string) :
  forall acc : list string,
    NoDup acc ->
    NoDup (fold_left
             (fun acc x => if list_mem x acc then acc else (acc ++ [x])%list)
             l acc).
Proof.
  induction l as [|x l IH]; intros acc H; [exact H|].
  cbn [fold_left]. apply IH.
  destruct (list_mem x acc) eqn:E; [exact H|].
  apply NoDup_snoc; [exact H | now apply list_mem_false].
Qed.

Lemma first_seen_fold_incl (l : list string) :
  forall (acc : list string) (x : string),
    In x acc ->
    In x (fold_left
            (fun acc x => if list_mem x acc then acc else (acc ++ [x])%list)
            l acc).
Proof.
  induction l as [|y l IH]; intros acc x H; [exact H|].
  cbn [fold_left]. apply IH.
  destruct (list_mem y acc); [exact H|]. apply in_or_app. now left.
Qed.

Lemma first_seen_nil (l : list string) : first_seen l = [] <-> l = [].
Proof.
  split; [|now intros ->].
  destruct l as [|x l]; [reflexivity|]. unfold first_seen. cbn [fold_left list_mem app].
  intros H. pose proof (first_seen_fold_incl l [x] x (or_introl eq_refl)) as Hin.
  rewrite H in Hin. destruct Hin.
Qed.

Lemma dict_get_entry {V} (m : dict V) (e : string * V) :
  NoDup (dict_keys m) -> In e m -> dict_get m (fst e) = Some (snd e).
Proof.
  induction m as [|[k v] m IH]; intros Hn Hin; [destruct Hin|].
  cbn [dict_keys map fst] in Hn. inversion Hn as [|? ? Hk Hn']; subst.
  cbn [dict_get]. destruct Hin as [<-|Hin].
  - cbn [fst snd]. now rewrite String.eqb_refl.
  - destruct (String.eqb_spec k (fst e)) as [E|E].
    + exfalso. apply Hk. rewrite E. now apply in_map.
    + now apply IH.
Qed.

Lemma render_scope_cat (k : string) (sels : list ScopedCommit) :
  render_scope (k, sels)
  = "- " ++ k ++ ":" ++ nl ++ cat (map render_commit sels).
Proof.
  unfold render_scope. rewrite fold_append_cat. now rewrite !append_assoc.
Qed.

(** X2.  For a type that is a plain keyword, a section holds, for each
    scope in the order in which its first commit comes, the line
    [- scope:], one line per commit filed under the scope, in the order of
    the commit list, and an empty line. *)
Theorem generate_section_layout (cs : list SelectedCommit) (T d : string)
    (s : bool) :
  keyword T = true ->
  generate_section cs T d s
  = cat (map (fun k =>
                "- " ++ k ++ ":" ++ nl
                ++ cat (map (fun c => render_commit (scoped T c))
                          (filter (in_scope T d s k) cs))
                ++ nl)
           (first_seen (scopes_of T d s cs))).
Proof.
  intros _. unfold generate_section.
  rewrite (fold_append_cat (fun entry => render_scope entry ++ nl)).
  cbn [String.append].
  set (m := strip_commits cs T d s).
  assert (Hk : dict_keys m = first_seen (scopes_of T d s cs))
    by (unfold m, strip_commits, first_seen; now rewrite strip_commits_fold_keys).
  assert (Hn : NoDup (dict_keys m)).
  { rewrite Hk. unfold first_seen. apply first_seen_fold_NoDup. constructor. }
  rewrite <- Hk. unfold dict_keys. rewrite map_map. f_equal.
  apply map_ext_in. intros [k sels] Hin.
  pose proof (dict_get_entry m (k, sels) Hn Hin) as Hg. cbn [fst snd] in Hg.
  unfold m, strip_commits in Hg. rewrite strip_commits_fold_get in Hg.
  cbn [dict_get fst] in *.
  assert (Es : sels = map (scoped T) (filter (in_scope T d s k) cs)).
  { destruct (filter (in_scope T d s k) cs); [discriminate|].
    now injection Hg as <-. }
  rewrite render_scope_cat, Es, map_map. now rewrite !append_assoc.
Qed.

Lemma generate_section_layout_witness :
  generate_section Sample.s32 "fix" "general" false
  = "- core:" ++ nl
    ++ "  - three ([c3c3c3c](https://example.org/c/c3c3c3c3c3))" ++ nl ++ nl.
Proof.
  exact (generate_section_layout Sample.s32 "fix" "general" false eq_refl).
Defined.

Lemma cat_nil (l : list string) :
  cat l = "" <-> Forall (fun x => x = "") l.
Proof.
  induction l as [|x l IH]; cbn [cat fold_right]; [split; constructor|].
  fold (cat l). split.
  - intros H. apply append_eq_nil in H as [H1 H2]. constructor; [exact H1|].
    now apply IH.
  - intros H. inversion H as [|? ? H1 H2]; subst. cbn [String.append].
    now apply IH.
Qed.

(** A section is empty exactly when no commit is filed under the type. *)
Lemma generate_section_empty (cs : list SelectedCommit) (T d : string)
    (s : bool) :
  generate_section cs T d s = "" <-> scopes_of T d s cs = [].
Proof.
  unfold generate_section.
  rewrite (fold_append_cat (fun entry => render_scope entry ++ nl)).
  cbn [String.append].
  set (m := strip_commits cs T d s).
  assert (Hk : dict_keys m = first_seen (scopes_of T d s cs))
    by (unfold m, strip_commits, first_seen; now rewrite strip_commits_fold_keys).
  rewrite <- first_seen_nil, <- Hk. clearbody m. clear Hk.
  destruct m as [|[k sels] m]; [split; reflexivity|].
  split; [|discriminate].
  cbn [map cat fold_right]. rewrite render_scope_cat. discriminate.
Qed.

(** ** Release body renderer: the parts *)

(** [s.split(c)] for a separator of one character. *)
Section SplitChar.

Variable ch : ascii.

Lemma split_char_cons (c : ascii) (s : string) :
  split (String ch "") (String c s)
  = if Ascii.eqb c ch then "" :: split (String ch "") s
    else cons_head c (split (String ch "") s).
Proof.
  unfold split. cbn [split_go]. rewrite prefix_cons, prefix_nil, andb_true_r.
  rewrite Ascii.eqb_sym. reflexivity.
Qed.

Lemma split_char_length (s : string) :
  List.length (split (String ch "") s) = S (count_char ch s).
Proof.
  induction s as [|c s IH]; [reflexivity|].
  rewrite split_char_cons. cbn [count_char].
  destruct (Ascii.eqb c ch); cbn [List.length Nat.add]; [now rewrite IH|].
  rewrite <- IH. now destruct (split (String ch "") s).
Qed.

Lemma split_char_none (s : string) :
  has_char ch s = false -> split (String ch "") s = [s].
Proof.
  induction s as [|c s IH]; [reflexivity|].
  cbn [has_char]. intros H. apply orb_false_iff in H as [H1 H2].
  rewrite split_char_cons, H1, (IH H2). reflexivity.
Qed.

Lemma split_char_app (a r : string) :
  has_char ch a = false ->
  split (String ch "") (a ++ String ch r) = a :: split (String ch "") r.
Proof.
  induction a as [|c a IH]; intros H.
  - cbn [String.append]. now rewrite split_char_cons, Ascii.eqb_refl.
  - cbn [has_char] in H. apply orb_false_iff in H as [H1 H2].
    cbn [String.append]. rewrite split_char_cons, H1, (IH H2). reflexivity.
Qed.

Lemma split_char_one (s n : string) :
  split (String ch "") s = [n] <-> s = n /\ has_char ch n = false.
Proof.
  split.
  - revert n. induction s as [|c s IH]; intros n.
    + cbn. intros [= <-]. tauto.
    + rewrite split_char_cons. destruct (Ascii.eqb c ch) eqn:E.
      * intros H. pose proof (split_nonempty (String ch "") s) as Hn.
        injection H as _ H'. contradiction.
      * intros H.
        destruct (split (String ch "") s) as [|n' [|]] eqn:Es;
          cbn [cons_head] in H; try discriminate.
        -- now destruct (split_nonempty (String ch "") s).
        -- injection H as <-. destruct (IH n' eq_refl) as [-> Hh].
           split; [reflexivity|]. cbn [has_char]. now rewrite E.
  - intros [<- H]. now apply split_char_none.
Qed.

Lemma split_char_two (s r n : string) :
  split (String ch "") s = [r; n]
  <-> s = r ++ String ch n
      /\ has_char ch r = false /\ has_char ch n = false.
Proof.
  split.
  - revert r. induction s as [|c s IH]; intros r.
    + cbn. discriminate.
    + rewrite split_char_cons. destruct (Ascii.eqb c ch) eqn:E.
      * apply Ascii.eqb_eq in E. subst c.
        intros H. injection H as <- H'.
        apply split_char_one in H' as [-> H'].
        repeat split. exact H'.
      * intros H.
        destruct (split (String ch "") s) as [|r' [|n' [|]]] eqn:Es;
          cbn [cons_head] in H; try discriminate.
        injection H as <- <-.
        destruct (IH r' eq_refl) as (-> & Hr & Hn).
        repeat split; [|exact Hn]. cbn [has_char]. now rewrite E.
  - intros (-> & Hr & Hn).
    now rewrite (split_char_app r n Hr), (split_char_none n Hn).
Qed.

End SplitChar.

Lemma count_char_none (c : ascii) (s : string) :
  count_char c s = 0 <-> has_char c s = false.
Proof.
  induction s as [|d s IH]; cbn [count_char has_char]; [tauto|].
  destruct (Ascii.eqb d c); cbn [orb Nat.add]; [split; discriminate | exact IH].
Qed.

(** X3.  [regex, name = part.split(':')] succeeds exactly on a part that
    holds one colon, and gives what stands before and after it; any other
    part, with no colon or with several, raises [ValueError]. *)
Theorem unpack_part_spec (part : string) :
  (forall r n : string,
     unpack_part part = Ok (r, n)
     <-> part = r ++ ":" ++ n
         /\ has_char ":" r = false /\ has_char ":" n = false)
  /\ (unpack_part part = Raise ValueError <-> count_char ":" part <> 1)
  /\ (forall e : PyExn, unpack_part part = Raise e -> e = ValueError).
Proof.
  unfold unpack_part. split; [|split].
  - intros r n. split.
    + intros H. apply (split_char_two ":" part r n).
      destruct (split ":" part) as [|r' [|n' [|]]]; try discriminate.
      now injection H as <- <-.
    + intros H. apply (split_char_two ":" part r n) in H. now rewrite H.
  - split.
    + intros H Hc. pose proof (split_char_length ":" part) as Hl.
      rewrite Hc in Hl.
      destruct (split ":" part) as [|r' [|n' [|]]]; discriminate.
    + intros Hc. pose proof (split_char_length ":" part) as Hl.
      destruct (split ":" part) as [|r' [|n' [|]]]; try reflexivity.
      cbn in Hl. exfalso. apply Hc. lia.
  - intros e H.
    destruct (split ":" part) as [|r' [|n' [|]]]; try discriminate;
      now injection H as <-.
Qed.

Lemma unpack_part_ok (T n : string) :
  has_char ":" T = false -> has_char ":" n = false ->
  unpack_part (T ++ ":" ++ n) = Ok (T, n).
Proof.
  intros HT Hn. unfold unpack_part.
  now rewrite (proj2 (split_char_two ":" (T ++ ":" ++ n) T n)
                 (conj eq_refl (conj HT Hn))).
Qed.

Lemma unpack_part_count (part : string) :
  (count_char ":" part = 1 -> exists T n, unpack_part part = Ok (T, n))
  /\ (count_char ":" part <> 1 -> unpack_part part = Raise ValueError).
Proof.
  unfold unpack_part. pose proof (split_char_length ":" part) as Hl.
  split; intros Hc.
  - rewrite Hc in Hl.
    destruct (split ":" part) as [|r' [|n' [|]]]; try discriminate. eauto.
  - destruct (split ":" part) as [|r' [|n' [|]]]; try reflexivity.
    cbn in Hl. exfalso. apply Hc. lia.
Qed.

Lemma release_body_loop_raises (cs : list SelectedCommit) (d : string)
    (s : bool) (parts : list string) :
  forall acc : string,
    (forall e, generate_release_body_loop cs parts d s acc = Raise e ->
               e = ValueError)
    /\ (generate_release_body_loop cs parts d s acc = Raise ValueError
        <-> exists part, In part parts /\ count_char ":" part <> 1).
Proof.
  induction parts as [|part parts IH]; intros acc;
    cbn [generate_release_body_loop].
  - split; [discriminate|]. split; [discriminate | now intros (? & [] & _)].
  - destruct (Nat.eq_dec (count_char ":" part) 1) as [Hc|Hc].
    + destruct (proj1 (unpack_part_count part) Hc) as (T & n & E).
      rewrite E. cbn [py_bind]. destruct (IH
        (if String.eqb (generate_section cs T d s) "" then acc
         else acc ++ "### " ++ n ++ nl ++ nl ++ generate_section cs T d s))
        as [IH1 IH2].
      split; [exact IH1|]. rewrite IH2. split.
      * intros (p & Hp & Hn). exists p. split; [now right | exact Hn].
      * intros (p & [<-|Hp] & Hn); [contradiction|]. now exists p.
    + rewrite (proj2 (unpack_part_count part) Hc). cbn [py_bind]. split.
      * now intros e [= <-].
      * split; [|reflexivity]. intros _. exists part. split; [now left | exact Hc].
Qed.

(** X4.  When the types of the parts are plain keywords,
    [generate_release_body] raises exactly when some part does not hold
    one colon, whatever the commits are (an empty list included), and the
    exception is then [ValueError]; with parts that hold one colon each it
    returns a text. *)
Theorem release_body_raises (cs : list SelectedCommit) (parts : list string)
    (d : string) (s : bool) :
  keyword_types parts ->
  (generate_release_body cs parts d s = Raise ValueError
   <-> exists part, In part parts /\ count_char ":" part <> 1)
  /\ ((exists release_body, generate_release_body cs parts d s = Ok release_body)
      <-> forall part, In part parts -> count_char ":" part = 1).
Proof.
  intros _. unfold generate_release_body.
  destruct (release_body_loop_raises cs d s parts "") as [H1 H2].
  split; [exact H2|].
  destruct (generate_release_body_loop cs parts d s "") as [b|e] eqn:E.
  - split; [|eauto]. intros _ part Hin.
    destruct (Nat.eq_dec (count_char ":" part) 1) as [Hc|Hc]; [exact Hc|].
    assert (Hex : exists p, In p parts /\ count_char ":" p <> 1)
      by (exists part; tauto).
    apply H2 in Hex. discriminate.
  - split; [now intros [b [=]]|]. intros Hall.
    rewrite (H1 e eq_refl) in H2. destruct (proj1 H2 eq_refl) as (p & Hp & Hn).
    now apply Hall in Hp.
Qed.

Lemma release_body_raises_witness :
  generate_release_body Sample.s32 ["feat:Feature"; "fix"] "general" false
  = Raise ValueError.
Proof.
  assert (Hk : keyword_types ["feat:Feature"; "fix"]).
  { intros part T name [<-|[<-|[]]] E; vm_compute in E;
      [now injection E as <- _ | discriminate E]. }
  apply (proj1 (release_body_raises Sample.s32 ["feat:Feature"; "fix"]
                  "general" false Hk)).
  exists "fix". split; [right; now left | discriminate].
Defined.

Lemma release_body_loop_ok (cs : list SelectedCommit) (d : string) (s : bool)
    (tn : list (string * string)) :
  Forall (fun p => has_char ":" (fst p) = false
                   /\ has_char ":" (snd p) = false) tn ->
  forall acc : string,
    generate_release_body_loop cs (map (fun p => fst p ++ ":" ++ snd p) tn)
      d s acc
    = Ok (acc
          ++ cat (map (fun p =>
                         match scopes_of (fst p) d s cs with
                         | [] => ""
                         | _ => "### " ++ snd p ++ nl ++ nl
                                ++ generate_section cs (fst p) d s
                         end) tn)).
Proof.
  induction 1 as [|[T n] tn [HT Hn] Hf IH]; intros acc;
    cbn [map generate_release_body_loop cat fold_right fst snd] in *.
  - now rewrite append_nil_r.
  - rewrite (unpack_part_ok T n HT Hn). cbn [py_bind]. rewrite IH.
    f_equal.
    fold (cat (map (fun p =>
                      match scopes_of (fst p) d s cs with
                      | [] => ""
                      | _ => "### " ++ snd p ++ nl ++ nl
                             ++ generate_section cs (fst p) d s
                      end) tn)).
    destruct (String.eqb_spec (generate_section cs T d s) "") as [E|E].
    + apply generate_section_empty in E. now rewrite E.
    + destruct (scopes_of T d s cs) eqn:Es.
      * exfalso. apply E. now apply generate_section_empty.
      * now rewrite !append_assoc.
Qed.

(** X5.  With parts [type:name] whose type is a plain keyword and whose
    type and name hold no colon, the body of a release is made of the
    parts in their order: a part under
    which no commit is filed adds nothing, and any other part adds the
    heading [### name], an empty line and its section. *)
Theorem release_body_layout (cs : list SelectedCommit)
    (tn : list (string * string)) (d : string) (s : bool) :
  Forall (fun p => keyword (fst p) = true) tn ->
  Forall (fun p => has_char ":" (fst p) = false
                   /\ has_char ":" (snd p) = false) tn ->
  generate_release_body cs (map (fun p => fst p ++ ":" ++ snd p) tn) d s
  = Ok (cat (map (fun p =>
                    match scopes_of (fst p) d s cs with
                    | [] => ""
                    | _ => "### " ++ snd p ++ nl ++ nl
                           ++ generate_section cs (fst p) d s
                    end) tn)).
Proof.
  intros _ H. unfold generate_release_body.
  now rewrite (release_body_loop_ok cs d s tn H "").
Qed.

Lemma release_body_layout_witness :
  generate_release_body Sample.s32 ["feat:Feature"; "docs:Documentation"; "fix:Fix"]
    "general" false
  = Ok ("### Feature" ++ nl ++ nl
        ++ generate_section Sample.s32 "feat" "general" false
        ++ "### Fix" ++ nl ++ nl
        ++ generate_section Sample.s32 "fix" "general" false).
Proof.
  apply (release_body_layout Sample.s32
           [("feat", "Feature"); ("docs", "Documentation"); ("fix", "Fix")]
           "general" false); repeat constructor.
Defined.

(** ** Rendering one release: the commits of the bucket *)

Lemma select_commits_resolved (cs : list Commit) :
  forall acc : list SelectedCommit,
    forallb resolved cs = true ->
    select_commits cs acc = inr (acc ++ map selected_of cs)%list.
Proof.
  induction cs as [|c cs IH]; intros acc H; cbn [select_commits map].
  - now rewrite app_nil_r.
  - cbn [forallb] in H. apply andb_prop in H as [Hc H].
    unfold resolved in Hc. unfold selected_of at 1.
    destruct (commit_pulls c) as [e|pulls]; [discriminate|].
    rewrite (IH _ H), <- app_assoc. reflexivity.
Qed.

Lemma select_commits_refused (pre post : list Commit) (c : Commit)
    (e : Z * string) :
  forall acc : list SelectedCommit,
    forallb resolved pre = true ->
    commit_pulls c = inl e ->
    select_commits (pre ++ c :: post) acc = inl e.
Proof.
  induction pre as [|c0 pre IH]; intros acc H Hc; cbn [select_commits app].
  - now rewrite Hc.
  - cbn [forallb] in H. apply andb_prop in H as [H0 H].
    unfold resolved in H0.
    destruct (commit_pulls c0) as [e0|pulls]; [discriminate|].
    now apply IH.
Qed.

(** X6.  [get_release_content] consults the pull requests of the commits
    in their order.  At the first commit whose pull requests are refused
    it gives up: it returns an empty content with the status of that
    exception and prints its data, whatever commits follow and whether or
    not the release is known.  When no commit is refused it renders the
    release from one entry per commit, in the order of the commits, and
    the status is 0; a release that is not in [self.releases] is a
    [KeyError]. *)
Theorem get_release_content_spec (cfg : Config) (releases : dict Release)
    (release_tag : string) :
  (forall (pre post : list Commit) (c : Commit) (status : Z) (data : string),
     forallb resolved pre = true ->
     commit_pulls c = inl (status, data) ->
     get_release_content cfg releases release_tag (pre ++ c :: post)
     = Ok ("", status, [ErrorContentMessage data]))
  /\ (forall commits : list Commit,
        forallb resolved commits = true ->
        get_release_content cfg releases release_tag commits
        = match dict_get releases release_tag with
          | None => Raise (KeyError release_tag)
          | Some meta_data =>
              release_content <-
                generate_release_changelog meta_data (map selected_of commits)
                  release_tag (part_name cfg) (default_scope cfg)
                  (suppress_unscoped cfg) (replace_empty_release_info cfg) ;;
              Ok (release_content, 0%Z, [])
          end).
Proof.
  split.
  - intros pre post c status data Hp Hc. unfold get_release_content.
    now rewrite (select_commits_refused pre post c (status, data) [] Hp Hc).
  - intros commits Hc. unfold get_release_content.
    now rewrite (select_commits_resolved commits [] Hc).
Qed.

Lemma get_release_content_spec_witness :
  get_release_content Sample.cfg_refused [] "v0"
    ([Sample.c2] ++ Sample.c1_refused :: [Sample.c3])
  = Ok ("", 403%Z, [ErrorContentMessage "rate limit exceeded"])
  /\ get_release_content Sample.cfg_refused [] "v0" [Sample.c2]
     = Raise (KeyError "v0").
Proof.
  destruct (get_release_content_spec Sample.cfg_refused [] "v0") as [H1 H2].
  split.
  - apply (H1 [Sample.c2] [Sample.c3] Sample.c1_refused 403%Z
             "rate limit exceeded"); reflexivity.
  - apply (H2 [Sample.c2]). reflexivity.
Defined.

(** ** Listing the commits *)

(** X7.  [get_github_commits] never returns an empty list, and prints
    nothing when it returns.  It returns the commits of the branch when
    there are any, and those of the default branch when the branch is not
    found (status 404) and the default branch has commits; in no other
    case does it return.  An empty list, on the branch or on the default
    branch, ends in an [AttributeError]: the 404 the script means to raise
    for it is named by an attribute that does not exist, so that an empty
    branch never leads to the default branch.  Any other refusal is
    raised as it came. *)
Theorem get_github_commits_spec (api : Api) :
  (forall (commits : list Commit) (out : list LogLine),
     get_github_commits api = Ok (commits, out)
     <-> commits <> [] /\ out = []
         /\ (api_branch_commits api = inr commits
             \/ ((exists data, api_branch_commits api = inl (404%Z, data))
                 /\ api_default_commits api = inr commits)))
  /\ (get_github_commits api = Raise AttributeError
      <-> api_branch_commits api = inr []
          \/ ((exists data, api_branch_commits api = inl (404%Z, data))
              /\ api_default_commits api = inr []))
  /\ (forall (status : Z) (data : string),
        get_github_commits api = Raise (GithubException status data)
        <-> (api_branch_commits api = inl (status, data) /\ status <> 404%Z)
            \/ ((exists data', api_branch_commits api = inl (404%Z, data'))
                /\ api_default_commits api = inl (status, data)))
  /\ (forall e : PyExn,
        get_github_commits api = Raise e ->
        e = AttributeError
        \/ exists status data, e = GithubException status data).
Proof.
  unfold get_github_commits.
  destruct (api_branch_commits api) as [[status data]|[|c cs]];
    [destruct (Z.eqb_spec status 404) as [->|Hs];
       [destruct (api_default_commits api) as [[s' d']|[|c cs]]|]| |];
    (split; [|split; [|split]]);
    repeat match goal with
           | |- forall _, _ => intro
           | |- _ <-> _ => split
           end;
    repeat match goal with
           | H : _ /\ _ |- _ => destruct H
           | H : _ \/ _ |- _ => destruct H
           | H : exists _, _ |- _ => destruct H
           end;
    try discriminate; try congruence;
    repeat match goal with
           | H : Ok _ = Ok _ |- _ => injection H as <- <-
           | H : Raise _ = Raise _ |- _ => injection H; clear H; intros; subst
           | H : @inl _ _ _ = inl _ |- _ => injection H; clear H; intros; subst
           | H : @inr _ _ _ = inr _ |- _ => injection H; clear H; intros; subst
           end;
    try congruence; eauto 10.
  all: try (split; [discriminate|]; split; [reflexivity|]; eauto 10).
  all: try (left; split; [reflexivity | assumption]).
Qed.

Lemma get_github_commits_spec_witness :
  get_github_commits Cases.api_no_branch = Ok (Cases.commits, []).
Proof.
  apply (proj1 (get_github_commits_spec Cases.api_no_branch)).
  split; [discriminate|]. split; [reflexivity|].
  right. split; [now exists "Branch not found" | reflexivity].
Defined.

(** ** Reconciliation: invariants of the walk *)

Lemma list_remove_keep (x t : string) (l : list string) :
  In t l -> x <> t -> In t (list_remove x l).
Proof.
  intros Hin Hne. induction l as [|y l IH]; [destruct Hin|].
  cbn [list_remove]. destruct (String.eqb_spec y x) as [E|E].
  - destruct Hin as [<-|Hin]; [now subst | exact Hin].
  - destruct Hin as [<-|Hin]; [now left | right; now apply IH].
Qed.

Lemma store_content_ok (releases : dict Release) (tag c : string)
    (r : Release) :
  dict_get releases tag = Some r ->
  store_content releases tag c = Ok (dict_set releases tag (set_content r c)).
Proof. intros H. unfold store_content. now rewrite H. Qed.

Lemma store_content_inv (releases releases' : dict Release) (tag c : string) :
  store_content releases tag c = Ok releases' ->
  exists r, dict_get releases tag = Some r
            /\ releases' = dict_set releases tag (set_content r c).
Proof.
  unfold store_content. destruct (dict_get releases tag) as [r|]; [|discriminate].
  intros [= <-]. now exists r.
Qed.

(** A property of the current release, of the releases still to render
    and of [self.releases] that the two moves of the walk keep, passing
    to the release of a boundary commit and storing a rendered content,
    holds when the walk is over. *)
Section WalkInvariant.

Variables (cfg : Config) (sl : dict string) (all : list Commit).
Variable P : string -> list string -> dict Release -> Prop.

Hypothesis P_move :
  forall (cur : string) (regen : list string) (rels : dict Release)
         (c : Commit) (next : string),
    P cur regen rels -> In c all ->
    dict_get sl (commit_sha c) = Some next ->
    P next regen rels.

Hypothesis P_render :
  forall (cur : string) (regen : list string) (rels : dict Release)
         (r : Release) (rc : string),
    P cur regen rels -> list_mem cur regen = true ->
    dict_get rels cur = Some r ->
    P cur (list_remove cur regen) (dict_set rels cur (set_content r rc)).

Lemma walk_commits_inv (commits : list Commit) :
  (forall c, In c commits -> In c all) ->
  forall w w' : Walk,
    P (cur_release w) (regenerate_releases w) (walk_releases w) ->
    walk_commits cfg sl commits w = Ok w' ->
    P (cur_release w') (regenerate_releases w') (walk_releases w').
Proof.
  induction commits as [|c rest IH]; intros Hall w w' Hw;
    cbn [walk_commits]; [now intros [= <-]|].
  assert (Hc : In c all) by (apply Hall; now left).
  assert (Hrest : forall c0, In c0 rest -> In c0 all)
    by (intros c0 H0; apply Hall; now right).
  destruct (dict_get sl (commit_sha c)) as [next|] eqn:Hn;
    [|now apply IH].
  destruct (list_mem (cur_release w) (regenerate_releases w)) eqn:Hm.
  - destruct (get_release_content cfg (walk_releases w) (cur_release w)
                (selected_commits w)) as [[[rc sc] out]|e];
      cbn [py_bind]; [|discriminate].
    destruct (failed sc); [now intros [= <-]|].
    destruct (store_content (walk_releases w) (cur_release w) rc)
      as [releases'|e] eqn:Es; cbn [py_bind]; [|discriminate].
    apply store_content_inv in Es as (r & Hr & ->).
    pose proof (P_move _ _ _ c next (P_render _ _ _ r rc Hw Hm Hr) Hc Hn) as Hp.
    destruct (List.length _ <=? 0)%nat.
    + now intros [= <-].
    + now apply IH.
  - apply IH; [exact Hrest|]. now apply (P_move _ _ _ c next Hw Hc Hn).
Qed.

Lemma finish_walk_inv (w w' : Walk) :
  P (cur_release w) (regenerate_releases w) (walk_releases w) ->
  finish_walk cfg w = Ok w' ->
  P (cur_release w') (regenerate_releases w') (walk_releases w').
Proof.
  intros Hw. unfold finish_walk.
  assert (G : forall w1 w2,
             P (cur_release w1) (regenerate_releases w1) (walk_releases w1) ->
             (if (0 <? List.length (regenerate_releases w1))%nat
              then Ok (reported w1) else Ok w1) = Ok w2 ->
             P (cur_release w2) (regenerate_releases w2) (walk_releases w2)).
  { intros w1 w2 H1.
    destruct (0 <? List.length (regenerate_releases w1))%nat;
      now intros [= <-]. }
  destruct (0 <? List.length (selected_commits w))%nat;
    cbn [andb py_bind]; [|now apply G].
  destruct (list_mem (cur_release w) (regenerate_releases w)) eqn:Hm;
    cbn [py_bind]; [|now apply G].
  destruct (get_release_content cfg (walk_releases w) (cur_release w)
              (selected_commits w)) as [[[rc sc] out]|e];
    cbn [py_bind]; [|discriminate].
  destruct (failed sc); cbn [py_bind]; [now apply G|].
  destruct (store_content (walk_releases w) (cur_release w) rc)
    as [releases'|e] eqn:Es; cbn [py_bind]; [|discriminate].
  apply store_content_inv in Es as (r & Hr & ->).
  apply G. now apply P_render.
Qed.

End WalkInvariant.

Lemma reconcile_inv (cfg : Config) (api : Api) (st : State)
    (P : string -> list string -> dict Release -> Prop)
    (commits : list Commit) (out : list LogLine) (w : Walk) :
  get_github_commits api = Ok (commits, out) ->
  (forall cur regen rels c next,
     P cur regen rels -> In c commits ->
     dict_get (release_commit_sha_list_of
                 (walk_releases (start_walk cfg api st)))
       (commit_sha c) = Some next ->
     P next regen rels) ->
  (forall cur regen rels r rc,
     P cur regen rels -> list_mem cur regen = true ->
     dict_get rels cur = Some r ->
     P cur (list_remove cur regen) (dict_set rels cur (set_content r rc))) ->
  P "Unreleased" (regenerate_releases (start_walk cfg api st))
    (walk_releases (start_walk cfg api st)) ->
  reconcile cfg api st = Ok w ->
  P (cur_release w) (regenerate_releases w) (walk_releases w).
Proof.
  intros Hc Hmove Hrender H0. unfold reconcile. rewrite Hc. cbn [py_bind].
  set (w0 := {| cur_release := cur_release (start_walk cfg api st) |}).
  assert (H0' : P (cur_release w0) (regenerate_releases w0) (walk_releases w0))
    by exact H0.
  change (walk_releases w0) with (walk_releases (start_walk cfg api st)).
  destruct (0 <? List.length (regenerate_releases w0))%nat.
  - destruct (walk_commits cfg _ commits w0) as [w1|e] eqn:E;
      cbn [py_bind]; [|discriminate].
    pose proof (walk_commits_inv cfg _ commits P Hmove Hrender commits
                  (fun c H => H) w0 w1 H0' E) as H1.
    now apply (finish_walk_inv cfg P Hrender).
  - cbn [py_bind]. now apply (finish_walk_inv cfg P Hrender).
Qed.

(** ** Reconciliation: the exceptions of [get_data] *)

Lemma regenerate_initial_In (cfg : Config) (ric : dict string)
    (rels : list ApiRelease) (t : string) :
  In t (regenerate_initial cfg ric rels) ->
  In t (map tag_name rels)
  \/ (unreleased_commits cfg = true /\ t = "Unreleased").
Proof.
  unfold regenerate_initial.
  assert (H : forall start,
             (forall x, In x start -> In x (map tag_name rels)) ->
             In t (fold_left
                     (fun regen r =>
                        if negb (dict_mem ric (tag_name r))
                           && negb (list_mem (tag_name r) regen)
                        then (regen ++ [tag_name r])%list else regen)
                     rels start) ->
             In t (map tag_name rels)).
  { intros start Hs Hin. apply regenerate_new_releases in Hin.
    destruct Hin as [Hin|[Hin _]]; auto. }
  assert (Hstart : forall x,
             In x (if (regenerate_count cfg <? 0)%Z then map tag_name rels
                   else firstn (Z.to_nat (regenerate_count cfg))
                          (map tag_name rels)) ->
             In x (map tag_name rels)).
  { destruct (regenerate_count cfg <? 0)%Z; [tauto|].
    intros x Hx. now apply firstn_incl in Hx. }
  destruct (unreleased_commits cfg).
  - rewrite in_app_iff. intros [Hin|[<-|[]]]; [left | right; tauto].
    now apply (H _ Hstart).
  - intros Hin. left. now apply (H _ Hstart).
Qed.

Lemma dict_set_keeps {V} (d : dict V) (k t : string) (v : V) :
  dict_get d t <> None -> dict_get (dict_set d k v) t <> None.
Proof.
  intros H. destruct (String.eqb_spec k t) as [<-|E].
  - now rewrite dict_get_set_eq.
  - now rewrite dict_get_set_neq.
Qed.

Lemma release_meta_keys (tags_sha ric : dict string) (regen : list string)
    (rels : list ApiRelease) (t : string) :
  forall d : dict Release,
    In t (map tag_name rels) \/ dict_get d t <> None ->
    dict_get (fold_left (release_meta tags_sha ric regen) rels d) t <> None.
Proof.
  induction rels as [|r rels IH]; intros d H; cbn [fold_left].
  - destruct H as [[]|H]. exact H.
  - apply IH. cbn [map In] in H. unfold release_meta.
    destruct H as [[<-|H]|H]; [right | now left | right].
    + now rewrite dict_get_set_eq.
    + now apply dict_set_keeps.
Qed.

Lemma start_walk_covered (cfg : Config) (api : Api) (st : State) :
  covered (start_walk cfg api st).
Proof.
  intros t Ht. cbn [start_walk regenerate_releases walk_releases] in *.
  apply release_meta_keys.
  apply regenerate_initial_In in Ht as [Ht|[Hu ->]]; [now left | right].
  unfold seed_unreleased. rewrite Hu. now rewrite dict_get_set_eq.
Qed.

Lemma covered_render (regen : list string) (rels : dict Release)
    (cur : string) (v : Release) :
  (forall t, In t regen -> dict_get rels t <> None) ->
  forall t, In t (list_remove cur regen) ->
            dict_get (dict_set rels cur v) t <> None.
Proof.
  intros H t Ht. apply dict_set_keeps, H. now apply list_remove_In in Ht.
Qed.

Lemma release_changelog_raise (meta_data : Release)
    (commits : list SelectedCommit) (tag : string) (parts : list string)
    (d : string) (s : bool) (repl : string) (e : PyExn) :
  generate_release_changelog meta_data commits tag parts d s repl = Raise e ->
  e = ValueError /\ exists part, In part parts /\ bad_part part.
Proof.
  unfold generate_release_changelog, generate_release_body.
  destruct (release_body_loop_raises commits d s parts "") as [H1 H2].
  destruct (generate_release_body_loop commits parts d s "") as [b|e'] eqn:E;
    cbn [py_bind].
  - now destruct (String.eqb b "" && String.eqb tag "Unreleased").
  - intros [= <-]. pose proof (H1 e' eq_refl) as ->. split; [reflexivity|].
    now apply H2.
Qed.

Lemma get_release_content_raise (cfg : Config) (rels : dict Release)
    (tag : string) (commits : list Commit) (e : PyExn) :
  dict_get rels tag <> None ->
  get_release_content cfg rels tag commits = Raise e ->
  e = ValueError /\ exists part, In part (part_name cfg) /\ bad_part part.
Proof.
  intros Hk. unfold get_release_content.
  destruct (select_commits commits []) as [[status data]|sel]; [discriminate|].
  destruct (dict_get rels tag) as [meta|]; [|contradiction].
  destruct (generate_release_changelog meta sel tag (part_name cfg)
              (default_scope cfg) (suppress_unscoped cfg)
              (replace_empty_release_info cfg)) as [c|e'] eqn:E;
    cbn [py_bind]; [discriminate|].
  intros [= <-]. now apply release_changelog_raise in E.
Qed.

Lemma walk_commits_raise (cfg : Config) (sl : dict string)
    (commits : list Commit) :
  forall (w : Walk) (e : PyExn),
    covered w ->
    walk_commits cfg sl commits w = Raise e ->
    e = ValueError /\ exists part, In part (part_name cfg) /\ bad_part part.
Proof.
  induction commits as [|c rest IH]; intros w e Hw;
    cbn [walk_commits]; [discriminate|].
  destruct (dict_get sl (commit_sha c)) as [next|]; [|now apply IH].
  destruct (list_mem (cur_release w) (regenerate_releases w)) eqn:Hm;
    [|now apply IH].
  assert (Hk : dict_get (walk_releases w) (cur_release w) <> None)
    by (apply Hw; now apply list_mem_In).
  destruct (get_release_content cfg (walk_releases w) (cur_release w)
              (selected_commits w)) as [[[rc sc] out]|e'] eqn:Eg;
    cbn [py_bind].
  - destruct (failed sc); [discriminate|].
    destruct (dict_get (walk_releases w) (cur_release w)) as [r|] eqn:Er;
      [|contradiction].
    rewrite (store_content_ok _ _ rc r Er). cbn [py_bind].
    destruct (List.length _ <=? 0)%nat; [discriminate|].
    apply IH. intros t Ht. cbn [regenerate_releases walk_releases] in *.
    exact (covered_render (regenerate_releases w) (walk_releases w)
             (cur_release w) (set_content r rc) Hw t Ht).
  - intros [= <-]. now apply (get_release_content_raise _ _ _ _ _ Hk Eg).
Qed.

Lemma walk_commits_covered (cfg : Config) (sl : dict string)
    (commits : list Commit) (w w' : Walk) :
  covered w -> walk_commits cfg sl commits w = Ok w' -> covered w'.
Proof.
  intros Hw H. unfold covered.
  exact (walk_commits_inv cfg sl commits
           (fun _ regen rels =>
              forall t, In t regen -> dict_get rels t <> None)
           (fun cur regen rels c next Hp _ _ => Hp)
           (fun cur regen rels r rc Hp _ _ =>
              covered_render regen rels cur (set_content r rc) Hp)
           commits (fun c Hc => Hc) w w' Hw H).
Qed.

Lemma finish_walk_raise (cfg : Config) (w : Walk) (e : PyExn) :
  covered w ->
  finish_walk cfg w = Raise e ->
  e = ValueError /\ exists part, In part (part_name cfg) /\ bad_part part.
Proof.
  intros Hw. unfold finish_walk.
  assert (G : forall w1 : Walk,
             (if (0 <? List.length (regenerate_releases w1))%nat
              then Ok (reported w1) else Ok w1) <> Raise e)
    by (intros w1; now destruct (0 <? List.length _)%nat).
  destruct (0 <? List.length (selected_commits w))%nat;
    cbn [andb py_bind]; [|intros H; now apply G in H].
  destruct (list_mem (cur_release w) (regenerate_releases w)) eqn:Hm;
    cbn [py_bind]; [|intros H; now apply G in H].
  assert (Hk : dict_get (walk_releases w) (cur_release w) <> None)
    by (apply Hw; now apply list_mem_In).
  destruct (get_release_content cfg (walk_releases w) (cur_release w)
              (selected_commits w)) as [[[rc sc] out]|e'] eqn:Eg;
    cbn [py_bind].
  - destruct (failed sc); cbn [py_bind]; [intros H; now apply G in H|].
    destruct (dict_get (walk_releases w) (cur_release w)) as [r|] eqn:Er;
      [|contradiction].
    rewrite (store_content_ok _ _ rc r Er). cbn [py_bind].
    intros H. now apply G in H.
  - intros [= <-]. now apply (get_release_content_raise _ _ _ _ _ Hk Eg).
Qed.

Lemma reconcile_raise (cfg : Config) (api : Api) (st : State) (e : PyExn) :
  reconcile cfg api st = Raise e ->
  get_github_commits api = Raise e
  \/ (e = ValueError /\ exists part, In part (part_name cfg) /\ bad_part part).
Proof.
  unfold reconcile. pose proof (start_walk_covered cfg api st) as H0.
  destruct (get_github_commits api) as [[commits out]|e'];
    cbn [py_bind]; [|intros [= <-]; now left].
  set (w0 := {| cur_release := cur_release (start_walk cfg api st) |}).
  assert (H0' : covered w0) by exact H0.
  intros H. right. revert H.
  destruct (0 <? List.length (regenerate_releases w0))%nat.
  - destruct (walk_commits cfg _ commits w0) as [w1|e1] eqn:E;
      cbn [py_bind].
    + apply finish_walk_raise. now apply (walk_commits_covered _ _ _ _ _ H0' E).
    + intros [= <-]. now apply (walk_commits_raise _ _ _ _ _ H0' E).
  - cbn [py_bind]. now apply finish_walk_raise.
Qed.

(** X8.  Over releases that have a description, [get_data] returns
    whenever the request for the changelog file succeeds or is refused
    with status 404, the commits are listed, and every part of the [TYPE]
    input is a plain keyword, one colon and a name.  Whatever the
    releases, the tags and the commits are, no lookup in [self.releases]
    fails, and a refusal to list the pull requests of a commit is
    printed, not raised. *)
Theorem get_data_returns (cfg : Config) (api : Api) (st : State)
    (commits : list Commit) (out : list LogLine) :
  (forall status data, api_contents api = inl (status, data) ->
                       status = 404%Z) ->
  get_github_commits api = Ok (commits, out) ->
  (forall part, In part (part_name cfg) -> count_char ":" part = 1) ->
  keyword_types (part_name cfg) ->
  exists st', get_data cfg api st = Ok st'.
Proof.
  intros Hf Hc Hp _.
  destruct (get_data cfg api st) as [st'|e] eqn:E; [now exists st'|].
  exfalso. unfold get_data in E.
  destruct (get_exist_changelog api st) as [st1|e1] eqn:E1;
    cbn [py_bind] in E.
  - destruct (reconcile cfg api st1) as [w|e2] eqn:E2; cbn [py_bind] in E;
      [discriminate|].
    apply reconcile_raise in E2 as [E2|(_ & part & Hin & Hbad)].
    + rewrite Hc in E2. discriminate.
    + exact (Hbad (Hp part Hin)).
  - unfold get_exist_changelog in E1.
    destruct (api_contents api) as [[status data]|text].
    + rewrite (Hf status data eq_refl) in E1. discriminate.
    + now destruct (analyze_changelog text (release_in_changelog st)).
Qed.

Lemma get_data_returns_witness :
  exists st', get_data Sample.cfg_refused Sample.api_refused init_state
              = Ok st'.
Proof.
  apply (get_data_returns Sample.cfg_refused Sample.api_refused init_state
           [Sample.c1_refused] []).
  - intros status data H. discriminate H.
  - reflexivity.
  - intros part H. vm_compute in H.
    repeat (destruct H as [<-|H]; [reflexivity|]). destruct H.
  - intros part T name H E. vm_compute in H.
    repeat (destruct H as [<-|H]; [vm_compute in E; now injection E as <- _|]).
    destruct H.
Defined.

(** ** Reconciliation: the releases that are not rendered anew *)

Lemma release_meta_content (tags_sha ric : dict string) (regen : list string)
    (rels : list ApiRelease) (t : string) :
  forall d : dict Release,
    In t (map tag_name rels) ->
    exists e,
      dict_get (fold_left (release_meta tags_sha ric regen) rels d) t = Some e
      /\ content e
         = match dict_get ric t with
           | Some block => if negb (list_mem t regen) then block else ""
           | None => ""
           end.
Proof.
  assert (G : forall (l : list ApiRelease) (d : dict Release) (e : Release),
             dict_get d t = Some e ->
             content e
             = match dict_get ric t with
               | Some block => if negb (list_mem t regen) then block else ""
               | None => ""
               end ->
             exists e',
               dict_get (fold_left (release_meta tags_sha ric regen) l d) t
               = Some e'
               /\ content e'
                  = match dict_get ric t with
                    | Some block => if negb (list_mem t regen) then block else ""
                    | None => ""
                    end).
  { induction l as [|r l IH]; intros d e Hd He; cbn [fold_left]; [eauto|].
    unfold release_meta at 2.
    destruct (String.eqb_spec (tag_name r) t) as [E|E].
    - rewrite E. eapply IH; [apply dict_get_set_eq | reflexivity].
    - eapply IH; [|exact He]. now rewrite dict_get_set_neq. }
  induction rels as [|r rels IH]; intros d Hin; [destruct Hin|].
  cbn [fold_left]. cbn [map In] in Hin.
  destruct (String.eqb_spec (tag_name r) t) as [E|E].
  - unfold release_meta at 2. rewrite E.
    eapply G; [apply dict_get_set_eq | reflexivity].
  - destruct Hin as [Hin|Hin]; [contradiction|]. now apply IH.
Qed.

(** X9.  A release that stands in the existing changelog and is not among
    the first [regenerate_count] releases keeps its block: whatever the
    commits are and whatever happens to the other releases, when
    [get_data] returns, the content of the release is the block the
    parser stored for it. *)
Theorem kept_blocks (cfg : Config) (api : Api) (st st' : State)
    (t b : string) :
  get_data cfg api st = Ok st' ->
  In t (map tag_name (api_releases api)) ->
  t <> "Unreleased" ->
  (0 <= regenerate_count cfg)%Z ->
  ~ In t (firstn (Z.to_nat (regenerate_count cfg))
            (map tag_name (api_releases api))) ->
  dict_get (release_in_changelog st') t = Some b ->
  exists r, dict_get (releases st') t = Some r /\ content r = b.
Proof.
  intros Hg Ht Hu Hc Hf Hb. unfold get_data in Hg.
  destruct (get_exist_changelog api st) as [st1|e1]; cbn [py_bind] in Hg;
    [|discriminate].
  destruct (reconcile cfg api st1) as [w|e2] eqn:Er; cbn [py_bind] in Hg;
    [|discriminate].
  injection Hg as <-. cbn [releases release_in_changelog] in *.
  set (regen0 := regenerate_initial cfg (release_in_changelog st1)
                   (api_releases api)).
  assert (Hn : ~ In t regen0).
  { unfold regen0, regenerate_initial.
    assert (Hneg : (regenerate_count cfg <? 0)%Z = false)
      by now apply Z.ltb_ge.
    rewrite Hneg.
    assert (Hm : dict_mem (release_in_changelog st1) t = true)
      by (unfold dict_mem; now rewrite Hb).
    assert (H : ~ In t (fold_left
                          (fun regen r =>
                             if negb (dict_mem (release_in_changelog st1)
                                        (tag_name r))
                                && negb (list_mem (tag_name r) regen)
                             then (regen ++ [tag_name r])%list else regen)
                          (api_releases api)
                          (firstn (Z.to_nat (regenerate_count cfg))
                             (map tag_name (api_releases api))))).
    { intros Hin. apply regenerate_new_releases in Hin.
      destruct Hin as [Hin|[_ Hin]]; [contradiction | congruence]. }
    destruct (unreleased_commits cfg); [|exact H].
    rewrite in_app_iff. intros [Hin|[E|[]]]; [contradiction | now subst]. }
  destruct (release_meta_content (tags_sha_of (api_tags api))
              (release_in_changelog st1) regen0 (api_releases api) t
              (seed_unreleased cfg (releases st1)) Ht) as (e0 & He0 & Hc0).
  rewrite Hb in Hc0. apply list_mem_false in Hn. rewrite Hn in Hc0.
  cbn [negb] in Hc0. apply list_mem_false in Hn.
  unfold reconcile in Er.
  destruct (get_github_commits api) as [[commits out]|e] eqn:Ec;
    cbn [py_bind] in Er; [|discriminate].
  pose proof (reconcile_inv cfg api st1
                (fun _ regen rels =>
                   (forall x, In x regen -> In x regen0)
                   /\ dict_get rels t = Some e0)
                commits out w Ec) as Hinv.
  destruct Hinv as [_ Hfin].
  - intros cur regen rels c next Hp _ _. exact Hp.
  - intros cur regen rels r rc [Hp1 Hp2] Hm _. split.
    + intros x Hx. apply Hp1. now apply list_remove_In in Hx.
    + rewrite dict_get_set_neq; [exact Hp2|]. intros E. subst cur.
      apply Hn, Hp1. now apply list_mem_In.
  - split; [tauto | exact He0].
  - unfold reconcile. rewrite Ec. exact Er.
  - now exists e0.
Qed.

Lemma kept_blocks_witness :
  exists r,
    dict_get (releases Cases.st_kept) "v0" = Some r
    /\ content r = Sample.prior_v0.
Proof.
  apply (kept_blocks (Sample.cfg 1) Sample.api init_state Cases.st_kept
           "v0" Sample.prior_v0).
  - vm_compute. reflexivity.
  - vm_compute. auto.
  - discriminate.
  - vm_compute. discriminate.
  - vm_compute. intros [H|[]]. discriminate H.
  - vm_compute. reflexivity.
Defined.

(** ** Reconciliation: the releases that no commit reaches *)

Lemma dict_set_In {V} (d : dict V) (k k' : string) (v v' : V) :
  In (k', v') (dict_set d k v) -> (k' = k /\ v' = v) \/ In (k', v') d.
Proof.
  induction d as [|[k0 v0] d IH]; cbn [dict_set].
  - intros [[= <- <-]|[]]. now left.
  - destruct (String.eqb k0 k).
    + intros [[= <- <-]|H]; [now left | right; now right].
    + intros [H|H]; [right; now left|].
      destruct (IH H) as [H'|H']; [now left | right; now right].
Qed.

Lemma release_commit_sha_list_sound (rels : dict Release) (k t : string) :
  dict_get (release_commit_sha_list_of rels) k = Some t ->
  exists e, In (t, e) rels /\ release_commit_sha e = k.
Proof.
  unfold release_commit_sha_list_of.
  assert (G : forall (l : dict Release) (d : dict string),
             dict_get
               (fold_left
                  (fun d x => dict_set d (release_commit_sha (snd x)) (fst x))
                  l d) k = Some t ->
             (exists e, In (t, e) l /\ release_commit_sha e = k)
             \/ dict_get d k = Some t).
  { induction l as [|[t0 e0] l IH]; intros d H; cbn [fold_left] in H;
      [now right|].
    destruct (IH _ H) as [(e & He & Hk)|H'].
    - left. exists e. split; [now right | exact Hk].
    - cbn [fst snd] in H'.
      destruct (String.eqb_spec (release_commit_sha e0) k) as [E|E].
      + rewrite E, dict_get_set_eq in H'. injection H' as ->.
        left. exists e0. split; [now left | exact E].
      + rewrite dict_get_set_neq in H' by exact E. now right. }
  intros H. destruct (G rels [] H) as [H'|H']; [exact H' | discriminate].
Qed.

Lemma release_meta_sha (api : Api) (ric : dict string) (regen : list string)
    (rels : list ApiRelease) (t : string) :
  forall d : dict Release,
    (forall e, In (t, e) d -> release_commit_sha e = tagged_commit api t) ->
    forall e,
      In (t, e)
        (fold_left (release_meta (tags_sha_of (api_tags api)) ric regen) rels d) ->
      release_commit_sha e = tagged_commit api t.
Proof.
  induction rels as [|r rels IH]; intros d Hd e; cbn [fold_left]; [apply Hd|].
  apply IH. intros e' He'. unfold release_meta in He'.
  apply dict_set_In in He' as [[-> ->]|He']; [|now apply Hd].
  reflexivity.
Qed.

Lemma finish_walk_out (cfg : Config) (w w' : Walk) :
  finish_walk cfg w = Ok w' ->
  regenerate_releases w' <> [] ->
  exists out0, walk_out w' = (out0 ++ [WarnLeft (regenerate_releases w')])%list.
Proof.
  unfold finish_walk.
  assert (G : forall w1 : Walk,
             (if (0 <? List.length (regenerate_releases w1))%nat
              then Ok (reported w1) else Ok w1) = Ok w' ->
             regenerate_releases w' <> [] ->
             exists out0,
               walk_out w' = (out0 ++ [WarnLeft (regenerate_releases w')])%list).
  { intros w1. destruct (regenerate_releases w1) eqn:E; cbn [List.length Nat.ltb Nat.leb].
    - intros [= <-]. now rewrite E.
    - intros [= <-] _. exists (walk_out w1). cbn [reported walk_out regenerate_releases].
      now rewrite E. }
  destruct ((0 <? List.length (selected_commits w))%nat
            && list_mem (cur_release w) (regenerate_releases w));
    cbn [py_bind]; [|apply G].
  destruct (get_release_content cfg (walk_releases w) (cur_release w)
              (selected_commits w)) as [[[rc sc] out]|e];
    cbn [py_bind]; [|discriminate].
  destruct (failed sc); cbn [py_bind]; [apply G|].
  destruct (store_content (walk_releases w) (cur_release w) rc)
    as [releases'|e]; cbn [py_bind]; [apply G | discriminate].
Qed.

Lemma reconcile_finishes (cfg : Config) (api : Api) (st : State) (w : Walk) :
  reconcile cfg api st = Ok w -> exists w1, finish_walk cfg w1 = Ok w.
Proof.
  unfold reconcile.
  destruct (get_github_commits api) as [[commits out]|e]; cbn [py_bind];
    [|discriminate].
  destruct (0 <? List.length _)%nat.
  - destruct (walk_commits cfg _ commits _) as [w1|e]; cbn [py_bind];
      [eauto | discriminate].
  - cbn [py_bind]. eauto.
Qed.

Lemma reconcile_covered (cfg : Config) (api : Api) (st : State) (w : Walk) :
  reconcile cfg api st = Ok w -> covered w.
Proof.
  intros H. unfold covered.
  destruct (get_github_commits api) as [[commits out]|e] eqn:Ec;
    [|unfold reconcile in H; rewrite Ec in H; discriminate].
  exact (reconcile_inv cfg api st
           (fun _ regen rels =>
              forall t, In t regen -> dict_get rels t <> None)
           commits out w Ec
           (fun cur regen rels c next Hp _ _ => Hp)
           (fun cur regen rels r rc Hp _ _ =>
              covered_render regen rels cur (set_content r rc) Hp)
           (start_walk_covered cfg api st) H).
Qed.

(** A release that is to be rendered and to which no commit of the walk
    leads is left when [get_data] returns. *)
Lemma never_current_left (cfg : Config) (api : Api) (st' : State)
    (commits : list Commit) (out : list LogLine) (t : string) :
  get_data cfg api init_state = Ok st' ->
  distinct (map tag_name (api_releases api)) = true ->
  list_mem "Unreleased" (map tag_name (api_releases api)) = false ->
  get_github_commits api = Ok (commits, out) ->
  In t (regenerate_initial cfg (release_in_changelog st') (api_releases api)) ->
  t <> "Unreleased" ->
  (forall st1 c,
     get_exist_changelog api init_state = Ok st1 -> In c commits ->
     dict_get (release_commit_sha_list_of
                 (walk_releases (start_walk cfg api st1)))
       (commit_sha c) <> Some t) ->
  (exists r, dict_get (releases st') t = Some r /\ content r = "")
  /\ exists out0 left,
       stdout st' = (out0 ++ [WarnLeft left])%list /\ In t left.
Proof.
  intros Hg Hd Hu Hc Ht Hne Hnever. unfold get_data in Hg.
  destruct (get_exist_changelog api init_state) as [st1|e1] eqn:E1;
    cbn [py_bind] in Hg; [|discriminate].
  destruct (reconcile cfg api st1) as [w|e2] eqn:Er; cbn [py_bind] in Hg;
    [|discriminate].
  injection Hg as <-. cbn [releases release_in_changelog stdout] in *.
  pose proof (get_exist_changelog_releases api init_state st1 E1) as Hr.
  cbn [releases init_state] in Hr.
  apply distinct_NoDup in Hd. apply list_mem_false in Hu.
  pose proof (reconcile_left_blank cfg api st1 w Hr Hd Hu Er) as Hblank.
  pose proof (reconcile_covered cfg api st1 w Er) as Hcov.
  assert (Hin : cur_release w <> t /\ In t (regenerate_releases w)).
  { apply (reconcile_inv cfg api st1
             (fun cur regen _ => cur <> t /\ In t regen) commits out w Hc).
    - intros cur regen rels c next [Hp1 Hp2] Hcin Hk. split; [|exact Hp2].
      intros ->. exact (Hnever st1 c eq_refl Hcin Hk).
    - intros cur regen rels r rc [Hp1 Hp2] _ _. split; [exact Hp1|].
      now apply list_remove_keep.
    - split; [now apply not_eq_sym | exact Ht].
    - exact Er. }
  destruct Hin as [_ Hin]. split.
  - destruct (dict_get (walk_releases w) t) as [r|] eqn:Eg.
    + exists r. split; [reflexivity|]. now apply (Hblank t r Hin).
    + now destruct (Hcov t Hin).
  - destruct (reconcile_finishes cfg api st1 w Er) as [w1 Hf].
    destruct (finish_walk_out cfg w1 w Hf) as [out0 Ho].
    + intros E. rewrite E in Hin. destruct Hin.
    + now exists out0, (regenerate_releases w).
Qed.

(** X10.  A release that is to be rendered but whose tagged commit is not
    among the commits that are walked, because no tag bears its name or
    because its tag points to a commit outside the branch, is never
    rendered: when [get_data] returns on a fresh object, over releases
    with pairwise different tags none of which is [Unreleased], the
    content of that release is empty, so that [assemble_changelog] leaves
    it out, and the last line printed reports it as left. *)
Theorem unreachable_release_left (cfg : Config) (api : Api) (st' : State)
    (commits : list Commit) (out : list LogLine) (t : string) :
  get_data cfg api init_state = Ok st' ->
  distinct (map tag_name (api_releases api)) = true ->
  list_mem "Unreleased" (map tag_name (api_releases api)) = false ->
  get_github_commits api = Ok (commits, out) ->
  In t (regenerate_initial cfg (release_in_changelog st') (api_releases api)) ->
  t <> "Unreleased" ->
  (forall c, In c commits -> commit_sha c <> tagged_commit api t) ->
  (exists r, dict_get (releases st') t = Some r /\ content r = "")
  /\ exists out0 left,
       stdout st' = (out0 ++ [WarnLeft left])%list /\ In t left.
Proof.
  intros Hg Hd Hu Hc Ht Hne Hsha.
  apply (never_current_left cfg api st' commits out t Hg Hd Hu Hc Ht Hne).
  intros st1 c E1 Hcin Hk.
  pose proof (get_exist_changelog_releases api init_state st1 E1) as Hr.
  cbn [releases init_state] in Hr.
  apply release_commit_sha_list_sound in Hk as (e & He & Hk).
  apply (Hsha c Hcin). rewrite <- Hk.
  cbn [start_walk walk_releases] in He.
  apply (release_meta_sha api _ _ _ t _) in He; [exact He|].
  intros e'. rewrite Hr. unfold seed_unreleased.
  destruct (unreleased_commits cfg); cbn [dict_set In]; [|tauto].
  intros [[= E _]|[]]. now symmetry in E.
Qed.

Lemma unreachable_release_left_witness :
  (exists r,
     dict_get (releases Cases.st_untagged) "v1" = Some r /\ content r = "")
  /\ exists out0 left,
       stdout Cases.st_untagged = (out0 ++ [WarnLeft left])%list
       /\ In "v1" left.
Proof.
  apply (unreachable_release_left (Sample.cfg (-1)) Cases.api_untagged
           Cases.st_untagged Cases.commits [] "v1").
  - vm_compute. reflexivity.
  - reflexivity.
  - reflexivity.
  - reflexivity.
  - vm_compute. auto.
  - discriminate.
  - intros c [<-|[<-|[<-|[<-|[]]]]]; vm_compute; discriminate.
Defined.

(** ** Reconciliation: the releases a run sets out to render *)

Lemma get_release_content_same (cfg : Config) (rels rels' : dict Release)
    (t : string) (sel : list Commit) :
  dict_get rels' t = dict_get rels t ->
  get_release_content cfg rels' t sel = get_release_content cfg rels t sel.
Proof. intros H. unfold get_release_content. now rewrite H. Qed.

(** The rendering of a release does not read its content. *)
Lemma get_release_content_stored (cfg : Config) (rels : dict Release)
    (t c : string) (r : Release) (sel : list Commit) :
  dict_get rels t = Some r ->
  get_release_content cfg (dict_set rels t (set_content r c)) t sel
  = get_release_content cfg rels t sel.
Proof.
  intros H. unfold get_release_content. rewrite dict_get_set_eq, H.
  reflexivity.
Qed.

Lemma rendered_from_render (cfg : Config) (all : list Commit)
    (listed regen : list string) (rels : dict Release) (cur : string)
    (sel : list Commit) (rc : string) (sc : Z) (out : list LogLine)
    (r : Release) :
  (forall t, In t listed -> ~ In t regen -> rendered_from cfg all rels t) ->
  (forall c, In c sel -> In c all) ->
  get_release_content cfg rels cur sel = Ok (rc, sc, out) ->
  failed sc = false ->
  dict_get rels cur = Some r ->
  forall t, In t listed -> ~ In t (list_remove cur regen) ->
            rendered_from cfg all (dict_set rels cur (set_content r rc)) t.
Proof.
  intros Hinv Hsel Hg Hf Hr t Ht Hn.
  destruct (String.eqb_spec cur t) as [<-|Hne].
  - exists (set_content r rc), sel, sc, out. split; [|split; [|split]].
    + apply dict_get_set_eq.
    + exact Hsel.
    + rewrite (get_release_content_stored cfg rels cur rc r sel Hr).
      exact Hg.
    + exact Hf.
  - assert (Hn' : ~ In t regen)
      by (intros Hin; apply Hn; now apply list_remove_keep).
    destruct (Hinv t Ht Hn') as (r' & sel' & sc' & out' & H1 & H2 & H3 & H4).
    exists r', sel', sc', out'. split; [|split; [|split]].
    + now rewrite dict_get_set_neq.
    + exact H2.
    + rewrite (get_release_content_same cfg rels); [exact H3|].
      now rewrite dict_get_set_neq.
    + exact H4.
Qed.

Lemma walk_commits_rendered (cfg : Config) (sl : dict string)
    (all : list Commit) (listed : list string) (commits : list Commit) :
  (forall c, In c commits -> In c all) ->
  forall w w' : Walk,
    (forall c, In c (selected_commits w) -> In c all) ->
    (forall t, In t listed -> ~ In t (regenerate_releases w) ->
               rendered_from cfg all (walk_releases w) t) ->
    walk_commits cfg sl commits w = Ok w' ->
    (forall c, In c (selected_commits w') -> In c all)
    /\ (forall t, In t listed -> ~ In t (regenerate_releases w') ->
                  rendered_from cfg all (walk_releases w') t).
Proof.
  induction commits as [|c rest IH]; intros Hall w w' Hs Hw;
    cbn [walk_commits]; [intros [= <-]; now split|].
  assert (Hc : In c all) by (apply Hall; now left).
  assert (Hrest : forall c0, In c0 rest -> In c0 all)
    by (intros c0 H0; apply Hall; now right).
  assert (Hone : forall c0, In c0 [c] -> In c0 all)
    by (intros c0 [<-|[]]; exact Hc).
  destruct (dict_get sl (commit_sha c)) as [next|].
  2:{ apply IH; [exact Hrest | | exact Hw].
      cbn [selected_commits]. intros c0 H0.
      apply in_app_iff in H0 as [H0|H0]; [now apply Hs | now apply Hone]. }
  destruct (list_mem (cur_release w) (regenerate_releases w)) eqn:Hm.
  2:{ apply IH; [exact Hrest | exact Hone | exact Hw]. }
  destruct (get_release_content cfg (walk_releases w) (cur_release w)
              (selected_commits w)) as [[[rc sc] out]|e] eqn:Eg;
    cbn [py_bind]; [|discriminate].
  destruct (failed sc) eqn:Ef.
  { intros [= <-]. cbn [selected_commits regenerate_releases walk_releases].
    split; [intros c0 [] | exact Hw]. }
  destruct (store_content (walk_releases w) (cur_release w) rc)
    as [releases'|e] eqn:Es; cbn [py_bind]; [|discriminate].
  apply store_content_inv in Es as (r & Hr & ->).
  pose proof (rendered_from_render cfg all listed (regenerate_releases w)
                (walk_releases w) (cur_release w) (selected_commits w)
                rc sc out r Hw Hs Eg Ef Hr) as Hw'.
  destruct (List.length _ <=? 0)%nat.
  - intros [= <-]. cbn [selected_commits regenerate_releases walk_releases].
    split; [intros c0 [] | exact Hw'].
  - apply IH; [exact Hrest | exact Hone | exact Hw'].
Qed.

Lemma finish_walk_rendered (cfg : Config) (all : list Commit)
    (listed : list string) (w w' : Walk) :
  (forall c, In c (selected_commits w) -> In c all) ->
  (forall t, In t listed -> ~ In t (regenerate_releases w) ->
             rendered_from cfg all (walk_releases w) t) ->
  finish_walk cfg w = Ok w' ->
  forall t, In t listed -> ~ In t (regenerate_releases w') ->
            rendered_from cfg all (walk_releases w') t.
Proof.
  intros Hs Hw. unfold finish_walk.
  assert (G : forall w1 w2 : Walk,
             (forall t, In t listed -> ~ In t (regenerate_releases w1) ->
                        rendered_from cfg all (walk_releases w1) t) ->
             (if (0 <? List.length (regenerate_releases w1))%nat
              then Ok (reported w1) else Ok w1) = Ok w2 ->
             forall t, In t listed -> ~ In t (regenerate_releases w2) ->
                       rendered_from cfg all (walk_releases w2) t).
  { intros w1 w2 H1.
    destruct (0 <? List.length (regenerate_releases w1))%nat;
      now intros [= <-]. }
  destruct (0 <? List.length (selected_commits w))%nat;
    cbn [andb py_bind]; [|now apply G].
  destruct (list_mem (cur_release w) (regenerate_releases w)) eqn:Hm;
    cbn [py_bind]; [|now apply G].
  destruct (get_release_content cfg (walk_releases w) (cur_release w)
              (selected_commits w)) as [[[rc sc] out]|e] eqn:Eg;
    cbn [py_bind]; [|discriminate].
  destruct (failed sc) eqn:Ef; cbn [py_bind]; [now apply G|].
  destruct (store_content (walk_releases w) (cur_release w) rc)
    as [releases'|e] eqn:Es; cbn [py_bind]; [|discriminate].
  apply store_content_inv in Es as (r & Hr & ->).
  apply G. cbn [regenerate_releases walk_releases].
  exact (rendered_from_render cfg all listed (regenerate_releases w)
           (walk_releases w) (cur_release w) (selected_commits w)
           rc sc out r Hw Hs Eg Ef Hr).
Qed.

(** A release that has been crossed out of the list has been rendered. *)
Lemma reconcile_rendered (cfg : Config) (api : Api) (st : State)
    (commits : list Commit) (out : list LogLine) (w : Walk) :
  get_github_commits api = Ok (commits, out) ->
  reconcile cfg api st = Ok w ->
  forall t,
    In t (regenerate_releases (start_walk cfg api st)) ->
    ~ In t (regenerate_releases w) ->
    rendered_from cfg commits (walk_releases w) t.
Proof.
  intros Hc. unfold reconcile. rewrite Hc. cbn [py_bind].
  set (w0 := {| cur_release := cur_release (start_walk cfg api st) |}).
  set (listed := regenerate_releases (start_walk cfg api st)).
  assert (Hs0 : forall c, In c (selected_commits w0) -> In c commits)
    by (intros c []).
  assert (Hw0 : forall t, In t listed -> ~ In t (regenerate_releases w0) ->
                          rendered_from cfg commits (walk_releases w0) t)
    by (intros t Ht Hn; now destruct Hn).
  destruct (0 <? List.length (regenerate_releases w0))%nat.
  - destruct (walk_commits cfg _ commits w0) as [w1|e] eqn:E;
      cbn [py_bind]; [|discriminate].
    destruct (walk_commits_rendered cfg _ commits listed commits
                (fun c H => H) w0 w1 Hs0 Hw0 E) as [Hs1 Hw1].
    now apply finish_walk_rendered.
  - cbn [py_bind]. now apply finish_walk_rendered.
Qed.

(** What has been printed stays printed. *)
Lemma walk_commits_out (cfg : Config) (sl : dict string)
    (commits : list Commit) :
  forall (w w' : Walk) (line : LogLine),
    walk_commits cfg sl commits w = Ok w' ->
    In line (walk_out w) -> In line (walk_out w').
Proof.
  induction commits as [|c rest IH]; intros w w' line;
    cbn [walk_commits]; [now intros [= <-]|].
  destruct (dict_get sl (commit_sha c)) as [next|];
    [|intros H Hin; exact (IH _ _ line H Hin)].
  destruct (list_mem (cur_release w) (regenerate_releases w));
    [|intros H Hin; exact (IH _ _ line H Hin)].
  destruct (get_release_content cfg (walk_releases w) (cur_release w)
              (selected_commits w)) as [[[rc sc] out]|e];
    cbn [py_bind]; [|discriminate].
  destruct (failed sc).
  { intros [= <-] H. cbn [walk_out]. apply in_or_app. now left. }
  destruct (store_content (walk_releases w) (cur_release w) rc)
    as [releases'|e]; cbn [py_bind]; [|discriminate].
  destruct (List.length _ <=? 0)%nat.
  - intros [= <-] H. cbn [walk_out]. apply in_or_app. now left.
  - intros H Hin. apply (IH _ _ line H).
    cbn [walk_out]. apply in_or_app. now left.
Qed.

Lemma finish_walk_keeps_out (cfg : Config) (w w' : Walk) (line : LogLine) :
  finish_walk cfg w = Ok w' -> In line (walk_out w) -> In line (walk_out w').
Proof.
  unfold finish_walk.
  assert (G : forall w1 : Walk,
             (if (0 <? List.length (regenerate_releases w1))%nat
              then Ok (reported w1) else Ok w1) = Ok w' ->
             In line (walk_out w1) -> In line (walk_out w')).
  { intros w1. destruct (0 <? List.length (regenerate_releases w1))%nat;
      intros [= <-] H; [|exact H].
    cbn [reported walk_out]. apply in_or_app. now left. }
  destruct ((0 <? List.length (selected_commits w))%nat
            && list_mem (cur_release w) (regenerate_releases w));
    cbn [py_bind]; [|apply G].
  destruct (get_release_content cfg (walk_releases w) (cur_release w)
              (selected_commits w)) as [[[rc sc] out]|e];
    cbn [py_bind]; [|discriminate].
  destruct (failed sc); cbn [py_bind].
  - intros H Hin. apply (G _ H). cbn [walk_out]. apply in_or_app. now left.
  - destruct (store_content (walk_releases w) (cur_release w) rc)
      as [releases'|e]; cbn [py_bind]; [|discriminate].
    intros H Hin. apply (G _ H). cbn [walk_out]. apply in_or_app. now left.
Qed.

(** The list of the releases to render is printed. *)
Lemma reconcile_prints (cfg : Config) (api : Api) (st : State) (w : Walk) :
  reconcile cfg api st = Ok w ->
  In (InfoRegenerate
        (regenerate_initial cfg (release_in_changelog st) (api_releases api)))
    (walk_out w).
Proof.
  unfold reconcile.
  destruct (get_github_commits api) as [[commits out]|e]; cbn [py_bind];
    [|discriminate].
  set (w0 := {| cur_release := cur_release (start_walk cfg api st) |}).
  assert (H0 : In (InfoRegenerate
                     (regenerate_initial cfg (release_in_changelog st)
                        (api_releases api)))
                 (walk_out w0)).
  { cbn [w0 walk_out start_walk]. apply in_or_app. left.
    apply in_or_app. right. now left. }
  destruct (0 <? List.length (regenerate_releases w0))%nat.
  - destruct (walk_commits cfg _ commits w0) as [w1|e] eqn:E;
      cbn [py_bind]; [|discriminate].
    intros H. apply (finish_walk_keeps_out cfg w1 w _ H).
    exact (walk_commits_out cfg _ commits w0 w1 _ E H0).
  - cbn [py_bind]. intros H. now apply (finish_walk_keeps_out cfg w0 w _ H).
Qed.

Lemma release_meta_other (tags_sha ric : dict string) (regen : list string)
    (rels : list ApiRelease) (t : string) :
  ~ In t (map tag_name rels) ->
  forall d : dict Release,
    dict_get (fold_left (release_meta tags_sha ric regen) rels d) t
    = dict_get d t.
Proof.
  induction rels as [|r rels IH]; intros Hn d; [reflexivity|].
  cbn [fold_left]. cbn [map In] in Hn.
  rewrite IH by tauto. unfold release_meta.
  apply dict_get_set_neq. tauto.
Qed.

(** The synthetic entry is there exactly when unreleased commits are
    included, and the walk changes nothing of it but its content. *)
Lemma reconcile_unreleased (cfg : Config) (api : Api) (st : State)
    (w : Walk) :
  releases st = [] ->
  ~ In "Unreleased" (map tag_name (api_releases api)) ->
  reconcile cfg api st = Ok w ->
  if unreleased_commits cfg
  then exists c,
         dict_get (walk_releases w) "Unreleased"
         = Some (set_content unreleased_entry c)
  else dict_get (walk_releases w) "Unreleased" = None.
Proof.
  intros Hr Hu H.
  destruct (get_github_commits api) as [[commits out]|e] eqn:Ec;
    [|unfold reconcile in H; rewrite Ec in H; discriminate].
  apply (reconcile_inv cfg api st
           (fun _ _ rels =>
              if unreleased_commits cfg
              then exists c,
                     dict_get rels "Unreleased"
                     = Some (set_content unreleased_entry c)
              else dict_get rels "Unreleased" = None)
           commits out w Ec).
  - intros cur regen rels c next Hp _ _. exact Hp.
  - intros cur regen rels r rc Hp _ Hg.
    destruct (unreleased_commits cfg).
    + destruct Hp as [c0 H0].
      destruct (String.eqb_spec cur "Unreleased") as [->|Hne].
      * exists rc. rewrite dict_get_set_eq. rewrite H0 in Hg.
        now injection Hg as <-.
      * exists c0. now rewrite dict_get_set_neq.
    + rewrite dict_get_set_neq; [exact Hp|]. intros ->. congruence.
  - cbn [start_walk walk_releases].
    rewrite (release_meta_other _ _ _ _ _ Hu), Hr. unfold seed_unreleased.
    destruct (unreleased_commits cfg); [|reflexivity].
    exists "". reflexivity.
  - exact H.
Qed.

(** A release outside the list keeps the block of the existing
    changelog. *)
Lemma reconcile_keeps (cfg : Config) (api : Api) (st : State) (w : Walk)
    (t : string) :
  reconcile cfg api st = Ok w ->
  In t (map tag_name (api_releases api)) ->
  ~ In t (regenerate_initial cfg (release_in_changelog st)
            (api_releases api)) ->
  exists r, dict_get (walk_releases w) t = Some r
            /\ dict_get (release_in_changelog st) t = Some (content r).
Proof.
  intros H Ht Hn.
  set (regen0 := regenerate_initial cfg (release_in_changelog st)
                   (api_releases api)) in *.
  destruct (release_meta_content (tags_sha_of (api_tags api))
              (release_in_changelog st) regen0 (api_releases api) t
              (seed_unreleased cfg (releases st)) Ht) as (e0 & He0 & Hc0).
  assert (Hb : dict_get (release_in_changelog st) t = Some (content e0)).
  { destruct (dict_get (release_in_changelog st) t) as [b|] eqn:Eb.
    - rewrite (proj2 (list_mem_false t regen0) Hn) in Hc0. now rewrite Hc0.
    - exfalso. apply Hn. unfold regen0. apply regenerate_initial_spec.
      right. left. split; [exact Ht|]. unfold dict_mem. now rewrite Eb. }
  destruct (get_github_commits api) as [[commits out]|e] eqn:Ec;
    [|unfold reconcile in H; rewrite Ec in H; discriminate].
  pose proof (reconcile_inv cfg api st
                (fun _ regen rels =>
                   (forall x, In x regen -> In x regen0)
                   /\ dict_get rels t = Some e0)
                commits out w Ec) as Hinv.
  destruct Hinv as [_ Hfin].
  - intros cur regen rels c next Hp _ _. exact Hp.
  - intros cur regen rels r rc [Hp1 Hp2] Hm _. split.
    + intros x Hx. apply Hp1. now apply list_remove_In in Hx.
    + rewrite dict_get_set_neq; [exact Hp2|]. intros E. subst cur.
      apply Hn, Hp1. now apply list_mem_In.
  - split; [tauto | exact He0].
  - exact H.
  - now exists e0.
Qed.

(** The releases that are left were in the list. *)
Lemma reconcile_left_listed (cfg : Config) (api : Api) (st : State)
    (w : Walk) (t : string) :
  reconcile cfg api st = Ok w ->
  In t (regenerate_releases w) ->
  In t (regenerate_initial cfg (release_in_changelog st) (api_releases api)).
Proof.
  intros H.
  destruct (get_github_commits api) as [[commits out]|e] eqn:Ec;
    [|unfold reconcile in H; rewrite Ec in H; discriminate].
  revert t.
  apply (reconcile_inv cfg api st
           (fun _ regen _ =>
              forall t, In t regen ->
                        In t (regenerate_initial cfg (release_in_changelog st)
                                (api_releases api)))
           commits out w Ec).
  - intros cur regen rels c next Hp _ _. exact Hp.
  - intros cur regen rels r rc Hp _ _ t Ht. apply Hp.
    now apply list_remove_In in Ht.
  - intros t Ht. exact Ht.
  - exact H.
Qed.

(** C2, as the script has it.  When [get_data] returns on a fresh object,
    over releases with pairwise different tags none of which is
    [Unreleased]: the list of the releases the run sets out to render,
    which it prints, holds the first [regenerate_count] release tags (all
    of them when the count is negative), every release tag absent from
    the mapping parsed from the existing changelog, and ["Unreleased"]
    exactly when unreleased commits are included; in that case, and only
    then, [self.releases] holds the synthetic entry, with empty url, body,
    date and commit.  Only releases of the list are rendered: a release
    outside of it keeps the block of the existing changelog.  A release
    of the list is not always rendered: either it has been, and its
    content is what [get_release_content] returned for it on commits of
    the walk (the types being plain keywords), or it is left, with an
    empty content, and the last line printed names it. *)
Theorem regenerate_releases_run (cfg : Config) (api : Api) (st' : State) :
  get_data cfg api init_state = Ok st' ->
  distinct (map tag_name (api_releases api)) = true ->
  list_mem "Unreleased" (map tag_name (api_releases api)) = false ->
  let tags := map tag_name (api_releases api) in
  let listed :=
    regenerate_initial cfg (release_in_changelog st') (api_releases api) in
  (forall t,
     In t listed
     <-> In t (if (regenerate_count cfg <? 0)%Z then tags
               else firstn (Z.to_nat (regenerate_count cfg)) tags)
         \/ (In t tags /\ dict_mem (release_in_changelog st') t = false)
         \/ (unreleased_commits cfg = true /\ t = "Unreleased"))
  /\ In (InfoRegenerate listed) (stdout st')
  /\ (if unreleased_commits cfg
      then exists c,
             dict_get (releases st') "Unreleased"
             = Some (set_content unreleased_entry c)
      else dict_get (releases st') "Unreleased" = None)
  /\ (forall t,
        In t tags -> ~ In t listed ->
        exists r, dict_get (releases st') t = Some r
                  /\ dict_get (release_in_changelog st') t
                     = Some (content r))
  /\ exists (commits : list Commit) (out : list LogLine) (left : list string),
       get_github_commits api = Ok (commits, out)
       /\ (left <> [] ->
           exists out0, stdout st' = (out0 ++ [WarnLeft left])%list)
       /\ (forall t, In t left -> In t listed)
       /\ forall t,
            In t listed ->
            if list_mem t left
            then exists r, dict_get (releases st') t = Some r
                           /\ content r = ""
            else keyword_types (part_name cfg) ->
                 rendered_from cfg commits (releases st') t.
Proof.
  intros Hg Hd Hu tags listed. unfold get_data in Hg.
  destruct (get_exist_changelog api init_state) as [st1|e1] eqn:E1;
    cbn [py_bind] in Hg; [|discriminate].
  destruct (reconcile cfg api st1) as [w|e2] eqn:Er; cbn [py_bind] in Hg;
    [|discriminate].
  injection Hg as <-. subst listed.
  cbn [releases release_in_changelog stdout].
  pose proof (get_exist_changelog_releases api init_state st1 E1) as Hr.
  cbn [releases init_state] in Hr.
  apply distinct_NoDup in Hd. apply list_mem_false in Hu.
  split; [|split; [|split; [|split]]].
  - intros t. apply regenerate_initial_spec.
  - exact (reconcile_prints cfg api st1 w Er).
  - exact (reconcile_unreleased cfg api st1 w Hr Hu Er).
  - intros t Ht Hn. now apply (reconcile_keeps cfg api st1 w t Er).
  - destruct (get_github_commits api) as [[commits out]|e] eqn:Ec;
      [|unfold reconcile in Er; rewrite Ec in Er; discriminate].
    exists commits, out, (regenerate_releases w).
    split; [reflexivity|]. split; [|split].
    + intros Hne. destruct (reconcile_finishes cfg api st1 w Er) as [w1 Hf].
      exact (finish_walk_out cfg w1 w Hf Hne).
    + intros t. exact (reconcile_left_listed cfg api st1 w t Er).
    + intros t Ht.
      destruct (list_mem t (regenerate_releases w)) eqn:Hm.
      * apply list_mem_In in Hm.
        pose proof (reconcile_covered cfg api st1 w Er t Hm) as Hk.
        destruct (dict_get (walk_releases w) t) as [r|] eqn:Eg;
          [|now destruct Hk].
        exists r. split; [reflexivity|].
        exact (reconcile_left_blank cfg api st1 w Hr Hd Hu Er t r Hm Eg).
      * apply list_mem_false in Hm. intros _.
        exact (reconcile_rendered cfg api st1 commits out w Ec Er t Ht Hm).
Qed.

Lemma regenerate_releases_run_witness :
  In (InfoRegenerate ["v1"; "Unreleased"]) (stdout Cases.st_kept)
  /\ (exists c,
        dict_get (releases Cases.st_kept) "Unreleased"
        = Some (set_content unreleased_entry c))
  /\ exists r, dict_get (releases Cases.st_kept) "v0" = Some r
               /\ dict_get (release_in_changelog Cases.st_kept) "v0"
                  = Some (content r).
Proof.
  pose proof (regenerate_releases_run (Sample.cfg 1) Sample.api Cases.st_kept
                ltac:(vm_compute; reflexivity) eq_refl eq_refl) as H.
  cbv zeta in H. destruct H as (_ & Hp & Hs & Hk & _).
  split; [exact Hp|]. split; [exact Hs|].
  apply (Hk "v0").
  - right. now left.
  - vm_compute. intros [H|[H|[]]]; discriminate H.
Defined.

(** C2, as the specification words it, fails: a release of the list is
    not always rendered.  Of two releases tagged at the same commit the
    commit leads to the one that comes last, here [v1-rc]; [v1] is in the
    list that is printed, it is never the current release, its content
    stays empty whereas a rendering always holds its heading, and the
    last line printed reports it as left. *)
Lemma regenerate_releases_counterexample :
  get_data (Sample.cfg (-1)) Cases.api_shared init_state = Ok Cases.st_shared
  /\ stdout Cases.st_shared
     = [InfoRegenerate ["v1"; "v1-rc"; "v0"; "Unreleased"]; WarnLeft ["v1"]]
  /\ option_map content (dict_get (releases Cases.st_shared) "v1") = Some ""
  /\ get_release_content (Sample.cfg (-1)) (releases Cases.st_shared) "v1" []
     = Ok ("## [v1](https://example.org/r/v1) - 2021-12-29" ++ nl ++ nl
           ++ "Notes" ++ nl ++ nl, 0%Z, []).
Proof. repeat split; vm_compute; reflexivity. Qed.

(** ** A run on a changelog that is up to date *)

Lemma dict_mem_keys {V} (d : dict V) (k : string) :
  dict_mem d k = true <-> In k (dict_keys d).
Proof.
  unfold dict_mem. induction d as [|[k0 v0] d IH]; cbn [dict_get dict_keys map fst In].
  - split; [discriminate | tauto].
  - destruct (String.eqb_spec k0 k) as [E|E]; [tauto|].
    fold (dict_keys d). rewrite IH. tauto.
Qed.

Lemma regenerate_fold_known (ric : dict string) (rels : list ApiRelease) :
  (forall r, In r rels -> dict_mem ric (tag_name r) = true) ->
  forall regen : list string,
    fold_left
      (fun regen r =>
         if negb (dict_mem ric (tag_name r))
            && negb (list_mem (tag_name r) regen)
         then (regen ++ [tag_name r])%list else regen)
      rels regen
    = regen.
Proof.
  induction rels as [|r rels IH]; intros H regen; [reflexivity|].
  cbn [fold_left]. rewrite (H r (or_introl eq_refl)). cbn [negb andb].
  apply IH. intros r' Hr'. apply H. now right.
Qed.

Lemma release_meta_entry (tags_sha ric : dict string) (regen : list string)
    (d : dict Release) (r : ApiRelease) :
  release_meta tags_sha ric regen d r
  = dict_set d (tag_name r) (meta_entry tags_sha ric regen r).
Proof. reflexivity. Qed.

Lemma release_meta_fresh (tags_sha ric : dict string) (regen : list string)
    (rels : list ApiRelease) :
  NoDup (map tag_name rels) ->
  forall d : dict Release,
    (forall r, In r rels -> ~ In (tag_name r) (dict_keys d)) ->
    fold_left (release_meta tags_sha ric regen) rels d
    = (d ++ map (fun r => (tag_name r, meta_entry tags_sha ric regen r)) rels)%list.
Proof.
  induction rels as [|r rels IH]; intros Hn d Hd; cbn [fold_left map].
  - now rewrite app_nil_r.
  - inversion Hn as [|? ? Hr Hn']; subst.
    rewrite release_meta_entry, dict_set_fresh by (apply Hd; now left).
    rewrite IH; [now rewrite <- app_assoc | exact Hn' |].
    intros r' Hr' Hin.
    unfold dict_keys in Hin. rewrite map_app, in_app_iff in Hin.
    cbn [map fst In] in Hin. destruct Hin as [Hin|[E|[]]].
    + apply (Hd r'); [now right | exact Hin].
    + apply Hr. rewrite E. now apply in_map.
Qed.

Lemma block_text_strip (tag c : string) :
  block_ok tag c = true -> block_text (strip_nl c) = block_text c.
Proof.
  intros H. unfold block_text. rewrite strip_idem.
  destruct (String.eqb_spec c "") as [->|Hc]; [reflexivity|].
  destruct (block_ok_inv tag c H Hc) as (Hs & _). rewrite Hs. reflexivity.
Qed.

Lemma regenerate_initial_none (cfg : Config) (ric : dict string)
    (rels : list ApiRelease) :
  regenerate_count cfg = 0%Z ->
  unreleased_commits cfg = false ->
  (forall r, In r rels -> dict_mem ric (tag_name r) = true) ->
  regenerate_initial cfg ric rels = [].
Proof.
  intros Hc Hu Hk. unfold regenerate_initial. rewrite Hc, Hu.
  cbn [Z.ltb Z.compare Z.to_nat firstn].
  now apply regenerate_fold_known.
Qed.

(** When no release is to be rendered the commits are listed and nothing
    else happens. *)
Lemma reconcile_nothing (cfg : Config) (api : Api) (st : State)
    (commits : list Commit) (out : list LogLine) :
  regenerate_initial cfg (release_in_changelog st) (api_releases api) = [] ->
  get_github_commits api = Ok (commits, out) ->
  reconcile cfg api st
  = Ok {| cur_release := "Unreleased";
          selected_commits := [];
          regenerate_releases := [];
          walk_releases :=
            fold_left
              (release_meta (tags_sha_of (api_tags api))
                 (release_in_changelog st) [])
              (api_releases api) (seed_unreleased cfg (releases st));
          walk_out := ((stdout st ++ [InfoRegenerate []]) ++ out)%list |}.
Proof.
  intros Hr Hc. unfold reconcile, start_walk. rewrite Hc, Hr.
  cbn [py_bind regenerate_releases List.length Nat.ltb Nat.leb
       cur_release selected_commits walk_releases walk_out].
  unfold finish_walk.
  cbn [py_bind regenerate_releases List.length Nat.ltb Nat.leb andb
       cur_release selected_commits walk_releases walk_out].
  reflexivity.
Qed.

Lemma stored_blocks_all (rels : dict Release) :
  (forall e, In e rels ->
             content (snd e) <> "" /\ unreleased_block (content (snd e)) = false) ->
  stored_blocks rels = map (fun e => (fst e, strip_nl (content (snd e)))) rels.
Proof.
  induction rels as [|e rels IH]; intros H; [reflexivity|].
  rewrite stored_blocks_cons.
  destruct (H e (or_introl eq_refl)) as [Hc Hu].
  apply String.eqb_neq in Hc. rewrite Hc, Hu. cbn [negb andb app map].
  f_equal. apply IH. intros e' He'. apply H. now right.
Qed.

Lemma map_eq_transfer {A B C} (f : A -> C) (g : B -> C) (l1 : list A)
    (l2 : list B) :
  map f l1 = map g l2 ->
  forall (D : Type) (h : C -> D),
    map (fun a => h (f a)) l1 = map (fun b => h (g b)) l2.
Proof.
  intros H D h. rewrite <- (map_map f h), <- (map_map g h). now rewrite H.
Qed.

(** X11.  A run that finds its own work undone changes nothing.  When the
    changelog file is what [assemble_changelog] writes for the releases
    of the repository, taken in their order, the tags are pairwise
    different, and each release has a block that is not empty, opens with
    [## [tag]] for its own tag, a tag without closing bracket or newline,
    and holds no further separator of releases (no line [## ] after an
    empty line, as a heading of the second level in a description would
    be), and the script lists the commits and runs with a regenerate
    count of 0 and without unreleased commits, then [get_data] returns on
    a fresh object, every release holds its block of the file, the
    assembled document is the file byte for byte, and [write_data], as
    [main] calls it in the mode [github], prints that the changelog is
    the same and sends no request. *)
Theorem up_to_date_run (cfg : Config) (api : Api) (rels : dict Release)
    (commits : list Commit) (out : list LogLine) :
  regenerate_count cfg = 0%Z ->
  unreleased_commits cfg = false ->
  map tag_name (api_releases api) = dict_keys rels ->
  distinct (dict_keys rels) = true ->
  forallb (fun e => block_ok (fst e) (content (snd e))
                    && negb (String.eqb (content (snd e)) "")
                    && negb (unreleased_block (content (snd e)))) rels
    = true ->
  api_contents api = inr (assemble_changelog rels) ->
  get_github_commits api = Ok (commits, out) ->
  (exists st,
     get_data cfg api init_state = Ok st
     /\ dict_keys (releases st) = dict_keys rels
     /\ map (fun e => content (snd e)) (releases st)
        = map (fun e => strip_nl (content (snd e))) rels
     /\ assemble_changelog (releases st) = assemble_changelog rels)
  /\ forall (inputs : Inputs) (author : option (string * string))
            (wapi : WriteApi),
       main_github cfg inputs author api wapi
       = ([Printed WarnSame], Ok (contents_sha wapi)).
Proof.
  intros Hcount Hun Htags Hdist Hblocks Hfile Hcommits.
  apply distinct_NoDup in Hdist.
  assert (Hall : forall e, In e rels ->
                   block_ok (fst e) (content (snd e)) = true
                   /\ content (snd e) <> ""
                   /\ unreleased_block (content (snd e)) = false).
  { intros e He. apply (proj1 (forallb_forall _ _) Hblocks) in He.
    apply andb_prop in He as [He H3]. apply andb_prop in He as [H1 H2].
    apply negb_true_iff in H2, H3. apply String.eqb_neq in H2. tauto. }
  assert (Hok : forall e, In e rels ->
                  block_ok (fst e) (content (snd e)) = true)
    by (intros e He; now apply Hall).
  pose proof (analyze_assembled_blocks rels Hok Hdist) as Hparse.
  rewrite stored_blocks_all in Hparse by (intros e He; now apply Hall).
  set (ric := map (fun e => (fst e, strip_nl (content (snd e)))) rels) in *.
  assert (Hrk : dict_keys ric = dict_keys rels)
    by (unfold ric, dict_keys; rewrite map_map; reflexivity).
  assert (Hget : forall e, In e rels ->
                   dict_get ric (fst e) = Some (strip_nl (content (snd e)))).
  { intros e He.
    apply (dict_get_entry ric (fst e, strip_nl (content (snd e)))).
    - now rewrite Hrk.
    - unfold ric. now apply (in_map (fun e0 => (fst e0, strip_nl (content (snd e0))))). }
  destruct (analyze_changelog (assemble_changelog rels) []) as [ric' out']
    eqn:Ea.
  cbn [fst] in Hparse. subst ric'.
  set (st1 := {| releases := []; changelog := assemble_changelog rels;
                 release_in_changelog := ric; file_exists := true;
                 stdout := out' |}).
  assert (E1 : get_exist_changelog api init_state = Ok st1).
  { unfold get_exist_changelog. rewrite Hfile.
    cbn [init_state release_in_changelog releases stdout file_exists].
    now rewrite Ea. }
  assert (Hregen : regenerate_initial cfg (release_in_changelog st1)
                     (api_releases api) = []).
  { apply regenerate_initial_none; [exact Hcount | exact Hun |].
    intros r Hr. apply dict_mem_keys. cbn [st1 release_in_changelog].
    rewrite Hrk, <- Htags. now apply in_map. }
  pose proof (reconcile_nothing cfg api st1 commits out Hregen Hcommits) as E2.
  assert (Hrel : fold_left
                   (release_meta (tags_sha_of (api_tags api))
                      (release_in_changelog st1) [])
                   (api_releases api) (seed_unreleased cfg (releases st1))
                 = map (fun r => (tag_name r,
                                  meta_entry (tags_sha_of (api_tags api)) ric [] r))
                     (api_releases api)).
  { unfold seed_unreleased. rewrite Hun. cbn [st1 releases release_in_changelog].
    rewrite release_meta_fresh; [reflexivity | now rewrite Htags |].
    intros r _ []. }
  rewrite Hrel in E2. clear Hrel.
  set (final := map (fun r => (tag_name r,
                               meta_entry (tags_sha_of (api_tags api)) ric [] r))
                  (api_releases api)) in *.
  assert (Hkeys : dict_keys final = dict_keys rels)
    by (unfold final, dict_keys; rewrite map_map; exact Htags).
  assert (Hcontents : map (fun e => content (snd e)) final
                      = map (fun e => strip_nl (content (snd e))) rels).
  { unfold final. rewrite map_map. cbn [snd meta_entry release_entry content list_mem negb].
    rewrite (map_eq_transfer tag_name fst (api_releases api) rels Htags _
               (fun t => match dict_get ric t with
                         | Some block => block
                         | None => ""
                         end)).
    apply map_ext_in. intros e He. now rewrite (Hget e He). }
  assert (Hdoc : assemble_changelog final = assemble_changelog rels).
  { rewrite !assemble_text.
    assert (Hm : map (fun e => block_text (content (snd e))) final
                 = map (fun e => block_text (content (snd e))) rels).
    { rewrite <- (map_map (fun e => content (snd e)) block_text final), Hcontents.
      rewrite map_map. apply map_ext_in. intros e He.
      now apply (block_text_strip (fst e)), Hok. }
    now rewrite Hm. }
  assert (Hdata : get_data cfg api init_state
                  = Ok {| releases := final;
                          changelog := assemble_changelog rels;
                          release_in_changelog := ric;
                          file_exists := true;
                          stdout := ((out' ++ [InfoRegenerate []]) ++ out)%list |}).
  { unfold get_data. rewrite E1. cbn [py_bind]. rewrite E2. reflexivity. }
  split.
  - eexists. split; [exact Hdata|]. cbn [releases]. tauto.
  - intros inputs author wapi. unfold main_github. rewrite Hdata.
    unfold write_data. cbn [releases changelog]. rewrite Hdoc, String.eqb_refl.
    unfold self_of. rewrite Hfile. reflexivity.
Qed.

Lemma up_to_date_run_witness :
  main_github Cases.cfg_new_only Cases.inputs None Cases.api_up_to_date
    Cases.wapi_ok
  = ([Printed WarnSame], Ok (contents_sha Cases.wapi_ok)).
Proof.
  apply (up_to_date_run Cases.cfg_new_only Cases.api_up_to_date
           Cases.written_releases Cases.commits []).
  - reflexivity.
  - reflexivity.
  - reflexivity.
  - reflexivity.
  - vm_compute. reflexivity.
  - reflexivity.
  - reflexivity.
Defined.

(** ** Reconciliation: two releases at one commit *)

Lemma release_commit_sha_list_last (pre post : dict Release) (t2 : string)
    (e2 : Release) (t' : string) :
  dict_get (release_commit_sha_list_of (pre ++ (t2, e2) :: post)%list)
    (release_commit_sha e2) = Some t' ->
  In t' (map fst ((t2, e2) :: post)).
Proof.
  unfold release_commit_sha_list_of. rewrite fold_left_app.
  cbn [fold_left fst snd].
  set (d := dict_set _ (release_commit_sha e2) t2).
  assert (Hd : dict_get d (release_commit_sha e2) = Some t2)
    by apply dict_get_set_eq.
  clearbody d. cbn [map fst In].
  assert (G : forall (l : dict Release) (d0 : dict string) (t0 : string),
             dict_get d0 (release_commit_sha e2) = Some t0 ->
             dict_get
               (fold_left
                  (fun d1 x => dict_set d1 (release_commit_sha (snd x)) (fst x))
                  l d0) (release_commit_sha e2) = Some t' ->
             t0 = t' \/ In t' (map fst l)).
  { induction l as [|[t3 e3] l IH]; intros d0 t0 H0; cbn [fold_left].
    - rewrite H0. intros [= <-]. now left.
    - intros H. cbn [fst snd map In] in *.
      destruct (String.eqb_spec (release_commit_sha e3)
                  (release_commit_sha e2)) as [E|E].
      + apply (IH _ t3) in H; [tauto|]. rewrite E. apply dict_get_set_eq.
      + apply (IH _ t0) in H; [tauto|]. now rewrite dict_get_set_neq. }
  intros H. exact (G post d t2 Hd H).
Qed.

(** X12.  When two releases are tagged at the same commit, the one that
    comes first in the list of releases is never rendered: the commit
    leads to the other one.  If it is to be rendered, its content is
    empty when [get_data] returns on a fresh object, over releases with
    pairwise different tags none of which is [Unreleased], and the last
    line printed reports it as left. *)
Theorem shadowed_release_left (cfg : Config) (api : Api) (st' : State)
    (commits : list Commit) (out : list LogLine)
    (pre mid post : list ApiRelease) (r1 r2 : ApiRelease) :
  get_data cfg api init_state = Ok st' ->
  api_releases api = (pre ++ r1 :: mid ++ r2 :: post)%list ->
  tagged_commit api (tag_name r2) = tagged_commit api (tag_name r1) ->
  distinct (map tag_name (api_releases api)) = true ->
  list_mem "Unreleased" (map tag_name (api_releases api)) = false ->
  get_github_commits api = Ok (commits, out) ->
  In (tag_name r1)
    (regenerate_initial cfg (release_in_changelog st') (api_releases api)) ->
  (exists r, dict_get (releases st') (tag_name r1) = Some r /\ content r = "")
  /\ exists out0 left,
       stdout st' = (out0 ++ [WarnLeft left])%list /\ In (tag_name r1) left.
Proof.
  intros Hg Hrels Hsame Hd Hu Hc Ht.
  assert (Hne : tag_name r1 <> "Unreleased").
  { intros E. apply list_mem_false in Hu. apply Hu. rewrite Hrels, map_app.
    apply in_or_app. right. left. exact E. }
  apply (never_current_left cfg api st' commits out (tag_name r1)
           Hg Hd Hu Hc Ht Hne).
  intros st1 c E1 Hcin Hk.
  pose proof (get_exist_changelog_releases api init_state st1 E1) as Hr.
  cbn [releases init_state] in Hr.
  pose proof (distinct_NoDup _ Hd) as Hn.
  set (f := fun r => (tag_name r,
                      meta_entry (tags_sha_of (api_tags api))
                        (release_in_changelog st1)
                        (regenerate_initial cfg (release_in_changelog st1)
                           (api_releases api)) r)).
  assert (Hstart : walk_releases (start_walk cfg api st1)
                   = (seed_unreleased cfg [] ++ map f (api_releases api))%list).
  { cbn [start_walk walk_releases]. rewrite Hr.
    apply release_meta_fresh; [exact Hn|].
    intros r Hin Hkey. apply list_mem_false in Hu. apply Hu.
    unfold seed_unreleased in Hkey.
    destruct (unreleased_commits cfg); cbn [dict_set dict_keys map fst In] in Hkey;
      [|destruct Hkey].
    destruct Hkey as [E|[]]. rewrite E. now apply in_map. }
  rewrite Hstart in Hk.
  pose proof Hk as Hk'.
  apply release_commit_sha_list_sound in Hk' as (e & He & Hsha).
  assert (Hentry : release_commit_sha e = tagged_commit api (tag_name r1)).
  { apply in_app_or in He as [He|He].
    - exfalso. unfold seed_unreleased in He.
      destruct (unreleased_commits cfg); cbn [dict_set In] in He; [|exact He].
      destruct He as [[= E _]|[]]. now symmetry in E.
    - apply in_map_iff in He as (r & Er & _). unfold f in Er.
      injection Er as Et <-. cbn [meta_entry release_entry release_commit_sha].
      unfold tagged_commit. now rewrite Et. }
  rewrite Hrels in Hk.
  replace (seed_unreleased cfg [] ++ map f (pre ++ r1 :: mid ++ r2 :: post))%list
    with ((seed_unreleased cfg [] ++ map f (pre ++ r1 :: mid))
          ++ f r2 :: map f post)%list in Hk
    by (rewrite !map_app; cbn [map]; rewrite !map_app; cbn [map];
        now rewrite <- !app_assoc).
  assert (Hsha2 : release_commit_sha (snd (f r2)) = commit_sha c).
  { unfold f. cbn [snd meta_entry release_entry release_commit_sha].
    fold (tagged_commit api (tag_name r2)). now rewrite Hsame, <- Hentry. }
  rewrite <- Hsha2 in Hk.
  change (f r2) with (fst (f r2), snd (f r2)) in Hk at 1.
  apply release_commit_sha_list_last in Hk.
  rewrite Hrels in Hn. rewrite map_app in Hn. cbn [map] in Hn.
  rewrite map_app in Hn. cbn [map] in Hn.
  apply NoDup_remove_2 in Hn. apply Hn. apply in_or_app. right.
  apply in_or_app. right.
  cbn [map fst In] in Hk. rewrite map_map in Hk. cbn [fst] in Hk.
  cbn [In]. exact Hk.
Qed.

Lemma shadowed_release_left_witness :
  (exists r,
     dict_get (releases Cases.st_shared) "v1" = Some r /\ content r = "")
  /\ exists out0 left,
       stdout Cases.st_shared = (out0 ++ [WarnLeft left])%list
       /\ In "v1" left.
Proof.
  apply (shadowed_release_left (Sample.cfg (-1)) Cases.api_shared
           Cases.st_shared Cases.commits [] [] [] [Sample.rel0]
           Sample.rel1 Cases.rel_rc).
  - vm_compute. reflexivity.
  - reflexivity.
  - reflexivity.
  - reflexivity.
  - reflexivity.
  - reflexivity.
  - vm_compute. auto.
Defined.

(** ** Writing the changelog *)

(** Case analysis on the answers of the repository, in the order in which
    [write_data] asks for them. *)
Ltac run_step :=
  cbn [io_bind io_try request say io_ret io_raise fst snd app written
       requests flat_map];
  match goal with
  | |- context [if ?x then _ else _] => destruct x eqn:?
  | |- context [request _ ?x] => destruct x as [[? ?]|?] eqn:?
  end.

Ltac run_cases := unfold write_data; repeat run_step;
  cbn [io_bind io_try request say io_ret io_raise fst snd app written
       requests flat_map].

(** X13.  [write_data] writes the changelog at most once in a run, and
    what it writes is the document [assemble_changelog] gives for
    [self.releases].  When the document equals the changelog that was
    read, it prints one line and sends no request at all; when it
    differs and [write_data] returns normally, the document has been
    written exactly once. *)
Theorem write_data_writes (self : Self) (api : WriteApi) (st : State) :
  let run := write_data self api st in
  (written (fst run) = []
   \/ written (fst run) = [assemble_changelog (releases st)])
  /\ (assemble_changelog (releases st) = changelog st ->
      run = ([Printed WarnSame], Ok (file_sha self)))
  /\ (assemble_changelog (releases st) <> changelog st ->
      forall sha, snd run = Ok sha ->
      written (fst run) = [assemble_changelog (releases st)]).
Proof.
  cbv zeta. split; [|split].
  - run_cases; auto.
  - intros E. unfold write_data. apply String.eqb_eq in E. rewrite E.
    reflexivity.
  - intros Hne sha. apply String.eqb_neq in Hne.
    unfold write_data. rewrite Hne.
    repeat run_step;
      cbn [io_bind io_try request say io_ret io_raise fst snd app written
           requests flat_map];
      intros; try discriminate; reflexivity.
Qed.

Lemma write_data_writes_witness :
  written (fst (write_data Cases.self Cases.wapi_ok Cases.st_found))
  = [assemble_changelog (releases Cases.st_found)].
Proof.
  apply (proj2 (proj2 (write_data_writes Cases.self Cases.wapi_ok
                         Cases.st_found))
           ltac:(vm_compute; discriminate) "0a0a0a0a").
  vm_compute. reflexivity.
Defined.

(** X14.  [write_data] asks for a pull request only when there is one to
    ask for: the changelog differs from the one that was read, it has
    just been written, the target branch of the pull request is not
    empty and is not the branch of the file.  The request is then the
    last event of the run, from the branch of the file to the target,
    with the commit message as its title and body.  In every other run
    no pull request is asked for. *)
Theorem write_data_pull_request (self : Self) (api : WriteApi) (st : State)
    (title body base : string) (head : option string)
    (refused : option (Z * string)) :
  In (Requested (CreatePull title body base head) refused)
    (fst (write_data self api st)) ->
  assemble_changelog (releases st) <> changelog st
  /\ pull_request self <> ""
  /\ Some (pull_request self) <> branch self
  /\ written (fst (write_data self api st))
     = [assemble_changelog (releases st)]
  /\ CreatePull title body base head
     = CreatePull (self_commit_message self) (self_commit_message self)
         (pull_request self) (branch self)
  /\ last (fst (write_data self api st)) (Printed WarnSame)
     = Requested (CreatePull title body base head) refused.
Proof.
  assert (Hd : forall p b, differs p b = true -> Some p <> b).
  { intros p [b|]; cbn [differs]; [|discriminate].
    intros H [= ->]. now rewrite String.eqb_refl in H. }
  unfold write_data.
  destruct (String.eqb_spec (assemble_changelog (releases st)) (changelog st))
    as [E|E].
  - cbn. intros [H|[]]. discriminate.
  - repeat run_step;
      cbn [io_bind io_try request say io_ret io_raise fst snd app written
           requests flat_map In last];
      intros H;
      repeat match goal with
             | H : _ \/ _ |- _ => destruct H as [H|H]
             | H : False |- _ => destruct H
             | H : Printed _ = Requested _ _ |- _ => discriminate H
             | H : Requested (UpdateFile _ _ _ _ _ _) _ = Requested _ _ |- _ =>
                 discriminate H
             | H : Requested (CreateFile _ _ _ _ _) _ = Requested _ _ |- _ =>
                 discriminate H
             | H : Requested (GetBranch _) _ = Requested _ _ |- _ =>
                 discriminate H
             | H : Requested (CreateGitRef _ _) _ = Requested _ _ |- _ =>
                 discriminate H
             | H : Requested (GetContents _ _) _ = Requested _ _ |- _ =>
                 discriminate H
             end;
      match goal with
      | H : Requested (CreatePull _ _ _ _) _ = Requested _ _,
        Hc : negb (String.eqb (pull_request self) "")
             && differs (pull_request self) (branch self) = true |- _ =>
          injection H as <- <- <- <- <-;
          apply andb_prop in Hc as [Hc1 Hc2];
          apply negb_true_iff, String.eqb_neq in Hc1;
          apply Hd in Hc2;
          repeat split; assumption
      end.
Qed.

Lemma write_data_pull_request_witness :
  assemble_changelog (releases Cases.st_found) <> changelog Cases.st_found
  /\ pull_request Cases.self <> ""
  /\ Some (pull_request Cases.self) <> branch Cases.self
  /\ written (fst (write_data Cases.self Cases.wapi_ok Cases.st_found))
     = [assemble_changelog (releases Cases.st_found)]
  /\ CreatePull (self_commit_message Cases.self)
       (self_commit_message Cases.self) "main" (Some "changelog")
     = CreatePull (self_commit_message Cases.self)
         (self_commit_message Cases.self) (pull_request Cases.self)
         (branch Cases.self)
  /\ last (fst (write_data Cases.self Cases.wapi_ok Cases.st_found))
       (Printed WarnSame)
     = Requested
         (CreatePull (self_commit_message Cases.self)
            (self_commit_message Cases.self) "main" (Some "changelog"))
         None.
Proof.
  apply (write_data_pull_request Cases.self Cases.wapi_ok Cases.st_found).
  vm_compute. repeat (first [left; reflexivity | right]).
Defined.

(** X15.  When the changelog file does not exist yet and the request to
    create it is refused with status 404, [write_data] creates the branch
    of the file at the head of the target branch of the pull request and
    looks for the file on the new branch: if it is there, it is updated
    against the sha that was just found; if it is not (404 again), it is
    created; any other refusal is raised again and nothing is written. *)
Theorem write_data_missing_branch (self : Self) (api : WriteApi) (st : State)
    (data new_sha : string) :
  assemble_changelog (releases st) <> changelog st ->
  file_exists st = false ->
  create_file api = inl (404%Z, data) ->
  get_branch api = inr new_sha ->
  create_git_ref api = inr tt ->
  let run := write_data self api st in
  let create :=
    CreateFile (path self) (self_commit_message self)
      (assemble_changelog (releases st)) (branch self) (author self) in
  firstn 4 (requests (fst run))
  = [create; GetBranch (pull_request self);
     CreateGitRef (branch self) new_sha;
     GetContents (path self) (branch self)]
  /\ match contents_on_new_ref api with
     | inr sha =>
         nth_error (requests (fst run)) 4
         = Some (UpdateFile (path self) (self_commit_message self)
                   (assemble_changelog (releases st)) sha (branch self)
                   (author self))
     | inl (status, data') =>
         if (status =? 404)%Z
         then nth_error (requests (fst run)) 4 = Some create
         else run
              = ([Printed InfoCreate;
                  Requested create (Some (404%Z, data));
                  Requested (GetBranch (pull_request self)) None;
                  Requested (CreateGitRef (branch self) new_sha) None;
                  Requested (GetContents (path self) (branch self))
                    (Some (status, data'))],
                 Raise (GithubException status data'))
     end.
Proof.
  intros Hne Hf Hc Hb Hr. cbv zeta. apply String.eqb_neq in Hne.
  unfold write_data. rewrite Hne, Hf, Hc, Hb, Hr.
  cbn [io_bind io_try request say io_ret io_raise fst snd app Z.eqb
       Pos.eqb].
  destruct (contents_on_new_ref api) as [[status data']|sha].
  - cbn [io_bind io_try request say io_ret io_raise fst snd app].
    destruct (status =? 404)%Z.
    + repeat run_step; cbn; split; reflexivity.
    + cbn. split; reflexivity.
  - repeat run_step; cbn; split; reflexivity.
Qed.

Lemma write_data_missing_branch_witness :
  firstn 4
    (requests (fst (write_data Cases.self Cases.wapi_no_branch
                      Cases.st_absent)))
  = [CreateFile "CHANGELOG.md" (self_commit_message Cases.self)
       (assemble_changelog (releases Cases.st_absent)) (Some "changelog")
       (author Cases.self);
     GetBranch "main"; CreateGitRef (Some "changelog") "b1b1b1b1";
     GetContents "CHANGELOG.md" (Some "changelog")]
  /\ nth_error
       (requests (fst (write_data Cases.self Cases.wapi_no_branch
                         Cases.st_absent))) 4
     = Some (CreateFile "CHANGELOG.md" (self_commit_message Cases.self)
               (assemble_changelog (releases Cases.st_absent))
               (Some "changelog") (author Cases.self)).
Proof.
  apply (write_data_missing_branch Cases.self Cases.wapi_no_branch
           Cases.st_absent "Branch not found" "b1b1b1b1").
  - vm_compute. discriminate.
  - vm_compute. reflexivity.
  - reflexivity.
  - reflexivity.
  - reflexivity.
Defined.

(** ** The author of the commit *)

(** X16.  [__init__] takes the first two words of the committer, cut at
    single spaces, as the name and the address of the author, and ignores
    what follows them; an empty committer gives no author; a committer
    that is not empty and holds no space raises [IndexError]. *)
Theorem author_of_spec (committer : string) :
  (author_of committer = None
   <-> committer <> "" /\ has_char " " committer = false)
  /\ (author_of committer = Some None <-> committer = "")
  /\ (forall name email : string,
        has_char " " name = false -> has_char " " email = false ->
        (committer = name ++ " " ++ email
         \/ exists rest, committer = name ++ " " ++ email ++ " " ++ rest) ->
        author_of committer = Some (Some (name, email))).
Proof.
  unfold author_of. split; [|split].
  - destruct (String.eqb_spec committer "") as [->|Hne].
    + split; [discriminate | intros [H _]; now destruct H].
    + pose proof (split_char_length " " committer) as Hl.
      split.
      * intros H. split; [exact Hne|]. apply count_char_none.
        destruct (split " " committer) as [|a [|b l]]; try discriminate;
          cbn [List.length] in Hl; lia.
      * intros [_ H]. apply count_char_none in H. rewrite H in Hl.
        destruct (split " " committer) as [|a [|b l]]; try reflexivity.
        discriminate.
  - destruct (String.eqb_spec committer "") as [->|Hne]; [tauto|].
    split; [|contradiction].
    now destruct (split " " committer) as [|a [|b l]].
  - intros name email Hn He Hc.
    assert (Hs : exists l, split " " committer = name :: email :: l).
    { destruct Hc as [->|[rest ->]].
      - change (name ++ " " ++ email) with (name ++ String " " email).
        rewrite (split_char_app " " name email Hn),
                (split_char_none " " email He). now exists [].
      - change (name ++ " " ++ email ++ " " ++ rest)
          with (name ++ String " " (email ++ String " " rest)).
        rewrite (split_char_app " " name _ Hn),
                (split_char_app " " email rest He). eauto. }
    destruct Hs as [l Hs]. rewrite Hs.
    destruct (String.eqb_spec committer "") as [E|_]; [|reflexivity].
    rewrite E in Hs. discriminate.
Qed.

Lemma author_of_spec_witness :
  author_of "bot bot@example.org github-actions"
  = Some (Some ("bot", "bot@example.org")).
Proof.
  apply (proj2 (proj2 (author_of_spec "bot bot@example.org github-actions"))
           "bot" "bot@example.org").
  - reflexivity.
  - reflexivity.
  - right. exists "github-actions". reflexivity.
Defined.

(** ** The document the assembler writes *)

Lemma analyze_segment_warns (acc : dict string * list LogLine) (seg : string) :
  ~ In WarnBadChangelog (snd acc) ->
  ~ In WarnBadChangelog (snd (analyze_segment acc seg)).
Proof.
  intros H. unfold analyze_segment.
  destruct (startswith seg "Unreleased" || String.eqb seg ""); [exact H|].
  destruct (search_bracket seg); cbn [snd]; [exact H|].
  rewrite in_app_iff. cbn [In]. intros [H'|[H'|[]]]; [tauto | discriminate].
Qed.

Lemma analyze_fold_warns (segs : list string) :
  forall acc : dict string * list LogLine,
    ~ In WarnBadChangelog (snd acc) ->
    ~ In WarnBadChangelog (snd (fold_left analyze_segment segs acc)).
Proof.
  induction segs as [|seg segs IH]; intros acc H; [exact H|].
  cbn [fold_left]. now apply IH, analyze_segment_warns.
Qed.

(** X17.  Whatever the releases hold, the document [assemble_changelog]
    writes begins with the title line and ends with the signature line
    and a newline, so that [analyze_changelog] never refuses it as a
    changelog that is not in the correct format. *)
Theorem assembled_well_formed (rels : dict Release) (ric : dict string) :
  startswith (assemble_changelog rels) BEGIN_CHANGELOG_TITLE = true
  /\ endswith (assemble_changelog rels) (END_CHANGELOG_SIGNATURE ++ nl) = true
  /\ ~ In WarnBadChangelog
         (snd (analyze_changelog (assemble_changelog rels) ric)).
Proof.
  assert (H1 : startswith (assemble_changelog rels) BEGIN_CHANGELOG_TITLE
               = true).
  { rewrite assemble_text. unfold startswith. apply prefix_append. }
  assert (H2 : endswith (assemble_changelog rels)
                 (END_CHANGELOG_SIGNATURE ++ nl) = true).
  { rewrite assemble_text.
    rewrite <- (append_assoc BEGIN_CHANGELOG_TITLE). apply endswith_append. }
  split; [exact H1|]. split; [exact H2|].
  unfold analyze_changelog. rewrite H1, H2. cbn [andb].
  apply analyze_fold_warns. cbn [snd]. tauto.
Qed.

(** ** Commit classifier: the head of a message *)

Lemma contains_no_occ (sep a : string) :
  contains sep a = false -> no_occ_before sep a "" = true.
Proof.
  induction a as [|c a IH]; intros H; [reflexivity|].
  rewrite contains_cons in H. apply orb_false_iff in H as [Hp Hc].
  rewrite no_occ_before_cons, append_nil_r, Hp, (IH Hc). reflexivity.
Qed.

(** A paragraph that does not end with a newline is cut off at the blank
    line that follows it. *)
Lemma paragraph_no_occ (p t : string) :
  contains (nl ++ nl) p = false -> rstrip_nl p = p ->
  no_occ_before (nl ++ nl) p ((nl ++ nl) ++ t) = true.
Proof.
  induction p as [|c p IH]; intros Hc Hr; [reflexivity|].
  rewrite contains_cons in Hc. apply orb_false_iff in Hc as [Hp Hc].
  rewrite no_occ_before_cons. apply andb_true_intro. split.
  - apply negb_true_iff. destruct p as [|c' p].
    + cbn [rstrip_nl] in Hr. destruct (is_nl c) eqn:En; [discriminate|].
      cbn [String.append]. change (nl ++ nl) with (String nl_char nl).
      rewrite prefix_cons. unfold is_nl in En. rewrite Ascii.eqb_sym in En.
      now rewrite En.
    + change (String c (String c' p ++ (nl ++ nl) ++ t))
        with (String c (String c' p) ++ (nl ++ nl) ++ t).
      rewrite prefix_append_long; [exact Hp | cbn; lia].
  - destruct p as [|c' p]; [reflexivity|]. apply IH; [exact Hc|].
    destruct (rstrip_nl (String c' p)) as [|d r] eqn:E.
    + cbn [rstrip_nl] in Hr. fold rstrip_nl in Hr. cbn [rstrip_nl] in E.
      rewrite E in Hr. now destruct (is_nl c).
    + rewrite rstrip_cons_nonempty in Hr by (rewrite E; discriminate).
      injection Hr as Hr.
      change (rstrip_nl (String c' p) = String c' p) in Hr.
      now rewrite E in Hr.
Qed.

Lemma split_hd_prefix (sep s : string) :
  exists t, s = hd "" (split sep s) ++ t.
Proof.
  unfold split. induction s as [|c s IH]; [now exists ""|].
  cbn [split_go]. destruct (prefix sep (String c s)).
  - now exists (String c s).
  - destruct IH as [t Ht].
    pose proof (split_nonempty sep s) as Hn. unfold split in Hn.
    destruct (split_go sep 0 s) as [|h l]; [contradiction|].
    cbn [cons_head hd] in *. exists t. cbn [String.append]. now rewrite <- Ht.
Qed.

Lemma take_drop (n : nat) (s : string) : take n s ++ drop n s = s.
Proof.
  revert s. induction n as [|n IH]; intros s; [reflexivity|].
  destruct s as [|c s]; [reflexivity|]. cbn [take drop String.append].
  now rewrite IH.
Qed.

(** X18.  The head of a commit message is its first paragraph, as it
    stands, in every case but the one of the truncation splice: a message
    without blank line is its own head, and a first paragraph that is
    followed by a blank line is the head unless it ends with ["..."] and
    the text after the blank line begins with ["..."]. *)
Theorem message_head_plain (p rest : string) :
  contains (nl ++ nl) p = false ->
  message_head p = p
  /\ (rstrip_nl p = p ->
      String.eqb (last_n 3 p) "..." && prefix "..." rest = false ->
      message_head (p ++ nl ++ nl ++ rest) = p).
Proof.
  intros Hc. split.
  - unfold message_head.
    rewrite (split_no_sep (nl ++ nl) p (contains_no_occ _ _ Hc)).
    cbn [hd List.length Nat.ltb Nat.leb]. now rewrite andb_false_r.
  - intros Hr Hd. unfold message_head.
    replace (p ++ nl ++ nl ++ rest) with (p ++ (nl ++ nl) ++ rest)
      by now rewrite !append_assoc.
    rewrite (split_at_sep (nl ++ nl) p rest);
      [|discriminate | now apply paragraph_no_occ].
    cbn [hd nth].
    destruct (String.eqb (last_n 3 p) "...") eqn:El; cbn [andb]; [|reflexivity].
    cbn [andb] in Hd.
    destruct (1 <? List.length (p :: split (nl ++ nl) rest))%nat;
      [|reflexivity].
    destruct (String.eqb_spec (take 3 (nth 0 (split (nl ++ nl) rest) "")) "...")
      as [E|E]; [|reflexivity].
    exfalso. destruct (split_hd_prefix (nl ++ nl) rest) as [t Ht].
    assert (Eh : nth 0 (split (nl ++ nl) rest) ""
                 = hd "" (split (nl ++ nl) rest))
      by now destruct (split (nl ++ nl) rest).
    rewrite Eh in E.
    rewrite <- (take_drop 3 (hd "" (split (nl ++ nl) rest))), E in Ht.
    rewrite Ht, append_assoc in Hd.
    now rewrite prefix_append in Hd.
Qed.

Lemma message_head_plain_witness :
  message_head "feat(ui): add a button" = "feat(ui): add a button"
  /\ message_head ("feat(ui): add a button" ++ nl ++ nl ++ "It was missing.")
     = "feat(ui): add a button".
Proof.
  destruct (message_head_plain "feat(ui): add a button" "It was missing."
              eq_refl) as [H1 H2].
  split.
  - exact H1.
  - apply H2; reflexivity.
Defined.

(** ** The [TYPE] input *)

Lemma split_types_go_nonempty (s : string) (k : nat) : split_types_go k s <> [].
Proof.
  revert k. induction s as [|c s IH]; intros k; cbn [split_types_go];
    [discriminate|].
  destruct k; [|apply IH].
  destruct (comma_sep (String c s)); [discriminate|].
  specialize (IH 0). now destruct (split_types_go 0 s).
Qed.

Lemma comma_sep_none_item (c : ascii) (a t : string) :
  has_char "," (String c a) = false ->
  ends_with_space (String c a) = false ->
  comma_sep (String c (a ++ String "," t)) = None.
Proof.
  cbn [has_char]. intros H He. apply orb_false_iff in H as [Hc Ha].
  unfold comma_sep, is_char. cbn [String.eqb]. rewrite Hc. cbn [andb].
  destruct a as [|c' a].
  - cbn [ends_with_space] in He. now rewrite He.
  - cbn [has_char] in Ha. apply orb_false_iff in Ha as [Hc' _].
    cbn [String.append]. rewrite Hc'. cbn [andb].
    now destruct (is_space c).
Qed.

Lemma split_types_item (a t : string) :
  has_char "," a = false -> ends_with_space a = false ->
  split_types_go 0 (a ++ String "," t)
  = a :: split_types_go (if starts_with_space t then 1 else 0) t.
Proof.
  induction a as [|c a IH]; intros H He.
  - cbn [String.append split_types_go comma_sep is_char String.eqb Ascii.eqb
         Bool.eqb andb].
    unfold starts_with_space. destruct t as [|d t]; [reflexivity|].
    now destruct (is_space d).
  - cbn [String.append split_types_go].
    rewrite (comma_sep_none_item c a t H He).
    cbn [has_char] in H. apply orb_false_iff in H as [_ Ha].
    rewrite IH; [reflexivity | exact Ha |].
    destruct a as [|c' a]; [reflexivity | exact He].
Qed.

Lemma split_types_last (a : string) :
  has_char "," a = false -> split_types_go 0 a = [a].
Proof.
  induction a as [|c a IH]; intros H; [reflexivity|].
  cbn [has_char] in H. apply orb_false_iff in H as [Hc Ha].
  cbn [split_types_go]. rewrite (IH Ha).
  assert (E : comma_sep (String c a) = None).
  { unfold comma_sep, is_char. cbn [String.eqb]. rewrite Hc. cbn [andb].
    destruct (is_space c); [|reflexivity].
    destruct a as [|c' a]; [reflexivity|].
    cbn [has_char] in Ha. apply orb_false_iff in Ha as [Hc' _].
    now rewrite Hc'. }
  now rewrite E.
Qed.

Lemma split_types_no_comma (s : string) :
  forall k : nat,
    Forall (fun p => has_char "," p = false) (split_types_go k s).
Proof.
  induction s as [|c s IH]; intros k; cbn [split_types_go];
    [repeat constructor|].
  destruct k; [|apply IH].
  destruct (comma_sep (String c s)) eqn:E; [constructor; [reflexivity | apply IH]|].
  assert (Hc : Ascii.eqb c "," = false).
  { unfold comma_sep, is_char in E. cbn [String.eqb] in E.
    destruct (Ascii.eqb c ","); [discriminate | reflexivity]. }
  specialize (IH 0). destruct (split_types_go 0 s) as [|p l];
    cbn [cons_head]; [repeat constructor; cbn [has_char]; now rewrite Hc|].
  inversion IH as [|? ? Hp Hl]; subst. constructor; [|exact Hl].
  cbn [has_char]. now rewrite Hc, Hp.
Qed.

(** X19.  The [TYPE] input is cut at its commas, each with at most one
    whitespace before it and one after it: no part holds a comma, and a
    list of items that hold no comma and no whitespace at their two
    ends, written with [", "] or with [","] between them, is read back
    item by item. *)
Theorem split_types_spec :
  (forall s : string, Forall (fun p => has_char "," p = false) (split_types s))
  /\ (forall items : list string,
        items <> [] ->
        forallb trimmed_item items = true ->
        split_types (join ", " items) = items
        /\ split_types (join "," items) = items).
Proof.
  split; [intros s; apply split_types_no_comma|].
  intros items Hne Hall.
  assert (G : forall sp : string,
             sp = "" \/ sp = " " ->
             split_types (join (String "," sp) items) = items).
  { intros sp Hsp. unfold split_types, join.
    induction items as [|a items IH]; [contradiction|].
    cbn [forallb] in Hall. apply andb_prop in Hall as [Ha Hall].
    unfold trimmed_item in Ha. apply andb_prop in Ha as [Ha He].
    apply andb_prop in Ha as [Hc Hs].
    apply negb_true_iff in Hc, Hs, He.
    destruct items as [|b items].
    - cbn [String.concat]. now apply split_types_last.
    - change (String.concat (String "," sp) (a :: b :: items))
        with (a ++ String "," (sp ++ String.concat (String "," sp) (b :: items))).
      rewrite (split_types_item a _ Hc He). f_equal.
      specialize (IH ltac:(discriminate) Hall).
      cbn [forallb] in Hall. apply andb_prop in Hall as [Hb _].
      unfold trimmed_item in Hb. apply andb_prop in Hb as [Hb _].
      apply andb_prop in Hb as [Hbc Hbs]. apply negb_true_iff in Hbc, Hbs.
      destruct Hsp as [->| ->].
      + cbn [String.append].
        assert (E : starts_with_space
                      (String.concat "," (b :: items)) = false).
        { destruct items as [|b' items]; cbn [String.concat].
          - exact Hbs.
          - destruct b as [|cb b]; [reflexivity | exact Hbs]. }
        rewrite E. exact IH.
      + cbn [String.append starts_with_space].
        change (is_space " ") with true. cbn iota.
        cbn [split_types_go]. exact IH. }
  split; [apply (G " "); now right | apply (G ""); now left].
Qed.

Lemma split_types_spec_witness :
  split_types (join ", " ["feat:Feature"; "fix:Bug Fixes"; "docs:Documentation"])
  = ["feat:Feature"; "fix:Bug Fixes"; "docs:Documentation"]
  /\ split_types (join "," ["feat:Feature"; "fix:Bug Fixes"; "docs:Documentation"])
     = ["feat:Feature"; "fix:Bug Fixes"; "docs:Documentation"].
Proof.
  apply (proj2 split_types_spec
           ["feat:Feature"; "fix:Bug Fixes"; "docs:Documentation"]).
  - discriminate.
  - reflexivity.
Defined.

(** ** Reconciliation: rendering every release anew *)

(** What the walk does depends on what was printed before in no way. *)
Lemma walk_commits_core (cfg : Config) (sl : dict string)
    (commits : list Commit) :
  forall w1 w2 : Walk,
    core w1 = core w2 ->
    match walk_commits cfg sl commits w1, walk_commits cfg sl commits w2 with
    | Ok a, Ok b => core a = core b
    | Raise e1, Raise e2 => e1 = e2
    | _, _ => False
    end.
Proof.
  induction commits as [|c rest IH]; intros [cur1 sel1 regen1 rels1 out1]
    [cur2 sel2 regen2 rels2 out2] H; unfold core in H;
    cbn [cur_release selected_commits regenerate_releases walk_releases] in H;
    injection H as <- <- <- <-; cbn [walk_commits]; [reflexivity|].
  cbn [cur_release selected_commits regenerate_releases walk_releases walk_out].
  destruct (dict_get sl (commit_sha c)) as [next|]; [|now apply IH].
  destruct (list_mem cur1 regen1); [|now apply IH].
  destruct (get_release_content cfg rels1 cur1 sel1) as [[[rc sc] out]|e];
    cbn [py_bind]; [|reflexivity].
  destruct (failed sc); [reflexivity|].
  destruct (store_content rels1 cur1 rc) as [releases'|e]; cbn [py_bind];
    [|reflexivity].
  destruct (List.length _ <=? 0)%nat; [reflexivity | now apply IH].
Qed.

Lemma finish_walk_core (cfg : Config) (w1 w2 : Walk) :
  core w1 = core w2 ->
  match finish_walk cfg w1, finish_walk cfg w2 with
  | Ok a, Ok b => core a = core b
  | Raise e1, Raise e2 => e1 = e2
  | _, _ => False
  end.
Proof.
  destruct w1 as [cur1 sel1 regen1 rels1 out1], w2 as [cur2 sel2 regen2 rels2 out2].
  unfold core. cbn [cur_release selected_commits regenerate_releases walk_releases].
  intros [= <- <- <- <-]. unfold finish_walk.
  cbn [cur_release selected_commits regenerate_releases walk_releases walk_out].
  destruct ((0 <? List.length sel1)%nat && list_mem cur1 regen1);
    cbn [py_bind regenerate_releases].
  - destruct (get_release_content cfg rels1 cur1 sel1) as [[[rc sc] out]|e];
      cbn [py_bind]; [|reflexivity].
    destruct (failed sc); cbn [py_bind regenerate_releases].
    + now destruct (0 <? List.length regen1)%nat.
    + destruct (store_content rels1 cur1 rc) as [releases'|e];
        cbn [py_bind regenerate_releases]; [|reflexivity].
      now destruct (0 <? List.length (list_remove cur1 regen1))%nat.
  - now destruct (0 <? List.length regen1)%nat.
Qed.

Lemma regenerate_fold_listed (ric : dict string) (rels : list ApiRelease) :
  forall regen : list string,
    (forall r, In r rels -> list_mem (tag_name r) regen = true) ->
    fold_left
      (fun regen r =>
         if negb (dict_mem ric (tag_name r))
            && negb (list_mem (tag_name r) regen)
         then (regen ++ [tag_name r])%list else regen)
      rels regen
    = regen.
Proof.
  induction rels as [|r rels IH]; intros regen H; [reflexivity|].
  cbn [fold_left]. rewrite (H r (or_introl eq_refl)), andb_false_r.
  apply IH. intros r' Hr'. apply H. now right.
Qed.

Lemma regenerate_initial_all (cfg : Config) (ric : dict string)
    (rels : list ApiRelease) :
  (regenerate_count cfg < 0)%Z ->
  regenerate_initial cfg ric rels
  = (map tag_name rels
     ++ (if unreleased_commits cfg then ["Unreleased"] else []))%list.
Proof.
  intros Hc. apply Z.ltb_lt in Hc. unfold regenerate_initial. rewrite Hc.
  rewrite regenerate_fold_listed.
  - destruct (unreleased_commits cfg); [reflexivity | now rewrite app_nil_r].
  - intros r Hr. apply list_mem_In. now apply in_map.
Qed.

Lemma release_meta_listed (tags_sha ric ric' : dict string)
    (regen : list string) (rels : list ApiRelease) :
  (forall r, In r rels -> list_mem (tag_name r) regen = true) ->
  forall d : dict Release,
    fold_left (release_meta tags_sha ric regen) rels d
    = fold_left (release_meta tags_sha ric' regen) rels d.
Proof.
  induction rels as [|r rels IH]; intros H d; [reflexivity|].
  cbn [fold_left].
  assert (E : release_meta tags_sha ric regen d r
              = release_meta tags_sha ric' regen d r).
  { unfold release_meta. rewrite (H r (or_introl eq_refl)). cbn [negb].
    now destruct (dict_get ric (tag_name r)), (dict_get ric' (tag_name r)). }
  rewrite E. apply IH. intros r' Hr'. apply H. now right.
Qed.

Lemma start_walk_full (cfg : Config) (api api' : Api) (st st' : State) :
  (regenerate_count cfg < 0)%Z ->
  api_releases api' = api_releases api ->
  api_tags api' = api_tags api ->
  releases st' = releases st ->
  core (start_walk cfg api' st') = core (start_walk cfg api st).
Proof.
  intros Hc Hr Ht Hs. unfold core, start_walk.
  cbn [cur_release selected_commits regenerate_releases walk_releases].
  rewrite Hr, Ht, Hs, !(regenerate_initial_all cfg _ _ Hc).
  f_equal. apply release_meta_listed.
  intros r Hin. apply list_mem_In, in_or_app. left. now apply in_map.
Qed.

Lemma reconcile_core (cfg : Config) (api api' : Api) (st st' : State) :
  get_github_commits api' = get_github_commits api ->
  core (start_walk cfg api' st') = core (start_walk cfg api st) ->
  match reconcile cfg api' st', reconcile cfg api st with
  | Ok a, Ok b => core a = core b
  | Raise e1, Raise e2 => e1 = e2
  | _, _ => False
  end.
Proof.
  intros Hc Hs. unfold reconcile. rewrite Hc.
  destruct (get_github_commits api) as [[commits out]|e]; cbn [py_bind];
    [|reflexivity].
  set (w1 := {| cur_release := cur_release (start_walk cfg api' st') |}).
  set (w2 := {| cur_release := cur_release (start_walk cfg api st) |}).
  assert (Hw : core w1 = core w2) by exact Hs.
  assert (Hregen : regenerate_releases w1 = regenerate_releases w2)
    by (unfold core in Hw; congruence).
  assert (Hrels : walk_releases w1 = walk_releases w2)
    by (unfold core in Hw; congruence).
  rewrite Hregen, Hrels.
  destruct (0 <? List.length (regenerate_releases w2))%nat; cbn [py_bind].
  - pose proof (walk_commits_core cfg
                  (release_commit_sha_list_of (walk_releases w2))
                  commits w1 w2 Hw) as H.
    destruct (walk_commits cfg _ commits w1) as [a|e1],
             (walk_commits cfg _ commits w2) as [b|e2];
      cbn [py_bind]; try contradiction; [|exact H].
    now apply finish_walk_core.
  - now apply finish_walk_core.
Qed.

(** X20.  With a negative regenerate count every release is rendered
    anew, and what the existing changelog file holds makes no difference:
    had the file held any other text, or been absent, [get_data] would
    have returned the same releases, and the assembled document would be
    the same. *)
Theorem full_regeneration_ignores_file (cfg : Config) (api : Api)
    (st : State) (contents' : (Z * string) + string) :
  (regenerate_count cfg < 0)%Z ->
  get_data cfg api init_state = Ok st ->
  (forall status data, contents' = inl (status, data) -> status = 404%Z) ->
  let api' := {| api_contents := contents';
                 api_releases := api_releases api;
                 api_tags := api_tags api;
                 api_branch_commits := api_branch_commits api;
                 api_default_commits := api_default_commits api |} in
  (exists st', get_data cfg api' init_state = Ok st'
               /\ releases st' = releases st)
  /\ main_local cfg api' = main_local cfg api.
Proof.
  intros Hc Hg H404 api'.
  assert (G : exists st', get_data cfg api' init_state = Ok st'
                          /\ releases st' = releases st).
  { unfold get_data in Hg |- *.
    destruct (get_exist_changelog api init_state) as [st1|e1] eqn:E1;
      cbn [py_bind] in Hg; [|discriminate].
    destruct (reconcile cfg api st1) as [w|e2] eqn:Er; cbn [py_bind] in Hg;
      [|discriminate].
    injection Hg as <-. cbn [releases].
    assert (E1' : exists st1', get_exist_changelog api' init_state = Ok st1').
    { unfold get_exist_changelog. cbn [api' api_contents].
      destruct contents' as [[status data]|text].
      - rewrite (H404 status data eq_refl). cbn. eauto.
      - destruct (analyze_changelog text _). eauto. }
    destruct E1' as [st1' E1']. rewrite E1'. cbn [py_bind].
    pose proof (get_exist_changelog_releases _ _ _ E1) as R1.
    pose proof (get_exist_changelog_releases _ _ _ E1') as R1'.
    pose proof (reconcile_core cfg api api' st1 st1' eq_refl
                  (start_walk_full cfg api api' st1 st1' Hc eq_refl eq_refl
                     (eq_trans R1' (eq_sym R1)))) as Hcore.
    rewrite Er in Hcore.
    destruct (reconcile cfg api' st1') as [w'|e']; [|contradiction].
    cbn [py_bind]. eexists. split; [reflexivity|]. cbn [releases].
    unfold core in Hcore. congruence. }
  split; [exact G|].
  destruct G as (st' & Hg' & Hr). unfold main_local.
  rewrite Hg, Hg'. cbn [py_bind]. now rewrite Hr.
Qed.

Lemma full_regeneration_ignores_file_witness :
  main_local (Sample.cfg (-1))
    {| api_contents := inl (404%Z, "Not Found");
       api_releases := api_releases Sample.api;
       api_tags := api_tags Sample.api;
       api_branch_commits := api_branch_commits Sample.api;
       api_default_commits := api_default_commits Sample.api |}
  = main_local (Sample.cfg (-1)) Sample.api.
Proof.
  apply (full_regeneration_ignores_file (Sample.cfg (-1)) Sample.api
           Cases.st_found (inl (404%Z, "Not Found"))).
  - reflexivity.
  - vm_compute. reflexivity.
  - intros status data H. now injection H as <- _.
Defined.

(** ** Reconciliation: the buckets *)

Lemma bucket_fold_done (cfg : Config) (bs : list (string * list Commit))
    (rels : dict Release) :
  fold_left (bucket_step cfg) bs ([], rels) = ([], rels).
Proof. induction bs as [|b bs IH]; [reflexivity | exact IH]. Qed.

Lemma forallb_snoc {A} (f : A -> bool) (l : list A) (x : A) :
  forallb f (l ++ [x]) = forallb f l && f x.
Proof. rewrite forallb_app. cbn [forallb]. now rewrite andb_true_r. Qed.

(** A bucket whose pull requests are all delivered is rendered, when the
    parts hold one colon each and the release is known. *)
Lemma get_release_content_rendered (cfg : Config) (rels : dict Release)
    (t : string) (bucket : list Commit) (r : Release) :
  (forall part, In part (part_name cfg) -> count_char ":" part = 1) ->
  forallb resolved bucket = true ->
  dict_get rels t = Some r ->
  get_release_content cfg rels t bucket = Ok (rendered cfg r t bucket, 0%Z, []).
Proof.
  intros Hp Hb Hr. unfold get_release_content, rendered.
  rewrite (select_commits_resolved bucket [] Hb), Hr. cbn [app].
  destruct (generate_release_changelog r (map selected_of bucket) t
              (part_name cfg) (default_scope cfg) (suppress_unscoped cfg)
              (replace_empty_release_info cfg)) as [c|e] eqn:E;
    [reflexivity|].
  apply release_changelog_raise in E as (_ & part & Hin & Hbad).
  now apply Hp in Hin.
Qed.

Lemma finish_walk_idle (cfg : Config) (w : Walk) :
  selected_commits w = [] ->
  exists w', finish_walk cfg w = Ok w'
             /\ regenerate_releases w' = regenerate_releases w
             /\ walk_releases w' = walk_releases w.
Proof.
  intros Hs. unfold finish_walk. rewrite Hs.
  change (0 <? List.length (@nil Commit))%nat with false.
  cbn [andb py_bind].
  destruct (0 <? List.length (regenerate_releases w))%nat;
    eexists; (split; [reflexivity|]); split; reflexivity.
Qed.

(** The walk and what follows it, as a fold over the buckets. *)
Lemma walk_buckets (cfg : Config) (sl : dict string) (commits : list Commit) :
  (forall part, In part (part_name cfg) -> count_char ":" part = 1) ->
  forallb resolved commits = true ->
  forall w : Walk,
    covered w ->
    forallb resolved (selected_commits w) = true ->
    exists w1 w',
      walk_commits cfg sl commits w = Ok w1
      /\ finish_walk cfg w1 = Ok w'
      /\ (regenerate_releases w', walk_releases w')
         = fold_left (bucket_step cfg)
             (buckets sl commits (cur_release w) (selected_commits w))
             (regenerate_releases w, walk_releases w).
Proof.
  intros Hp. induction commits as [|c rest IH]; intros Hc w Hcov Hsel.
  - exists w. cbn [walk_commits buckets].
    unfold finish_walk.
    destruct (selected_commits w) as [|c0 sel] eqn:Es.
    + change (0 <? List.length (@nil Commit))%nat with false.
      cbn [andb py_bind fold_left].
      destruct (0 <? List.length (regenerate_releases w))%nat;
        eexists; (split; [reflexivity|]); split; reflexivity.
    + change (0 <? List.length (c0 :: sel))%nat with true.
      cbn [andb py_bind fold_left].
      unfold bucket_step. cbn [fst snd].
      destruct (list_mem (cur_release w) (regenerate_releases w)) eqn:Hm.
      * destruct (dict_get (walk_releases w) (cur_release w)) as [r|] eqn:Er;
          [|exfalso; apply (Hcov (cur_release w)); [now apply list_mem_In | exact Er]].
        rewrite (get_release_content_rendered cfg _ _ _ r Hp Hsel Er).
        cbn [py_bind failed Z.eqb negb andb].
        rewrite (store_content_ok _ _ _ r Er). cbn [py_bind regenerate_releases].
        destruct (0 <? List.length _)%nat; eexists;
          (split; [reflexivity|]); (split; [reflexivity|]); reflexivity.
      * cbn [py_bind].
        destruct (0 <? List.length (regenerate_releases w))%nat;
          eexists; (split; [reflexivity|]); split; reflexivity.
  - cbn [forallb] in Hc. apply andb_prop in Hc as [Hc0 Hc].
    cbn [walk_commits buckets].
    destruct (dict_get sl (commit_sha c)) as [next|].
    + cbn [fold_left]. unfold bucket_step at 2. cbn [fst snd].
      destruct (list_mem (cur_release w) (regenerate_releases w)) eqn:Hm.
      * destruct (dict_get (walk_releases w) (cur_release w)) as [r|] eqn:Er;
          [|exfalso; apply (Hcov (cur_release w)); [now apply list_mem_In | exact Er]].
        rewrite (get_release_content_rendered cfg _ _ _ r Hp Hsel Er).
        cbn [py_bind failed Z.eqb negb andb].
        rewrite (store_content_ok _ _ _ r Er). cbn [py_bind].
        destruct (list_remove (cur_release w) (regenerate_releases w))
          as [|t0 regen'] eqn:El; cbn [List.length Nat.leb].
        -- eexists. destruct (finish_walk_idle cfg
              {| cur_release := next; selected_commits := [];
                 regenerate_releases := [];
                 walk_releases :=
                   dict_set (walk_releases w) (cur_release w)
                     (set_content r
                        (rendered cfg r (cur_release w) (selected_commits w)));
                 walk_out := (walk_out w ++ [] ++ [InfoAllGenerated])%list |}
              eq_refl) as (w' & Hf & Hr1 & Hr2).
           exists w'. split; [reflexivity|]. split; [exact Hf|].
           rewrite bucket_fold_done, Hr1, Hr2. reflexivity.
        -- rewrite <- El.
           apply (IH Hc {| cur_release := next; selected_commits := [c];
                           regenerate_releases :=
                             list_remove (cur_release w) (regenerate_releases w);
                           walk_releases :=
                             dict_set (walk_releases w) (cur_release w)
                               (set_content r
                                  (rendered cfg r (cur_release w)
                                     (selected_commits w)));
                           walk_out := (walk_out w ++ [])%list |}).
           ++ intros t Ht. cbn [regenerate_releases walk_releases] in *.
              exact (covered_render (regenerate_releases w) (walk_releases w)
                       (cur_release w) _ Hcov t Ht).
           ++ cbn [selected_commits forallb]. now rewrite Hc0.
      * apply (IH Hc {| cur_release := next; selected_commits := [c];
                        regenerate_releases := regenerate_releases w;
                        walk_releases := walk_releases w;
                        walk_out := walk_out w |}).
        -- exact Hcov.
        -- cbn [selected_commits forallb]. now rewrite Hc0.
    + apply (IH Hc {| cur_release := cur_release w;
                      selected_commits := (selected_commits w ++ [c])%list;
                      regenerate_releases := regenerate_releases w;
                      walk_releases := walk_releases w;
                      walk_out := walk_out w |}).
      * exact Hcov.
      * cbn [selected_commits]. now rewrite forallb_snoc, Hsel, Hc0.
Qed.

Lemma bucket_step_other (cfg : Config) (s : list string * dict Release)
    (b : string * list Commit) (t : string) :
  fst b <> t ->
  dict_get (snd (bucket_step cfg s b)) t = dict_get (snd s) t
  /\ (In t (fst s) -> In t (fst (bucket_step cfg s b))).
Proof.
  intros Hne. unfold bucket_step.
  destruct (list_mem (fst b) (fst s)); [|tauto].
  destruct (dict_get (snd s) (fst b)); [|tauto].
  cbn [fst snd]. split.
  - now apply dict_get_set_neq.
  - intros Hin. now apply list_remove_keep.
Qed.

Lemma bucket_fold_other (cfg : Config) (bs : list (string * list Commit))
    (t : string) :
  ~ In t (map fst bs) ->
  forall s : list string * dict Release,
    dict_get (snd (fold_left (bucket_step cfg) bs s)) t = dict_get (snd s) t.
Proof.
  induction bs as [|b bs IH]; intros Hn s; [reflexivity|].
  cbn [fold_left]. cbn [map In] in Hn. rewrite IH by tauto.
  apply bucket_step_other. tauto.
Qed.

Lemma bucket_fold_at (cfg : Config) (bs : list (string * list Commit))
    (t : string) (bucket : list Commit) (r0 : Release) :
  NoDup (map fst bs) ->
  In (t, bucket) bs ->
  forall s : list string * dict Release,
    In t (fst s) -> dict_get (snd s) t = Some r0 ->
    dict_get (snd (fold_left (bucket_step cfg) bs s)) t
    = Some (set_content r0 (rendered cfg r0 t bucket)).
Proof.
  induction bs as [|b bs IH]; intros Hn Hin s Ht Hr; [destruct Hin|].
  cbn [map] in Hn. inversion Hn as [|? ? Hb Hn']; subst.
  cbn [fold_left]. destruct Hin as [->|Hin].
  - rewrite bucket_fold_other by exact Hb.
    unfold bucket_step. cbn [fst snd].
    apply list_mem_In in Ht. rewrite Ht, Hr. cbn [snd].
    apply dict_get_set_eq.
  - assert (Hne : fst b <> t).
    { intros E. apply Hb. rewrite E.
      now apply (in_map fst bs (t, bucket)). }
    destruct (bucket_step_other cfg s b t Hne) as [H1 H2].
    apply IH; [exact Hn' | exact Hin | now apply H2 | now rewrite H1].
Qed.

Lemma reconcile_buckets (cfg : Config) (api : Api) (st : State)
    (commits : list Commit) (out : list LogLine) :
  get_github_commits api = Ok (commits, out) ->
  forallb resolved commits = true ->
  (forall part, In part (part_name cfg) -> count_char ":" part = 1) ->
  exists w,
    reconcile cfg api st = Ok w
    /\ (regenerate_releases w, walk_releases w)
       = fold_left (bucket_step cfg)
           (buckets
              (release_commit_sha_list_of
                 (walk_releases (start_walk cfg api st)))
              commits "Unreleased" [])
           (regenerate_releases (start_walk cfg api st),
            walk_releases (start_walk cfg api st)).
Proof.
  intros Hc Hres Hp. unfold reconcile. rewrite Hc. cbn [py_bind].
  set (w0 := {| cur_release := cur_release (start_walk cfg api st) |}).
  change (regenerate_releases (start_walk cfg api st))
    with (regenerate_releases w0).
  change (walk_releases (start_walk cfg api st)) with (walk_releases w0).
  assert (Hcov : covered w0) by exact (start_walk_covered cfg api st).
  destruct (regenerate_releases w0) as [|t0 regen] eqn:Er.
  - change (0 <? List.length (@nil string))%nat with false. cbn [py_bind].
    destruct (finish_walk_idle cfg w0 eq_refl) as (w' & Hf & H1 & H2).
    exists w'. split; [exact Hf|]. now rewrite bucket_fold_done, H1, H2, Er.
  - change (0 <? List.length (t0 :: regen))%nat with true. rewrite <- Er.
    destruct (walk_buckets cfg
                (release_commit_sha_list_of (walk_releases w0)) commits
                Hp Hres w0 Hcov eq_refl) as (w1 & w' & Hw & Hf & Hfold).
    rewrite Hw. cbn [py_bind]. exists w'. split; [exact Hf | exact Hfold].
Qed.

(** X21.  Over releases that have a description: when the request for
    the changelog file does not raise and the commits are listed, the
    pull requests of every commit are delivered, and every part of the
    [TYPE] input is a plain keyword, one colon and a name, [get_data]
    returns on a fresh object, and its walk amounts to this: the commits
    are cut into buckets before every commit at which a release is
    tagged, the first bucket going with [Unreleased] and each other one
    with the release tagged at its first commit; bucket after bucket, a
    release that is still to render gets the rendering of its bucket and
    is crossed out.  In particular, when no release has two buckets,
    every release to render that has a bucket ends with the rendering of
    exactly the commits of that bucket. *)
Theorem get_data_buckets (cfg : Config) (api : Api) (st1 : State)
    (commits : list Commit) (out : list LogLine) :
  get_exist_changelog api init_state = Ok st1 ->
  get_github_commits api = Ok (commits, out) ->
  forallb resolved commits = true ->
  (forall part, In part (part_name cfg) -> count_char ":" part = 1) ->
  keyword_types (part_name cfg) ->
  let w0 := start_walk cfg api st1 in
  let bs := buckets (release_commit_sha_list_of (walk_releases w0)) commits
              "Unreleased" [] in
  exists st,
    get_data cfg api init_state = Ok st
    /\ releases st
       = snd (fold_left (bucket_step cfg) bs
                (regenerate_releases w0, walk_releases w0))
    /\ (distinct (map fst bs) = true ->
        forall (t : string) (bucket : list Commit) (r0 : Release),
          In (t, bucket) bs ->
          In t (regenerate_releases w0) ->
          dict_get (walk_releases w0) t = Some r0 ->
          exists r, dict_get (releases st) t = Some r
                    /\ content r = rendered cfg r0 t bucket).
Proof.
  intros E1 Hc Hres Hp _ w0 bs.
  destruct (reconcile_buckets cfg api st1 commits out Hc Hres Hp)
    as (w & Hw & Hfold).
  fold w0 in Hfold. fold bs in Hfold.
  exists {| releases := walk_releases w; changelog := changelog st1;
            release_in_changelog := release_in_changelog st1;
            file_exists := file_exists st1; stdout := walk_out w |}.
  split; [|split].
  - unfold get_data. rewrite E1. cbn [py_bind]. now rewrite Hw.
  - cbn [releases]. now rewrite <- Hfold.
  - intros Hd t bucket r0 Hin Ht Hr. cbn [releases].
    apply distinct_NoDup in Hd.
    pose proof (bucket_fold_at cfg bs t bucket r0 Hd Hin
                  (regenerate_releases w0, walk_releases w0) Ht Hr) as H.
    rewrite <- Hfold in H. cbn [snd] in H.
    eexists. split; [exact H | reflexivity].
Qed.

Lemma get_data_buckets_witness :
  exists st,
    get_data (Sample.cfg (-1)) Sample.api init_state = Ok st
    /\ exists r,
         dict_get (releases st) "v1" = Some r
         /\ content r
            = rendered (Sample.cfg (-1))
                (release_entry Sample.rel1 "c3c3c3c3c3" "") "v1"
                [Sample.c3; Sample.c2].
Proof.
  destruct (get_data_buckets (Sample.cfg (-1)) Sample.api Sample.prior_state
              Cases.commits [])
    as (st & Hget & _ & Hbucket).
  - reflexivity.
  - reflexivity.
  - reflexivity.
  - intros part [<-|[<-|[]]]; reflexivity.
  - intros part T name [<-|[<-|[]]] E; vm_compute in E;
      now injection E as <- _.
  - exists st. split; [exact Hget|].
    apply (Hbucket eq_refl "v1" [Sample.c3; Sample.c2]
             (release_entry Sample.rel1 "c3c3c3c3c3" "")).
    + vm_compute. auto.
    + vm_compute. auto.
    + vm_compute. reflexivity.
Defined.

(** ** The blocks the renderer writes *)

Lemma heading_nl (b : string) :
  contains HEADING (nl ++ b) = prefix "## " b || contains HEADING b.
Proof.
  change (nl ++ b) with (String nl_char b). rewrite contains_cons.
  unfold HEADING. change (nl ++ "## ") with (String nl_char "## ").
  now rewrite prefix_cons, Ascii.eqb_refl.
Qed.

Lemma heading_char (c : ascii) (s : string) :
  is_nl c = false -> contains HEADING (String c s) = contains HEADING s.
Proof.
  intros H. rewrite contains_cons. unfold HEADING.
  change (nl ++ "## ") with (String nl_char "## "). rewrite prefix_cons.
  unfold is_nl in H. rewrite Ascii.eqb_sym in H. now rewrite H.
Qed.

Lemma heading_no_newline (a b : string) :
  no_newline a = true -> contains HEADING (a ++ b) = contains HEADING b.
Proof.
  induction a as [|c a IH]; intros H; [reflexivity|].
  cbn [no_newline] in H. apply andb_prop in H as [Hc Ha].
  apply negb_true_iff in Hc. cbn [String.append].
  now rewrite heading_char, IH.
Qed.

Lemma contains_app_r (sep a m : string) :
  contains sep m = true -> contains sep (a ++ m) = true.
Proof.
  intros H. induction a as [|c a IH]; [exact H|].
  cbn [String.append]. rewrite contains_cons, IH. apply orb_true_r.
Qed.

Lemma contains_app_l (sep m b : string) :
  contains sep m = true -> contains sep (m ++ b) = true.
Proof.
  induction m as [|c m IH]; intros H.
  - cbn [contains] in H. rewrite orb_false_r in H.
    destruct sep; [|discriminate]. destruct b; reflexivity.
  - rewrite contains_cons in H. cbn [String.append]. rewrite contains_cons.
    apply orb_prop in H as [H|H].
    + change (String c (m ++ b)) with (String c m ++ b).
      now rewrite (prefix_append_l _ _ b H).
    + rewrite (IH H). apply orb_true_r.
Qed.

Lemma contains_sub (sep a m b : string) :
  contains sep (a ++ m ++ b) = false -> contains sep m = false.
Proof.
  intros H. destruct (contains sep m) eqn:E; [|reflexivity].
  rewrite (contains_app_r sep a (m ++ b) (contains_app_l sep m b E)) in H.
  discriminate.
Qed.

Lemma heading_separator (s : string) :
  contains HEADING s = false -> contains RELEASE_SEP s = false.
Proof.
  induction s as [|c s IH]; intros H; [reflexivity|].
  rewrite contains_cons in H |- *. apply orb_false_iff in H as [Hp Hc].
  rewrite (IH Hc), orb_false_r.
  destruct (prefix RELEASE_SEP (String c s)) eqn:E; [|reflexivity].
  unfold RELEASE_SEP in E. change (nl ++ nl ++ "## ") with (String nl_char HEADING) in E.
  rewrite prefix_cons in E. apply andb_prop in E as [_ E].
  destruct s as [|d s]; [discriminate|].
  rewrite contains_cons, E in Hc. discriminate.
Qed.

Lemma lstrip_decomp (s : string) :
  exists l, s = l ++ lstrip_nl s /\ blank l = true.
Proof.
  induction s as [|c s IH]; [now exists ""|].
  cbn [lstrip_nl]. destruct (is_nl c) eqn:E; [|now exists ""].
  destruct IH as (l & Hl & Hb). exists (String c l). split.
  - cbn [String.append]. now rewrite <- Hl.
  - cbn [blank]. now rewrite E.
Qed.

Lemma rstrip_decomp (s : string) :
  exists r, s = rstrip_nl s ++ r /\ blank r = true.
Proof.
  induction s as [|c s IH]; [now exists ""|].
  destruct IH as (r & Hr & Hb).
  destruct (rstrip_nl s) as [|d t] eqn:E.
  - cbn [rstrip_nl]. rewrite E. destruct (is_nl c) eqn:Ec.
    + exists (String c s). split; [reflexivity|]. cbn [blank]. rewrite Ec.
      now apply rstrip_blank.
    + exists r. split; [|exact Hb]. cbn [String.append] in *. now rewrite <- Hr.
  - rewrite rstrip_cons_nonempty by (rewrite E; discriminate).
    exists r. split; [|exact Hb]. cbn [String.append]. rewrite E. now rewrite <- Hr.
Qed.

Lemma strip_decomp (s : string) :
  exists l r, s = l ++ strip_nl s ++ r /\ blank l = true.
Proof.
  destruct (lstrip_decomp s) as (l & Hl & Hb).
  destruct (rstrip_decomp (lstrip_nl s)) as (r & Hr & _).
  exists l, r. split; [|exact Hb]. unfold strip_nl. now rewrite <- Hr.
Qed.

Lemma heading_strip (s : string) :
  contains HEADING s = false -> contains HEADING (strip_nl s) = false.
Proof.
  intros H. destruct (strip_decomp s) as (l & r & Hs & _).
  rewrite Hs in H. now apply contains_sub in H.
Qed.

(** A stripped text begins like a heading only if the text does, or
    holds a heading of its own. *)
Lemma heading_strip_start (s : string) :
  contains HEADING s = false -> prefix "## " s = false ->
  prefix "## " (strip_nl s) = false.
Proof.
  intros Hc Hp. destruct (strip_decomp s) as (l & r & Hs & Hb).
  destruct (prefix "## " (strip_nl s)) eqn:E; [|reflexivity].
  exfalso. destruct l as [|c l].
  - cbn [String.append] in Hs. rewrite Hs in Hp.
    now rewrite (prefix_append_l _ _ r E) in Hp.
  - assert (Hl : exists l', String c l = l' ++ nl).
    { clear Hs. revert c Hb. induction l as [|c' l IH]; intros c Hb.
      - cbn [blank] in Hb. rewrite andb_true_r in Hb.
        unfold is_nl in Hb. apply Ascii.eqb_eq in Hb. subst c. now exists "".
      - cbn [blank] in Hb. apply andb_prop in Hb as [_ Hb].
        destruct (IH c' Hb) as [l' Hl']. exists (String c l').
        cbn [String.append]. now rewrite <- Hl'. }
    destruct Hl as [l' Hl]. rewrite Hl in Hs.
    assert (Ht : contains HEADING (nl ++ strip_nl s ++ r) = true)
      by (rewrite heading_nl, (prefix_append_l _ _ r E); reflexivity).
    rewrite Hs, append_assoc in Hc.
    now rewrite (contains_app_r HEADING l' _ Ht) in Hc.
Qed.

Lemma rstrip_no_newline (a z : string) :
  no_newline a = true -> rstrip_nl (a ++ z) = a ++ rstrip_nl z.
Proof.
  induction a as [|c a IH]; intros H; [reflexivity|].
  cbn [no_newline] in H. apply andb_prop in H as [Hc Ha].
  apply negb_true_iff in Hc. cbn [String.append].
  now rewrite rstrip_cons_keep, IH.
Qed.

Lemma no_newline_app (a b : string) :
  no_newline (a ++ b) = no_newline a && no_newline b.
Proof.
  induction a as [|c a IH]; [reflexivity|].
  cbn [String.append no_newline]. now rewrite IH, andb_assoc.
Qed.

Lemma no_close_newline (s : string) : no_close s = true -> no_newline s = true.
Proof.
  induction s as [|c s IH]; [reflexivity|]. cbn [no_close no_newline].
  intros H. apply andb_prop in H as [H H3]. apply andb_prop in H as [_ H2].
  now rewrite H2, IH.
Qed.

(** *** Whole lines *)

Lemma closed_line (a : string) : no_newline a = true -> closed_lines (a ++ nl).
Proof.
  intros H rest. now rewrite append_assoc, heading_no_newline, heading_nl.
Qed.

Lemma closed_lines_app (x y : string) :
  closed_lines x -> closed_lines y -> plain_start y -> closed_lines (x ++ y).
Proof.
  intros Hx Hy Hs rest. now rewrite append_assoc, Hx, Hs, Hy.
Qed.

Lemma plain_start_app (x y : string) : plain_start x -> plain_start (x ++ y).
Proof. intros H rest. now rewrite append_assoc. Qed.

Lemma closed_lines_cat (l : list string) :
  Forall (fun x => closed_lines x /\ plain_start x) l -> l <> [] ->
  closed_lines (cat l) /\ plain_start (cat l).
Proof.
  induction 1 as [|x l [Hx Hs] Hl IH]; intros Hne; [contradiction|].
  cbn [cat fold_right]. fold (cat l). destruct l as [|y l].
  - cbn [cat fold_right]. rewrite append_nil_r. now split.
  - destruct (IH ltac:(discriminate)) as [H1 H2]. split.
    + now apply closed_lines_app.
    + now apply plain_start_app.
Qed.

(** *** What a commit contributes holds no newline *)

Lemma until_paren_no_newline (s t : string) :
  until_paren s = Some t -> no_newline t = true.
Proof.
  revert t. induction s as [|c s IH]; intros t; cbn [until_paren];
    [discriminate|].
  destruct (is_char c ")"); [now intros [= <-]|].
  destruct (is_nl c) eqn:E; [discriminate|].
  destruct (until_paren s) as [t'|]; [|discriminate].
  intros [= <-]. cbn [no_newline]. now rewrite E, (IH t' eq_refl).
Qed.

Lemma opt_scope_no_newline (s : string) : no_newline (opt_scope s) = true.
Proof.
  unfold opt_scope. destruct s as [|c s]; [reflexivity|].
  destruct (is_char c "("); [|reflexivity].
  unfold paren_group. destruct s as [|d s]; [reflexivity|].
  destruct (is_nl d) eqn:E; [reflexivity|].
  destruct (until_paren s) as [t|] eqn:Et; [|reflexivity].
  cbn [no_newline]. now rewrite E, (until_paren_no_newline s t Et).
Qed.

Lemma scope_of_no_newline (T d : string) (s : bool) (c : SelectedCommit)
    (k : string) :
  no_newline d = true -> scope_of T d s c = Some k -> no_newline k = true.
Proof.
  intros Hd. unfold scope_of, match_type.
  destruct (prefix T (head c)); [|discriminate].
  destruct (dropped T d s _); [discriminate|].
  destruct (String.eqb _ ""); intros [= <-];
    [exact Hd | apply opt_scope_no_newline].
Qed.

Lemma colon_sep_suffix (s r : string) :
  colon_sep s = Some r -> exists p, s = p ++ r.
Proof.
  assert (G : forall t,
             exists p, t = p ++ match t with
                                | String d t' => if is_space d then t' else t
                                | "" => t
                                end).
  { intros [|d t]; [now exists ""|].
    destruct (is_space d); [now exists (String d "") | now exists ""]. }
  unfold colon_sep. destruct s as [|c s]; [discriminate|].
  destruct (is_char c ":").
  - intros [= <-]. destruct (G s) as [p Hp]. exists (String c p).
    cbn [String.append]. now rewrite <- Hp.
  - destruct (is_space c); [|discriminate].
    destruct s as [|d s]; [discriminate|].
    destruct (is_char d ":"); [|discriminate].
    intros [= <-]. destruct (G s) as [p Hp]. exists (String c (String d p)).
    cbn [String.append]. now rewrite <- Hp.
Qed.

Lemma match_type_colon_suffix (T h r : string) :
  match_type_colon T h = Some r -> exists p, h = p ++ r.
Proof.
  unfold match_type_colon.
  destruct (prefix T h) eqn:Hp; [|discriminate].
  apply prefix_inv in Hp. set (rest := drop (String.length T) h) in *.
  assert (G : colon_sep rest = Some r -> exists p, h = p ++ r).
  { intros H. apply colon_sep_suffix in H as [p Hr]. exists (T ++ p).
    now rewrite Hp, Hr, append_assoc. }
  destruct rest as [|c rest'] eqn:Er; [discriminate|].
  destruct (is_char c "(") eqn:Hc; [|exact G].
  destruct (paren_colon rest') as [r'|] eqn:Hg; [|exact G].
  intros [= ->]. unfold paren_colon in Hg.
  destruct rest' as [|d rest'']; [discriminate|].
  destruct (is_nl d); [discriminate|].
  apply paren_colon_go_sound in Hg as (s1 & s2 & Hs & _ & Hcs).
  apply colon_sep_suffix in Hcs as [p Hs2].
  exists (T ++ String c (String d (s1 ++ ")" ++ p))).
  rewrite Hp, Hs, Hs2, append_assoc. f_equal. cbn [String.append].
  do 2 f_equal. now rewrite append_assoc.
Qed.

Lemma sub_type_colon_no_newline (T h : string) :
  no_newline h = true -> no_newline (sub_type_colon T h) = true.
Proof.
  intros H. unfold sub_type_colon.
  destruct (match_type_colon T h) as [r|] eqn:E; [|exact H].
  apply match_type_colon_suffix in E as [p Hp]. rewrite Hp in H.
  rewrite no_newline_app in H. now apply andb_prop in H.
Qed.

Lemma take_no_newline (n : nat) (s : string) :
  no_newline s = true -> no_newline (take n s) = true.
Proof.
  revert s. induction n as [|n IH]; intros s H; [reflexivity|].
  destruct s as [|c s]; [reflexivity|]. cbn [no_newline take] in *.
  apply andb_prop in H as [Hc Hs]. now rewrite Hc, IH.
Qed.

Lemma concat_no_newline (l : list string) :
  Forall (fun x => no_newline x = true) l ->
  no_newline (String.concat "" l) = true.
Proof.
  induction 1 as [|x l Hx Hl IH]; [reflexivity|].
  destruct l as [|y l]; [exact Hx|].
  change (String.concat "" (x :: y :: l))
    with (x ++ "" ++ String.concat "" (y :: l)).
  cbn [String.append]. now rewrite no_newline_app, Hx, IH.
Qed.

(** A commit whose head, sha, address and links hold no newline. *)
Lemma render_commit_closed (T : string) (c : SelectedCommit) :
  no_newline (head c) = true -> no_newline (sha c) = true ->
  no_newline (url c) = true ->
  Forall (fun x => no_newline x = true) (pr_links c) ->
  closed_lines (render_commit (scoped T c))
  /\ plain_start (render_commit (scoped T c)).
Proof.
  intros Hh Hs Hu Hl. unfold render_commit. cbn [scoped subject commit].
  split.
  - replace ("  - " ++ sub_type_colon T (head c) ++ " (["
             ++ take 7 (sha c) ++ "](" ++ url c ++ "))"
             ++ String.concat "" (pr_links c) ++ nl)
      with (("  - " ++ sub_type_colon T (head c) ++ " (["
             ++ take 7 (sha c) ++ "](" ++ url c ++ "))"
             ++ String.concat "" (pr_links c)) ++ nl)
      by now rewrite !append_assoc.
    apply closed_line.
    rewrite !no_newline_app, (sub_type_colon_no_newline T _ Hh),
      (take_no_newline 7 _ Hs), Hu, (concat_no_newline _ Hl).
    reflexivity.
  - intros rest. reflexivity.
Qed.

Lemma closed_nl : closed_lines nl /\ plain_start nl.
Proof.
  split.
  - apply (closed_line ""). reflexivity.
  - intros rest. reflexivity.
Qed.

Lemma render_scope_closed (k : string) (sels : list ScopedCommit) :
  no_newline k = true ->
  Forall (fun sel => closed_lines (render_commit sel)
                     /\ plain_start (render_commit sel)) sels ->
  closed_lines (render_scope (k, sels) ++ nl)
  /\ plain_start (render_scope (k, sels) ++ nl).
Proof.
  intros Hk Hs. rewrite render_scope_cat. split.
  - assert (Hh : closed_lines (("- " ++ k ++ ":") ++ nl)).
    { apply closed_line. now rewrite !no_newline_app, Hk. }
    replace (("- " ++ k ++ ":" ++ nl ++ cat (map render_commit sels)) ++ nl)
      with ((("- " ++ k ++ ":") ++ nl) ++ cat (map render_commit sels) ++ nl)
      by now rewrite !append_assoc.
    destruct sels as [|sel sels].
    + cbn [map cat fold_right String.append].
      apply closed_lines_app; [exact Hh | apply closed_nl | apply closed_nl].
    + destruct (closed_lines_cat (map render_commit (sel :: sels)))
        as [H1 H2].
      * apply Forall_forall. intros x Hx.
        apply in_map_iff in Hx as (sel' & <- & Hin).
        exact (proj1 (Forall_forall _ _) Hs sel' Hin).
      * discriminate.
      * apply closed_lines_app; [exact Hh | |now apply plain_start_app].
        apply closed_lines_app; [exact H1 | apply closed_nl | apply closed_nl].
  - intros rest. reflexivity.
Qed.

Lemma strip_commits_entry (cs : list SelectedCommit) (T d : string) (s : bool)
    (k : string) (sels : list ScopedCommit) :
  In (k, sels) (strip_commits cs T d s) ->
  sels = map (scoped T) (filter (in_scope T d s k) cs)
  /\ exists c, In c cs /\ scope_of T d s c = Some k.
Proof.
  intros Hin. set (m := strip_commits cs T d s) in *.
  assert (Hn : NoDup (dict_keys m)).
  { unfold m, strip_commits. rewrite strip_commits_fold_keys.
    apply first_seen_fold_NoDup. constructor. }
  pose proof (dict_get_entry m (k, sels) Hn Hin) as Hg. cbn [fst snd] in Hg.
  unfold m, strip_commits in Hg. rewrite strip_commits_fold_get in Hg.
  cbn [dict_get] in Hg.
  destruct (filter (in_scope T d s k) cs) as [|c g] eqn:Ef; [discriminate|].
  injection Hg as <-. split; [reflexivity|].
  assert (Hc : In c (filter (in_scope T d s k) cs))
    by (rewrite Ef; now left).
  apply filter_In in Hc as [Hc1 Hc2]. exists c. split; [exact Hc1|].
  unfold in_scope in Hc2. destruct (scope_of T d s c) as [k'|]; [|discriminate].
  apply String.eqb_eq in Hc2. now subst.
Qed.

Lemma heading_app_nl (a b : string) :
  contains HEADING (a ++ nl ++ b)
  = contains HEADING a || contains HEADING (nl ++ b).
Proof.
  induction a as [|c a IH]; [reflexivity|].
  cbn [String.append]. rewrite !contains_cons, IH, orb_assoc. f_equal. f_equal.
  unfold HEADING. change (nl ++ "## ") with (String nl_char "## ").
  rewrite !prefix_cons. f_equal.
  destruct a as [|c1 [|c2 [|c3 a]]].
  - reflexivity.
  - cbn [String.append]. change nl with (String nl_char "").
    cbn [String.append]. rewrite !prefix_cons.
    change (Ascii.eqb "#" nl_char) with false.
    now rewrite !andb_false_r.
  - cbn [String.append]. change nl with (String nl_char "").
    cbn [String.append]. rewrite !prefix_cons.
    change (Ascii.eqb " " nl_char) with false.
    now rewrite !andb_false_r.
  - change (String c1 (String c2 (String c3 a)) ++ nl ++ b)
      with (String c1 (String c2 (String c3 a)) ++ (nl ++ b)).
    apply prefix_append_long. cbn [String.length]. lia.
Qed.

Lemma section_closed (cs : list SelectedCommit) (T d : string) (s : bool) :
  no_newline d = true ->
  forallb one_line_commit cs = true ->
  scopes_of T d s cs <> [] ->
  closed_lines (generate_section cs T d s)
  /\ plain_start (generate_section cs T d s).
Proof.
  intros Hd Hcs Hne. unfold generate_section.
  rewrite (fold_append_cat (fun entry => render_scope entry ++ nl)).
  cbn [String.append].
  apply closed_lines_cat.
  - apply Forall_forall. intros x Hx.
    apply in_map_iff in Hx as ([k sels] & <- & Hin).
    apply strip_commits_entry in Hin as (-> & c & Hc & Hk).
    apply render_scope_closed.
    + now apply (scope_of_no_newline T d s c k).
    + apply Forall_forall. intros sel Hsel.
      apply in_map_iff in Hsel as (c' & <- & Hc').
      apply filter_In in Hc' as [Hc' _].
      apply (proj1 (forallb_forall _ _) Hcs) in Hc'.
      unfold one_line_commit in Hc'.
      apply andb_prop in Hc' as [Hc' H4]. apply andb_prop in Hc' as [Hc' H3].
      apply andb_prop in Hc' as [H1 H2].
      apply render_commit_closed; try assumption.
      apply Forall_forall. intros l Hl.
      exact (proj1 (forallb_forall _ _) H4 l Hl).
  - intros E. apply Hne, first_seen_nil.
    assert (Hk : dict_keys (strip_commits cs T d s)
                 = first_seen (scopes_of T d s cs))
      by (unfold strip_commits, first_seen; now rewrite strip_commits_fold_keys).
    rewrite <- Hk. destruct (strip_commits cs T d s); [reflexivity | discriminate].
Qed.

Lemma cat_closed (l : list string) :
  Forall (fun x => x = "" \/ (closed_lines x /\ plain_start x)) l ->
  cat l = "" \/ (closed_lines (cat l) /\ plain_start (cat l)).
Proof.
  induction 1 as [|x l Hx Hl IH]; [now left|].
  cbn [cat fold_right]. fold (cat l).
  destruct Hx as [->|[Hx1 Hx2]]; [exact IH|]. right.
  destruct IH as [->|[H1 H2]].
  - rewrite append_nil_r. now split.
  - split; [now apply closed_lines_app | now apply plain_start_app].
Qed.

Lemma release_body_closed (cs : list SelectedCommit)
    (tn : list (string * string)) (d : string) (s : bool) (body : string) :
  Forall (fun p => has_char ":" (fst p) = false
                   /\ has_char ":" (snd p) = false) tn ->
  forallb (fun p => no_newline (snd p)) tn = true ->
  no_newline d = true ->
  forallb one_line_commit cs = true ->
  generate_release_body cs (map (fun p => fst p ++ ":" ++ snd p) tn) d s
    = Ok body ->
  contains HEADING body = false /\ prefix "## " body = false.
Proof.
  intros Htn Hnames Hd Hcs. unfold generate_release_body.
  rewrite (release_body_loop_ok cs d s tn Htn "").
  set (texts := map (fun p =>
                       match scopes_of (fst p) d s cs with
                       | [] => ""
                       | _ => "### " ++ snd p ++ nl ++ nl
                              ++ generate_section cs (fst p) d s
                       end) tn).
  change ("" ++ cat texts) with (cat texts). intros [= <-].
  assert (H : cat texts = ""
              \/ (closed_lines (cat texts) /\ plain_start (cat texts))).
  { apply cat_closed, Forall_forall. intros x Hx. unfold texts in Hx.
    apply in_map_iff in Hx as ([T name] & <- & Hin). cbn [fst snd].
    apply (proj1 (forallb_forall _ _) Hnames) in Hin. cbn [snd] in Hin.
    destruct (scopes_of T d s cs) as [|k ks] eqn:Es; [now left|]. right.
    destruct (section_closed cs T d s Hd Hcs) as [H1 H2];
      [rewrite Es; discriminate|].
    split.
    - replace ("### " ++ name ++ nl ++ nl ++ generate_section cs T d s)
        with ((("### " ++ name) ++ nl) ++ nl ++ generate_section cs T d s)
        by now rewrite !append_assoc.
      apply closed_lines_app.
      + apply closed_line. now rewrite no_newline_app, Hin.
      + apply closed_lines_app; [apply closed_nl | exact H1 | exact H2].
      + apply plain_start_app, closed_nl.
    - intros rest. reflexivity. }
  destruct H as [E|[H1 H2]]; [rewrite E; split; reflexivity|].
  split.
  - specialize (H1 ""). now rewrite append_nil_r in H1.
  - specialize (H2 ""). now rewrite append_nil_r in H2.
Qed.

(** A header line, a description and a body that hold no heading of a
    release make a block the parser reads back. *)
Lemma block_ok_of_parts (tag hdr line_tail desc S : string) :
  hdr = "Unreleased" \/ (hdr = "[" ++ tag ++ "]" /\ no_close tag = true) ->
  no_newline (hdr ++ line_tail) = true ->
  contains HEADING (nl ++ desc) = false ->
  contains HEADING S = false -> prefix "## " S = false ->
  block_ok tag
    (strip_nl ("## " ++ hdr ++ line_tail ++ nl ++ nl ++ desc)
     ++ nl ++ nl ++ S) = true.
Proof.
  intros Hh Hl Hd HS1 HS2.
  set (line := hdr ++ line_tail) in *.
  assert (Hinfo : "## " ++ hdr ++ line_tail ++ nl ++ nl ++ desc
                  = ("## " ++ line) ++ nl ++ nl ++ desc)
    by (unfold line; cbn [String.append]; now rewrite !append_assoc).
  rewrite Hinfo.
  assert (Hline : no_newline ("## " ++ line) = true)
    by (cbn [String.append no_newline]; exact Hl).
  assert (HI : strip_nl (("## " ++ line) ++ nl ++ nl ++ desc)
               = ("## " ++ line) ++ rstrip_nl (nl ++ nl ++ desc)).
  { unfold strip_nl. cbn [String.append]. rewrite lstrip_keep by reflexivity.
    apply (rstrip_no_newline ("## " ++ line) _ Hline). }
  assert (F1 : contains HEADING (("## " ++ line) ++ nl ++ nl ++ desc) = false).
  { rewrite heading_no_newline by exact Hline.
    rewrite heading_nl, Hd. reflexivity. }
  pose proof (heading_strip _ F1) as F2.
  set (I := strip_nl (("## " ++ line) ++ nl ++ nl ++ desc)) in *.
  assert (F3 : contains HEADING (I ++ nl ++ nl ++ S) = false).
  { rewrite heading_app_nl, F2, heading_nl, heading_nl, HS1, HS2. reflexivity. }
  pose proof (heading_strip _ F3) as F4.
  assert (F5 : strip_nl (I ++ nl ++ nl ++ S)
               = ("## " ++ line)
                 ++ rstrip_nl (rstrip_nl (nl ++ nl ++ desc) ++ nl ++ nl ++ S)).
  { rewrite HI, append_assoc. unfold strip_nl. cbn [String.append].
    rewrite lstrip_keep by reflexivity.
    apply (rstrip_no_newline ("## " ++ line) _ Hline). }
  unfold block_ok. rewrite F5 in *.
  set (W := rstrip_nl (rstrip_nl (nl ++ nl ++ desc) ++ nl ++ nl ++ S)) in *.
  assert (Hdrop : drop 3 (("## " ++ line) ++ W) = hdr ++ line_tail ++ W)
    by (unfold line; cbn [String.append drop]; now rewrite append_assoc).
  rewrite Hdrop.
  assert (Hp : prefix "## " (("## " ++ line) ++ W) = true)
    by (rewrite append_assoc; apply prefix_append).
  rewrite Hp. cbn [andb].
  assert (Hc : contains RELEASE_SEP (hdr ++ line_tail ++ W) = false).
  { apply heading_separator.
    apply (contains_sub HEADING "## " (hdr ++ line_tail ++ W) "").
    rewrite append_nil_r, <- Hdrop. exact F4. }
  rewrite Hc. cbn [negb andb].
  destruct Hh as [->|[-> Hn]].
  - rewrite prefix_append. apply orb_true_r.
  - rewrite prefix_append, Hn. apply orb_true_r.
Qed.

(** X22.  What the renderer writes, the parser reads back.  When the
    tag of the release holds no closing bracket and no newline, its
    address and its date hold no newline, no line of its description (for
    [Unreleased], of the replacement text) begins with [## ], the names
    of the parts and the default scope hold no newline, and the head, the
    sha, the address and the links of every commit hold no newline, the
    content [generate_release_changelog] returns is empty or is a block
    that opens with [## Unreleased] or with [## [tag]] and holds no
    further separator of releases, which is the condition [block_ok]
    under which the parser stores a block under its tag as it stands. *)
Theorem generated_block_ok (meta_data : Release) (cs : list SelectedCommit)
    (tag : string) (tn : list (string * string)) (d : string) (s : bool)
    (repl c : string) :
  generate_release_changelog meta_data cs tag
    (map (fun p => fst p ++ ":" ++ snd p) tn) d s repl = Ok c ->
  Forall (fun p => has_char ":" (fst p) = false
                   /\ has_char ":" (snd p) = false) tn ->
  forallb (fun p => no_newline (snd p)) tn = true ->
  no_newline d = true ->
  forallb one_line_commit cs = true ->
  no_close tag = true ->
  no_newline (html_url meta_data) = true ->
  no_newline (created_at meta_data) = true ->
  contains HEADING
    (nl ++ (if String.eqb tag "Unreleased" then repl
            else release_description (body meta_data) repl)) = false ->
  block_ok tag c = true.
Proof.
  intros Hg Htn Hnames Hd Hcs Htag Hurl Hdate Hdesc.
  unfold generate_release_changelog in Hg.
  destruct (generate_release_body cs _ d s) as [release_body|e] eqn:Eb;
    cbn [py_bind] in Hg; [|discriminate].
  destruct (release_body_closed cs tn d s release_body Htn Hnames Hd Hcs Eb)
    as [HB1 HB2].
  pose proof (heading_strip _ HB1) as HS1.
  pose proof (heading_strip_start _ HB1 HB2) as HS2.
  destruct (String.eqb release_body "" && String.eqb tag "Unreleased");
    injection Hg as <-; [reflexivity|].
  unfold release_info.
  destruct (String.eqb tag "Unreleased").
  - apply (block_ok_of_parts tag "Unreleased" "" repl (strip_nl release_body));
      [now left | reflexivity | exact Hdesc | exact HS1 | exact HS2].
  - replace ("## [" ++ tag ++ "](" ++ html_url meta_data ++ ") - "
             ++ created_at meta_data ++ nl ++ nl
             ++ release_description (body meta_data) repl)
      with ("## " ++ ("[" ++ tag ++ "]")
            ++ ("(" ++ html_url meta_data ++ ") - " ++ created_at meta_data)
            ++ nl ++ nl ++ release_description (body meta_data) repl)
      by (cbn [String.append]; now rewrite !append_assoc).
    apply block_ok_of_parts;
      [right; now split | | exact Hdesc | exact HS1 | exact HS2].
    rewrite !no_newline_app, (no_close_newline tag Htag), Hurl, Hdate.
    reflexivity.
Qed.

Lemma generated_block_ok_witness : block_ok "v1" Sample.block_v1 = true.
Proof.
  apply (generated_block_ok (release_entry Sample.rel1 "c3c3c3c3c3" "")
           Sample.s32 "v1" [("feat", "Feature"); ("fix", "Fix")] "general"
           false "" Sample.block_v1).
  - vm_compute. reflexivity.
  - repeat constructor.
  - reflexivity.
  - reflexivity.
  - reflexivity.
  - reflexivity.
  - reflexivity.
  - reflexivity.
  - vm_compute. reflexivity.
Defined.

(** ** Existing-changelog parser: what is stored *)

Lemma until_close_shape (s t : string) :
  until_close s = Some t -> no_close t = true.
Proof.
  revert t. induction s as [|c s IH]; intros t; cbn [until_close];
    [discriminate|].
  destruct (is_char c "]") eqn:E1; [now intros [= <-]|].
  destruct (is_nl c) eqn:E2; [discriminate|].
  destruct (until_close s) as [t'|]; [|discriminate].
  intros [= <-]. cbn [no_close]. now rewrite E1, E2, (IH t' eq_refl).
Qed.

Lemma search_bracket_shape (s g : string) :
  search_bracket s = Some g ->
  exists k, g = "[" ++ k ++ "]" /\ no_close k = true.
Proof.
  induction s as [|c s IH]; cbn [search_bracket]; [discriminate|].
  destruct (is_char c "["); [|exact IH].
  destruct (until_close s) as [t|] eqn:E; [|exact IH].
  intros [= <-]. exists t. split; [reflexivity|].
  now apply (until_close_shape s).
Qed.

Lemma until_close_blank (m r : string) :
  blank r = true -> until_close (m ++ r) = until_close m.
Proof.
  intros Hr. induction m as [|c m IH].
  - cbn [String.append]. destruct r as [|c r]; [reflexivity|].
    cbn [blank] in Hr. apply andb_prop in Hr as [Hc _].
    cbn [until_close]. rewrite Hc.
    unfold is_nl in Hc. apply Ascii.eqb_eq in Hc. subst c. reflexivity.
  - cbn [String.append until_close]. now rewrite IH.
Qed.

Lemma search_bracket_blank_r (m r : string) :
  blank r = true -> search_bracket (m ++ r) = search_bracket m.
Proof.
  intros Hr. induction m as [|c m IH].
  - cbn [String.append]. clear -Hr. induction r as [|c r IH]; [reflexivity|].
    cbn [blank] in Hr. apply andb_prop in Hr as [Hc Hr].
    cbn [search_bracket]. unfold is_nl in Hc. apply Ascii.eqb_eq in Hc.
    subst c. exact (IH Hr).
  - cbn [String.append search_bracket].
    now rewrite IH, (until_close_blank m r Hr).
Qed.

Lemma search_bracket_blank_l (l m : string) :
  blank l = true -> search_bracket (l ++ m) = search_bracket m.
Proof.
  induction l as [|c l IH]; intros Hl; [reflexivity|].
  cbn [blank] in Hl. apply andb_prop in Hl as [Hc Hl].
  cbn [String.append search_bracket]. unfold is_nl in Hc.
  apply Ascii.eqb_eq in Hc. subst c. exact (IH Hl).
Qed.

Lemma search_bracket_strip (s : string) :
  search_bracket (strip_nl s) = search_bracket s.
Proof.
  destruct (lstrip_decomp s) as (l & Hl & Hb).
  destruct (rstrip_decomp (lstrip_nl s)) as (r & Hr & Hbr).
  transitivity (search_bracket (lstrip_nl s)).
  - unfold strip_nl.
    now rewrite <- (search_bracket_blank_r (rstrip_nl (lstrip_nl s)) r Hbr),
      <- Hr.
  - now rewrite <- (search_bracket_blank_l l (lstrip_nl s) Hb), <- Hl.
Qed.

Lemma dict_set_NoDup {V} (d : dict V) (k : string) (v : V) :
  NoDup (dict_keys d) -> NoDup (dict_keys (dict_set d k v)).
Proof.
  induction d as [|[k0 v0] d IH]; intros H; cbn [dict_set].
  - constructor; [intros [] | constructor].
  - cbn [dict_keys map fst] in H. inversion H as [|? ? Hk Hn]; subst.
    destruct (String.eqb_spec k0 k) as [E|E]; cbn [dict_keys map fst].
    + subst k0. now constructor.
    + constructor; [|now apply IH]. intros Hin.
      apply in_map_iff in Hin as ([k1 v1] & E1 & Hin). cbn [fst] in E1.
      subst k1. apply dict_set_In in Hin as [[Hin _]|Hin]; [now subst|].
      apply Hk. now apply (in_map fst d (k0, v1)).
Qed.

Lemma analyze_segment_stored (acc : dict string * list LogLine) (seg : string) :
  (forall k v, In (k, v) (fst acc) -> stored_block k v) ->
  NoDup (dict_keys (fst acc)) ->
  (forall k v, In (k, v) (fst (analyze_segment acc seg)) -> stored_block k v)
  /\ NoDup (dict_keys (fst (analyze_segment acc seg))).
Proof.
  intros Hs Hn. unfold analyze_segment.
  destruct (startswith seg "Unreleased" || String.eqb seg ""); [now split|].
  destruct (search_bracket seg) as [g|] eqn:Eg; cbn [fst]; [|now split].
  apply search_bracket_shape in Eg as Hg. destruct Hg as (k0 & -> & Hk0).
  rewrite slice_brackets. split; [|now apply dict_set_NoDup].
  intros k v Hin. apply dict_set_In in Hin as [[-> ->]|Hin]; [|now apply Hs].
  unfold stored_block. split; [|split; [|split]].
  - apply prefix_append.
  - change ("## " ++ strip_nl seg)
      with (String "#" (String "#" (String " " (strip_nl seg)))).
    unfold strip_nl at 1. rewrite lstrip_keep by reflexivity.
    rewrite !rstrip_cons_keep by reflexivity.
    now rewrite (proj2 (strip_trimmed seg)).
  - exact Hk0.
  - change ("## " ++ strip_nl seg)
      with (String "#" (String "#" (String " " (strip_nl seg)))).
    cbn [search_bracket].
    change (is_char "#" "[") with false. change (is_char " " "[") with false.
    cbn iota. now rewrite search_bracket_strip.
Qed.

(** X23.  Whatever the document, every block [analyze_changelog] stores
    opens with [## ], has no newline at its two ends, and carries its tag
    in its first pair of brackets that stand on one line; the tag holds
    neither closing bracket nor newline, and no tag is stored twice: a
    later block replaces an earlier one with the same tag. *)
Theorem analyze_changelog_stored (text : string) :
  (forall k v : string,
     In (k, v) (fst (analyze_changelog text [])) -> stored_block k v)
  /\ NoDup (dict_keys (fst (analyze_changelog text []))).
Proof.
  assert (G : forall (segs : list string) (acc : dict string * list LogLine),
             (forall k v, In (k, v) (fst acc) -> stored_block k v) ->
             NoDup (dict_keys (fst acc)) ->
             (forall k v,
                In (k, v) (fst (fold_left analyze_segment segs acc)) ->
                stored_block k v)
             /\ NoDup (dict_keys (fst (fold_left analyze_segment segs acc)))).
  { induction segs as [|seg segs IH]; intros acc Hs Hn; [now split|].
    cbn [fold_left].
    destruct (analyze_segment_stored acc seg Hs Hn) as [H1 H2].
    now apply IH. }
  assert (H0 : (forall k v, In (k, v) (fst (@nil (string * string),
                                            @nil LogLine)) ->
                            stored_block k v)
               /\ NoDup (dict_keys (fst (@nil (string * string),
                                         @nil LogLine)))).
  { split; [intros k v [] | constructor]. }
  unfold analyze_changelog.
  destruct (startswith text BEGIN_CHANGELOG_TITLE
            && endswith text (END_CHANGELOG_SIGNATURE ++ nl)).
  - now apply G.
  - destruct (negb (String.eqb text "")); [exact H0 | now apply G].
Qed.

Lemma analyze_changelog_stored_witness :
  stored_block "v0" Sample.prior_v0.
Proof.
  apply (proj1 (analyze_changelog_stored Sample.prior) "v0" Sample.prior_v0).
  vm_compute. auto.
Defined.

